(** * vizdiff CLI: the upload pipeline and the git-metadata resolution

    A shallow embedding of [src/upload-storybook.ts], [src/index.ts],
    [src/log.ts], [src/bin/vizdiff.ts] and [src/supportsColor.ts], with the
    properties of the specification proved (or refuted) over it, and further
    properties of the code: the checks and the exchange of the upload, the
    search for the repository, the reports of the command, the level of
    color.

    Conventions.
    - A JavaScript string is a [string]: a sequence of code units below 256.
    - [undefined] is [None]; an optional field [x?: T] is an [option T].
    - A number is an integer, which stands for the double nearest to it.
    - An [async] function is a computation in the monad [M] below: it reads the
      world (the process, file permissions, the compression library, the
      network, git), threads the file system and the trace of observable
      events, and ends by returning, by throwing or with the process
      exiting.
    - The libraries are taken by their answers: what a promise resolves to,
      or the error it rejects with. *)

From Stdlib Require Import String Ascii List ZArith Lia Bool DecimalString.
From stdpp Require Import strings gmap list.

Open Scope string_scope.
Open Scope list_scope.
Open Scope nat_scope.

Set Warnings "-register-all".

(* ===================================================================== *)
(** * JavaScript built-ins used by the sources *)
(* ===================================================================== *)

Module Js.

(** Code units. *)
Definition code (c : ascii) : nat := nat_of_ascii c.

Definition is_lower (c : ascii) : bool := (97 <=? code c) && (code c <=? 122).
Definition is_upper (c : ascii) : bool := (65 <=? code c) && (code c <=? 90).

(** [String.prototype.toUpperCase] on one code unit, as the [Canonicalize]
    operation of regular expressions uses it: only the letters a-z change
    (a code unit above 127 never maps to one below 128). *)
Definition to_upper (c : ascii) : ascii :=
  if is_lower c then ascii_of_nat (code c - 32) else c.

(** [s1.startsWith(s2)], on code-unit lists. *)
Fixpoint starts_with (p s : list ascii) : bool :=
  match p, s with
  | [], _ => true
  | a :: p', b :: s' => Ascii.eqb a b && starts_with p' s'
  | _ :: _, [] => false
  end.

(** [s.includes(sub)]. *)
Fixpoint includes_chars (sub s : list ascii) : bool :=
  starts_with sub s ||
  match s with
  | [] => false
  | _ :: s' => includes_chars sub s'
  end.

Definition includes (s sub : string) : bool :=
  includes_chars (list_ascii_of_string sub) (list_ascii_of_string s).

(** [s.replace(pat, by)] with a string pattern: the first occurrence only. *)
Fixpoint replace_chars (pat by_ s : list ascii) : list ascii :=
  if starts_with pat s then by_ ++ drop (length pat) s
  else match s with
       | [] => []
       | c :: s' => c :: replace_chars pat by_ s'
       end.

Definition replace (s pat by_ : string) : string :=
  string_of_list_ascii
    (replace_chars (list_ascii_of_string pat) (list_ascii_of_string by_)
                   (list_ascii_of_string s)).

(** White space and line terminators of [String.prototype.trim], among the
    code units below 256: TAB, LF, VT, FF, CR, SP and NBSP. *)
Definition is_space (c : ascii) : bool :=
  let n := code c in
  ((9 <=? n) && (n <=? 13)) || (n =? 32) || (n =? 160).

Fixpoint trim_start (s : list ascii) : list ascii :=
  match s with
  | c :: s' => if is_space c then trim_start s' else s
  | [] => []
  end.

Definition trim_chars (s : list ascii) : list ascii :=
  rev (trim_start (rev (trim_start s))).

Definition trim (s : string) : string :=
  string_of_list_ascii (trim_chars (list_ascii_of_string s)).

(** Numbers. The numbers of the sources are integers, or what [parseInt]
    makes of a text: an integer [z] stands for the number nearest to it, its
    double, and an integer beyond the doubles for an infinity. *)

(** The decimal digits of an integer. *)
Definition decimal (z : Z) : string := NilZero.string_of_int (Z.to_int z).

(** The double nearest to an integer [a >= 0]: 53 significant bits are kept
    and the rest is rounded, a tie to the even significand. Below 2^53 the
    integer is its own double; from 2^1024 on the result stands for
    [Infinity]. *)
Definition round_double (a : Z) : Z :=
  let bits := (Z.log2 a + 1)%Z in
  if (bits <=? 53)%Z then a
  else
    let e := (bits - 53)%Z in
    let q := Z.shiftr a e in
    let r := (a - Z.shiftl q e)%Z in
    let half := Z.shiftl 1 (e - 1) in
    Z.shiftl (if (half <? r)%Z || ((r =? half)%Z && Z.odd q) then q + 1 else q)%Z e.

(** The digits [s], their count [k] and the exponent [n] of
    [Number::toString] for a double [x] of [d] decimal digits: the least [k]
    for which some [s] of [k] digits has [s * 10^(n-k)] round to [x]; of two
    such [s] the one nearer to [x], and the even one when they are as near.
    Seventeen digits tell any two doubles apart, so the search ends before
    its fuel does. *)
Fixpoint shortest (x d : Z) (fuel : nat) (k : Z) : Z * Z * Z :=
  let p := (10 ^ (d - k))%Z in
  let lo := (x / p)%Z in
  let hi := (lo + 1)%Z in
  let gives s := (round_double (s * p) =? x)%Z in
  match fuel with
  | 0 => (lo, k, d)
  | S fuel' =>
      if gives lo && gives hi && (hi <? 10 ^ k)%Z then
        match (x - lo * p ?= hi * p - x)%Z with
        | Lt => (lo, k, d)
        | Gt => (hi, k, d)
        | Eq => (if Z.even lo then lo else hi, k, d)
        end
      else if gives lo then (lo, k, d)
      else if gives hi && (hi <? 10 ^ k)%Z then (hi, k, d)
      else if gives hi && (k =? 1)%Z then (1%Z, 1%Z, (d + 1)%Z)
      else shortest x d fuel' (k + 1)%Z
  end.

(** The exponent notation of a double from 10^21 on: [1e+21],
    [1.1805916207174113e+21]. *)
Definition exponent_notation (x : Z) : string :=
  let d := Z.of_nat (String.length (decimal x)) in
  match shortest x d 17 1 with
  | (s, k, n) =>
      match decimal s with
      | String c rest =>
          String c (if (k =? 1)%Z then "" else "." +:+ rest) +:+ "e+" +:+ decimal (n - 1)
      | EmptyString => ""
      end
  end.

(** [n.toString()] and [`${n}`] for the number that the integer [z] stands
    for: the decimal digits below 10^21, the exponent notation from there
    on, [Infinity] beyond the doubles. *)
Definition int_to_string (z : Z) : string :=
  let x := round_double (Z.abs z) in
  (if (z <? 0)%Z then "-" else "")
  +:+ (if (2 ^ 1024 <=? x)%Z then "Infinity"
       else if (x <? 10 ^ 21)%Z then decimal x
       else exponent_notation x).

(** [n.toString(16)] for [0 <= n < 16]. *)
Definition hex_digit (n : nat) : string :=
  match n with
  | 0 => "0" | 1 => "1" | 2 => "2" | 3 => "3" | 4 => "4" | 5 => "5" | 6 => "6"
  | 7 => "7" | 8 => "8" | 9 => "9" | 10 => "a" | 11 => "b" | 12 => "c"
  | 13 => "d" | 14 => "e" | _ => "f"
  end.

(** [strs.join("")]. *)
Definition join (l : list string) : string := fold_right String.append "" l.

(** Error objects: [name], [message], and the [statusCode] the upload client
    attaches to a rejection. *)
Record Error := mkError {
  name : string;
  message : string;
  statusCode : option Z
}.

(** [new Error(msg)]. *)
Definition new_Error (msg : string) : Error :=
  {| name := "Error"; message := msg; statusCode := None |}.

(** [`${err}`]: [Error.prototype.toString]. *)
Definition Error_toString (e : Error) : string :=
  if String.eqb (name e) "" then message e
  else if String.eqb (message e) "" then name e
  else name e +:+ ": " +:+ message e.

End Js.

(* ===================================================================== *)
(** * Regular expressions

    The two patterns of the sources are character classes under a bounded
    repetition, anchored at both ends; a third strips a run of slashes at the
    end of a URL.  The matcher computes, for a pattern and an input, the list
    of inputs left after each way of matching a prefix (in the order in which
    a backtracking matcher tries them). *)
(* ===================================================================== *)

Module Regex.

Inductive regex : Type :=
| Class (ranges : list (ascii * ascii))     (* [a-b...] *)
| Seq (r1 r2 : regex)                       (* r1 r2 *)
| Repeat (r : regex) (lo hi : nat)          (* r{lo,hi} *)
| AtLeast (r : regex) (lo : nat).           (* r{lo,}; r+ is r{1,} *)

(** [Canonicalize(ch)] with and without the [i] flag. *)
Definition canonicalize (ignoreCase : bool) (c : ascii) : ascii :=
  if ignoreCase then Js.to_upper c else c.

(** The code units of a class range. *)
Definition range_chars (rg : ascii * ascii) : list ascii :=
  map ascii_of_nat (seq (Js.code (fst rg)) (S (Js.code (snd rg)) - Js.code (fst rg))).

(** A class matches [c] when some member has the same canonical form. *)
Definition class_matches (ignoreCase : bool) (ranges : list (ascii * ascii))
           (c : ascii) : bool :=
  existsb (fun a => Ascii.eqb (canonicalize ignoreCase a) (canonicalize ignoreCase c))
          (flat_map range_chars ranges).

Fixpoint repeat_run (step : list ascii -> list (list ascii)) (lo hi : nat)
         (s : list ascii) : list (list ascii) :=
  match hi with
  | 0 => if lo =? 0 then [s] else []
  | S hi' =>
      flat_map (repeat_run step (pred lo) hi') (step s)
      ++ (if lo =? 0 then [s] else [])
  end.

Fixpoint run (ignoreCase : bool) (r : regex) (s : list ascii) : list (list ascii) :=
  match r with
  | Class ranges =>
      match s with
      | c :: t => if class_matches ignoreCase ranges c then [t] else []
      | [] => []
      end
  | Seq r1 r2 => flat_map (run ignoreCase r2) (run ignoreCase r1 s)
  | Repeat r' lo hi => repeat_run (run ignoreCase r') lo hi s
  | AtLeast r' lo => repeat_run (run ignoreCase r') lo (lo + length s) s
  end.

Definition is_nil (s : list ascii) : bool :=
  match s with [] => true | _ :: _ => false end.

(** The whole of [s] is matched by [r]. *)
Definition matches_all (ignoreCase : bool) (r : regex) (s : list ascii) : bool :=
  existsb is_nil (run ignoreCase r s).

(** [/^r$/.test(s)] and [/^r$/i.test(s)] (no [m] flag: [$] is the end of the
    input). *)
Definition test_anchored (ignoreCase : bool) (r : regex) (s : string) : bool :=
  matches_all ignoreCase r (list_ascii_of_string s).

(** [s.replace(/r$/, "")]: the leftmost suffix that [r] matches is removed. *)
Fixpoint strip_at_end (ignoreCase : bool) (r : regex) (s : list ascii) : list ascii :=
  if matches_all ignoreCase r s then []
  else match s with
       | [] => []
       | c :: s' => c :: strip_at_end ignoreCase r s'
       end.

End Regex.

(* ===================================================================== *)
(** * src/index.ts *)
(* ===================================================================== *)

(** [/^[0-9a-f]{12,24}$/] *)
Definition token_regex : Regex.regex :=
  Regex.Repeat (Regex.Class [("0"%char, "9"%char); ("a"%char, "f"%char)]) 12 24.

(** Verify that a token is 12-24 hex characters. *)
Definition checkToken (token : string) : bool :=
  Regex.test_anchored false token_regex token.

(** [/^[0-9a-f]{40}$/i] of [isValidGitCommitHash] in src/upload-storybook.ts. *)
Definition commit_regex : Regex.regex :=
  Regex.Repeat (Regex.Class [("0"%char, "9"%char); ("a"%char, "f"%char)]) 40 40.

Definition isValidGitCommitHash (hash : string) : bool :=
  Regex.test_anchored true commit_regex hash.

(* ===================================================================== *)
(** * JSON values, as [JSON.parse] and [response.json()] give them *)
(* ===================================================================== *)

Module Json.

(** A number is kept as the text [Number.prototype.toString] prints for it:
    the sources print numbers of JSON documents and test them for truth, and
    never compute with them. *)
Inductive value : Type :=
| Null
| Bool (b : bool)
| Num (repr : string)
| Str (s : string)
| Arr (items : list value)
| Obj (fields : list (string * value)).

(** [typeof v] *)
Definition typeof (v : value) : string :=
  match v with
  | Null | Arr _ | Obj _ => "object"
  | Bool _ => "boolean"
  | Num _ => "number"
  | Str _ => "string"
  end.

(** [ToBoolean(v)]: [null], [false], [0] and the empty string are falsy. *)
Definition truthy (v : value) : bool :=
  match v with
  | Null => false
  | Bool b => b
  | Num r => negb (String.eqb r "0")
  | Str s => negb (String.eqb s "")
  | Arr _ | Obj _ => true
  end.

(** The fields of an object literal in the order read; a key written twice
    holds its last value. *)
Fixpoint field (k : string) (fields : list (string * value)) : option value :=
  match fields with
  | [] => None
  | (k', v) :: rest =>
      match field k rest with
      | Some v' => Some v'
      | None => if String.eqb k k' then Some v else None
      end
  end.

(** [v.k] (or [v[k]]) for a key that is no index, not ["length"] and the name
    of no inherited property: only an object has such a property; on [null]
    the access throws, which the callers below handle before they come
    here. *)
Definition get (v : value) (k : string) : option value :=
  match v with
  | Obj fields => field k fields
  | _ => None
  end.

(** [k in v], for an object [v] and a key that is no index. *)
Definition has (k : string) (v : value) : bool :=
  match get v k with Some _ => true | None => false end.

(** [Object.keys(v).length] for a value with [typeof v === "object"] that is
    not [null]: the distinct keys of an object, the indices of an array. *)
Definition keys_length (v : value) : nat :=
  match v with
  | Obj fields => length (remove_dups (map fst fields))
  | Arr items => length items
  | _ => 0
  end.

Definition join_comma (l : list string) : string :=
  match l with
  | [] => ""
  | x :: rest => fold_left (fun acc y => acc +:+ "," +:+ y) rest x
  end.

(** [String(v)], as a template literal applies it. *)
Fixpoint to_string (v : value) : string :=
  match v with
  | Null => "null"
  | Bool true => "true"
  | Bool false => "false"
  | Num r => r
  | Str s => s
  | Arr items =>
      join_comma (map (fun x => match x with Null => "" | _ => to_string x end) items)
  | Obj _ => "[object Object]"
  end.

(** [`${x}`] for a property that may be missing. *)
Definition show (x : option value) : string :=
  match x with
  | Some v => to_string v
  | None => "undefined"
  end.

End Json.

(* ===================================================================== *)
(** * Values that may be missing *)
(* ===================================================================== *)

(** [ToBoolean] of an optional string and of an optional number. *)
Definition truthy_string (o : option string) : bool :=
  match o with
  | Some s => negb (String.eqb s "")
  | None => false
  end.

Definition truthy_number (o : option Z) : bool :=
  match o with
  | Some n => negb (Z.eqb n 0)
  | None => false
  end.

(** [o ?? d], with a default that is defined and with one that may not be. *)
Definition nullish_or {A} (o : option A) (d : A) : A :=
  match o with Some a => a | None => d end.

Definition nullish {A} (o d : option A) : option A :=
  match o with Some _ => o | None => d end.

(* ===================================================================== *)
(** * src/supportsColor.ts

    The level of color the terminal supports, from the flags of the command
    line, the environment and the system. *)
(* ===================================================================== *)

Module Color.

(** [ColorSupportLevel] *)
Record ColorSupportLevel := mkLevel {
  level : Z;
  hasBasic : bool;
  has256 : bool;
  has16m : bool
}.

(** [StreamLike] *)
Record StreamLike := mkStream {
  isTTY : option bool
}.

(** [SupportsColorOptions]. For [streamIsTTY] a key that is absent ([None])
    is told from a key that holds [undefined] ([Some None]): the spread of
    [createSupportsColor] tells them apart. *)
Record SupportsColorOptions := mkOptions {
  streamIsTTY : option (option bool);
  sniffFlags : option bool
}.

(** What the module reads of the process and of the system. *)
Record Host := mkHost {
  argv : list string;                  (* process.argv *)
  env : string -> option string;       (* process.env *)
  platform : string;                   (* process.platform *)
  release : string;                    (* os.release() *)
  isatty : nat -> bool;                (* tty.isatty(fd) *)
  (* Number(text), rounded down, for a component of the release; None is
     NaN. The source only compares it with integers. *)
  Number : string -> option Z
}.

(** [argv.indexOf(x)]; [None] is -1. *)
Fixpoint indexOf (x : string) (l : list string) : option nat :=
  match l with
  | [] => None
  | y :: l' => if String.eqb y x then Some 0 else option_map S (indexOf x l')
  end.

(** From has-flag: the flag is among the arguments, before the terminator
    [--] when there is one. *)
Definition hasFlag (flag : string) (argv : list string) : bool :=
  let prefix :=
    if Js.starts_with ["-"%char] (list_ascii_of_string flag) then ""
    else if String.length flag =? 1 then "-" else "--" in
  let position := indexOf (prefix +:+ flag) argv in
  let terminatorPosition := indexOf "--" argv in
  match position, terminatorPosition with
  | None, _ => false
  | Some _, None => true
  | Some p, Some t => p <? t
  end.

(** [flagForceColor], set once from the arguments of the process. *)
Definition flagForceColor (h : Host) : option Z :=
  let has flag := hasFlag flag (argv h) in
  if has "no-color" || has "no-colors" || has "color=false" || has "color=never"
  then Some 0%Z
  else if has "color" || has "colors" || has "color=true" || has "color=always"
  then Some 1%Z
  else None.

Definition is_digit (c : ascii) : bool := (48 <=? Js.code c) && (Js.code c <=? 57).

Fixpoint digits_value (acc : Z) (s : list ascii) : Z :=
  match s with
  | c :: s' =>
      if is_digit c then digits_value (10 * acc + Z.of_nat (Js.code c - 48)) s' else acc
  | [] => acc
  end.

(** [Number.parseInt(text, 10)]: white space is skipped, then a sign is
    read, then the decimal digits as far as they go; [None] is NaN. (The
    value is exact below 2^53; above, JavaScript rounds it, which no
    comparison of the source can see.) *)
Definition parseInt10 (text : string) : option Z :=
  let s := Js.trim_start (list_ascii_of_string text) in
  let signed :=
    match s with
    | "-"%char :: t => ((-1)%Z, t)
    | "+"%char :: t => (1%Z, t)
    | _ => (1%Z, s)
    end in
  match snd signed with
  | c :: _ => if is_digit c then Some (fst signed * digits_value 0 (snd signed))%Z else None
  | [] => None
  end.

Definition envForceColor (h : Host) : option Z :=
  match env h "FORCE_COLOR" with
  | None => None
  | Some forceColorEnv =>
      if String.eqb forceColorEnv "true" then Some 1%Z
      else if String.eqb forceColorEnv "false" then Some 0%Z
      else if String.length forceColorEnv =? 0 then
        (* supports-color returns 1 for empty string *)
        Some 1%Z
      else
        match parseInt10 forceColorEnv with
        | Some parsedLevel =>
            if (0 <=? parsedLevel)%Z && (parsedLevel <=? 3)%Z then Some parsedLevel
            else None
        | None => None
        end
  end.

Definition translateLevel (level : Z) : option ColorSupportLevel :=
  if (level =? 0)%Z then None
  else Some {| level := level;
               hasBasic := true;
               has256 := (2 <=? level)%Z;
               has16m := (3 <=? level)%Z |}.

(** [s.split(sep)] for a separator of one code unit. *)
Fixpoint split_chars (sep : ascii) (s : list ascii) : list (list ascii) :=
  match s with
  | [] => [[]]
  | c :: s' =>
      if Ascii.eqb c sep then [] :: split_chars sep s'
      else match split_chars sep s' with
           | first :: rest => (c :: first) :: rest
           | [] => [[c]]
           end
  end.

Definition split (s : string) (sep : ascii) : list string :=
  map string_of_list_ascii (split_chars sep (list_ascii_of_string s)).

(** Patterns: a code unit, a word, and the three ways the source anchors a
    test. An alternation at the top of a pattern is the disjunction of the
    tests of its branches. *)
Definition lit (c : ascii) : Regex.regex := Regex.Class [(c, c)].

Definition digit : Regex.regex := Regex.Class [("0"%char, "9"%char)].

Fixpoint literal (c : ascii) (rest : list ascii) : Regex.regex :=
  match rest with
  | [] => lit c
  | d :: rest' => Regex.Seq (lit c) (literal d rest')
  end.

Definition word (s : string) : Regex.regex :=
  match list_ascii_of_string s with
  | c :: rest => literal c rest
  | [] => Regex.Repeat (lit "a"%char) 0 0
  end.

Definition matches_start (ignoreCase : bool) (r : Regex.regex) (s : list ascii) : bool :=
  match Regex.run ignoreCase r s with [] => false | _ :: _ => true end.

(** [/^r/.test(s)] *)
Definition test_start (ignoreCase : bool) (r : Regex.regex) (s : string) : bool :=
  matches_start ignoreCase r (list_ascii_of_string s).

Fixpoint matches_anywhere (ignoreCase : bool) (r : Regex.regex) (s : list ascii) : bool :=
  matches_start ignoreCase r s
  || match s with
     | [] => false
     | _ :: s' => matches_anywhere ignoreCase r s'
     end.

(** [/r/.test(s)] *)
Definition test_anywhere (ignoreCase : bool) (r : Regex.regex) (s : string) : bool :=
  matches_anywhere ignoreCase r (list_ascii_of_string s).

Fixpoint matches_end (ignoreCase : bool) (r : Regex.regex) (s : list ascii) : bool :=
  Regex.matches_all ignoreCase r s
  || match s with
     | [] => false
     | _ :: s' => matches_end ignoreCase r s'
     end.

(** [/r$/.test(s)] *)
Definition test_end (ignoreCase : bool) (r : Regex.regex) (s : string) : bool :=
  matches_end ignoreCase r (list_ascii_of_string s).

(** The test of TEAMCITY_VERSION. The pattern has two branches, both
    anchored at the start: [9\.] then zeros, a digit from 1 to 9, digits
    and a dot (9.1 and later); or two digits or more and a dot. *)
Definition teamcity_with_color (version : string) : bool :=
  test_start false
    (Regex.Seq (lit "9"%char)
       (Regex.Seq (lit "."%char)
          (Regex.Seq (Regex.AtLeast (lit "0"%char) 0)
             (Regex.Seq (Regex.Class [("1"%char, "9"%char)])
                (Regex.Seq (Regex.AtLeast digit 0) (lit "."%char))))))
    version
  || test_start false (Regex.Seq (Regex.AtLeast digit 2) (lit "."%char)) version.

(** [/-256(color)?$/i.test(term)] *)
Definition term_256 (term : string) : bool :=
  test_end true (Regex.Seq (word "-256") (Regex.Repeat (word "color") 0 1)) term.

(** [/^screen|^xterm|^vt100|^vt220|^rxvt|color|ansi|cygwin|linux/i.test(term)] *)
Definition term_basic (term : string) : bool :=
  existsb (fun name => test_start true (word name) term)
          ["screen"; "xterm"; "vt100"; "vt220"; "rxvt"]
  || existsb (fun name => test_anywhere true (word name) term)
             ["color"; "ansi"; "cygwin"; "linux"].

(** [key in env] *)
Definition in_env (h : Host) (key : string) : bool :=
  match env h key with Some _ => true | None => false end.

(** [env.KEY === value] *)
Definition env_is (h : Host) (key value : string) : bool :=
  match env h key with Some v => String.eqb v value | None => false end.

(** [x >= n] for a number that may be NaN. *)
Definition at_least (x : option Z) (n : Z) : bool :=
  match x with Some v => (n <=? v)%Z | None => false end.

Definition supportsColorLevel (h : Host) (stream : option StreamLike)
           (options : SupportsColorOptions) : Z :=
  let streamIsTTY := match streamIsTTY options with Some v => v | None => None end in
  let sniffFlags := nullish_or (sniffFlags options) true in
  let has flag := hasFlag flag (argv h) in
  let envForced := envForceColor h in
  (* Use envForced if defined, otherwise use flagForceColor based on sniffFlags *)
  let forceColor := nullish envForced (if sniffFlags then flagForceColor h else None) in
  if match forceColor with Some 0%Z => true | _ => false end then 0%Z
  else
  match (if sniffFlags then
           if has "color=16m" || has "color=full" || has "color=truecolor" then Some 3%Z
           else if has "color=256" then Some 2%Z
           else None
         else None) with
  | Some byFlag => byFlag
  | None =>
  (* Check for Azure DevOps pipelines - must be before !streamIsTTY check. *)
  if truthy_string (env h "TF_BUILD") && truthy_string (env h "AGENT_NAME") then 1%Z
  else
  (* If the stream doesn't exist or isn't a TTY, and color isn't forced,
     disable colors *)
  if (match stream with None => true | Some _ => false end
      || negb (nullish_or streamIsTTY false))
     && match forceColor with None => true | Some _ => false end
  then 0%Z
  else
  let min := nullish_or forceColor 0%Z in
  if env_is h "TERM" "dumb" then min
  else
  if String.eqb (platform h) "win32" then
    let osRelease := split (release h) "."%char in
    let major := match nth_error osRelease 0 with Some s => Number h s | None => None end in
    let build := match nth_error osRelease 2 with Some s => Number h s | None => None end in
    if at_least major 10 && at_least build 10586 then
      if at_least build 14931 then 3%Z else 2%Z
    else 1%Z
  else
  if truthy_string (env h "CI") then
    if existsb (in_env h) ["GITHUB_ACTIONS"; "GITEA_ACTIONS"; "CIRCLECI"] then 3%Z
    else if existsb (in_env h) ["TRAVIS"; "APPVEYOR"; "GITLAB_CI"; "BUILDKITE"; "DRONE"]
            || env_is h "CI_NAME" "codeship"
    then 1%Z
    else min
  else
  if truthy_string (env h "TEAMCITY_VERSION") then
    if teamcity_with_color (nullish_or (env h "TEAMCITY_VERSION") "") then 1%Z else 0%Z
  else
  if env_is h "COLORTERM" "truecolor" then 3%Z
  else
  if env_is h "TERM" "xterm-kitty" then 3%Z
  else
  match (if truthy_string (env h "TERM_PROGRAM") then
           let versionStr := nullish_or (env h "TERM_PROGRAM_VERSION") "" in
           let version :=
             parseInt10 (nullish_or (nth_error (split versionStr "."%char) 0) "") in
           if env_is h "TERM_PROGRAM" "iTerm.app" then
             Some (if at_least version 3 then 3%Z else 2%Z)
           else if env_is h "TERM_PROGRAM" "Apple_Terminal" then Some 2%Z
           else None (* Fall through to TERM check *)
         else None) with
  | Some byProgram => byProgram
  | None =>
  if truthy_string (env h "TERM") && term_256 (nullish_or (env h "TERM") "") then 2%Z
  else
  if truthy_string (env h "TERM") && term_basic (nullish_or (env h "TERM") "") then 1%Z
  else
  if truthy_string (env h "COLORTERM") then 1%Z
  else min
  end
  end.

Definition createSupportsColor (h : Host) (stream : option StreamLike)
           (options : SupportsColorOptions) : option ColorSupportLevel :=
  let level :=
    supportsColorLevel h stream
      {| streamIsTTY :=
           match streamIsTTY options with
           | Some v => Some v
           | None => Some (match stream with Some s => isTTY s | None => None end)
           end;
         sniffFlags := sniffFlags options |} in
  translateLevel level.

(** [supportsColor]: the support of the standard output and of the standard
    error. *)
Definition supportsColor (h : Host)
  : option ColorSupportLevel * option ColorSupportLevel :=
  (createSupportsColor h (Some {| isTTY := Some (isatty h 1) |})
                       {| streamIsTTY := Some (Some (isatty h 1)); sniffFlags := None |},
   createSupportsColor h (Some {| isTTY := Some (isatty h 2) |})
                       {| streamIsTTY := Some (Some (isatty h 2)); sniffFlags := None |}).

(** ** The vocabulary of the statements about colors *)

(** The arguments before the terminator [--]. *)
Fixpoint before_terminator (argv : list string) : list string :=
  match argv with
  | [] => []
  | a :: rest => if String.eqb a "--" then [] else a :: before_terminator rest
  end.

(** The flags that the module looks for. *)
Definition color_flags : list string :=
  ["no-color"; "no-colors"; "color=false"; "color=never";
   "color"; "colors"; "color=true"; "color=always";
   "color=16m"; "color=full"; "color=truecolor"; "color=256"].

(** A process on Linux with TERM=xterm-256color: its arguments after the
    program, FORCE_COLOR, and whether its output is a terminal. *)
Definition process (args : list string) (force : option string) (tty : bool) : Host :=
  {| argv := "node" :: "vizdiff" :: args;
     env := fun key =>
              if String.eqb key "TERM" then Some "xterm-256color"
              else if String.eqb key "FORCE_COLOR" then force
              else None;
     platform := "linux";
     release := "6.8.0";
     isatty := fun _ => tty;
     Number := parseInt10 |}.

End Color.

(* ===================================================================== *)
(** * The world around one run, and what a run can observe and change *)
(* ===================================================================== *)

(** [COMPRESSION_LEVEL] of zip-a-folder. *)
Inductive CompressionLevel : Type := uncompressed | medium | high.

(** The request [fetch] is given. Headers are kept in the order in which the
    object literal lists them. *)
Record Request := mkRequest {
  method : string;
  headers : list (string * string);
  body : string
}.

(** What the sources read of a [Response]. [content_type] is
    [response.headers.get("content-type")]; [json] is what [response.json()]
    resolves to, or the error it rejects with. *)
Record Response := mkResponse {
  ok : bool;
  status : Z;
  statusText : string;
  content_type : option string;
  json : Js.Error + Json.value
}.

Inductive FetchResult : Type :=
| FetchRejects (e : Js.Error)
| FetchResolves (r : Response).

(** A call of [tar] that does not end with the whole archive written: the
    error, whether the promise rejects with it (what zip-a-folder 3.1.9 does)
    or resolves to it (what its type [Promise<void | Error>] allows and the
    test of line 80 looks for), and what the call has left at the
    destination, if anything. *)
Record TarFailure := mkTarFailure {
  tar_error : Js.Error;
  tar_rejects : bool;
  tar_left : option string
}.

(** Everything a run reads and does not decide: the process and the system,
    the Node, zip-a-folder, undici and simple-git libraries, and the faults
    of the file system. *)
Record World := mkWorld {
  (* process.env *)
  env : string -> option string;
  (* process.argv, process.platform, os.release(), tty.isatty(fd), and
     Number(text) on a component of the release (rounded down; None is NaN) *)
  argv : list string;
  platform : string;
  release : string;
  isatty : nat -> bool;
  to_number : string -> option Z;
  (* os.tmpdir(), path.resolve(a, b), path.join(a, b) *)
  tmpdir : string;
  path_resolve : string -> string -> string;
  path_join : string -> string -> string;
  (* the k-th value of Math.floor(Math.random() * 16) *)
  random16 : nat -> nat;
  (* JSON.parse(text) *)
  JSON_parse : string -> Js.Error + Json.value;
  (* parseInt(text): the integer read, which stands for the number nearest
     to it; None is NaN *)
  parseInt : string -> option Z;
  (* formatBytes(n) of upload-storybook.ts: floating-point arithmetic, used
     for one log line only *)
  formatBytes : nat -> string;
  (* a file the process may not read *)
  unreadable : string -> bool;
  (* tar(src, dest, {compression}): how it fails, or the bytes of the archive
     it writes *)
  zip_tar : string -> string -> CompressionLevel -> TarFailure + string;
  (* fetch(url, request) *)
  fetch : string -> Request -> FetchResult;
  (* fs.unlink(path) refused by the system: the error, the file stays *)
  unlink_fault : string -> option Js.Error;
  (* simple-git, per repository directory *)
  git_log : string -> Js.Error + option string;          (* log.latest?.hash *)
  git_status : string -> Js.Error + option string;       (* status.current *)
  git_getRemotes : string -> Js.Error + list string;     (* the remotes' names *)
  git_revparse : string -> list string -> Js.Error + string;
  git_raw : string -> list string -> Js.Error + string
}.

(** The process that src/supportsColor.ts looks at. *)
Definition host (w : World) : Color.Host :=
  {| Color.argv := argv w;
     Color.env := env w;
     Color.platform := platform w;
     Color.release := release w;
     Color.isatty := isatty w;
     Color.Number := to_number w |}.

(** The observable steps of a run, in the order taken. *)
Inductive Event : Type :=
| EInfo (msg : string)                                   (* console.log *)
| EError (text : string)                                 (* console.error *)
| EExit (code : Z)                                       (* process.exit *)
| EAccess (path : string)                                (* fs.access(path, R_OK) *)
| EReadFile (path : string)                              (* fs.readFile *)
| EExistsSync (path : string)                            (* fs.existsSync *)
| ETar (src dest : string) (level : CompressionLevel)    (* tar *)
| EFetch (url : string) (req : Request)                  (* fetch *)
| EUnlink (path : string)                                (* fs.unlink *)
| EGitLog (dir : string)
| EGitStatus (dir : string)
| EGitRemotes (dir : string)
| EGitRevparse (dir : string) (args : list string)
| EGitRaw (dir : string) (args : list string).

(** The state a run threads: the files that exist, with their contents, and
    the events so far. *)
Record State := mkState {
  files : gmap string string;
  trace : list Event
}.

(** How a computation ends: with a value, with a thrown error (a rejected
    promise), or with the process ended by [process.exit]. *)
Inductive Completion (A : Type) : Type :=
| Normal (a : A)
| Throw (e : Js.Error)
| Exit.

Arguments Normal {A} a.
Arguments Throw {A} e.
Arguments Exit {A}.

Definition M (A : Type) : Type := State -> Completion A * State.

Definition ret {A} (a : A) : M A := fun st => (Normal a, st).

Definition throw {A} (e : Js.Error) : M A := fun st => (Throw e, st).

Definition bind {A B} (m : M A) (k : A -> M B) : M B :=
  fun st =>
    match m st with
    | (Normal a, st') => k a st'
    | (Throw e, st') => (Throw e, st')
    | (Exit, st') => (Exit, st')
    end.

(** [try { body } catch (e) { handler }] *)
Definition try_catch {A} (body : M A) (handler : Js.Error -> M A) : M A :=
  fun st =>
    match body st with
    | (Throw e, st') => handler e st'
    | r => r
    end.

(** [try { body } finally { cleanup }]: the cleanup runs after the body
    however it completed, and an error thrown by the cleanup replaces the
    body's completion. Nothing runs once the process has exited. *)
Definition try_finally {A} (body : M A) (cleanup : M unit) : M A :=
  fun st =>
    match body st with
    | (Exit, st') => (Exit, st')
    | (r, st') =>
        match cleanup st' with
        | (Normal _, st'') => (r, st'')
        | (Throw e, st'') => (Throw e, st'')
        | (Exit, st'') => (Exit, st'')
        end
    end.

Declare Scope js_scope.
Delimit Scope js_scope with js.
Notation "x <- m ;; k" := (bind m (fun x => k))
  (at level 100, m at next level, right associativity) : js_scope.
Notation "m ;;; k" := (bind m (fun _ => k))
  (at level 100, right associativity) : js_scope.
Open Scope js_scope.

(** Append an event to the trace. *)
Definition emit (e : Event) : M unit :=
  fun st => (Normal tt, {| files := files st; trace := trace st ++ [e] |}).

(** A value the world computed, or the error it threw. *)
Definition lift {A} (r : Js.Error + A) : M A :=
  match r with
  | inl e => throw e
  | inr a => ret a
  end.

(** The double quote. *)
Definition dq : string := String (ascii_of_nat 34) EmptyString.

(* ===================================================================== *)
(** * The program *)
(* ===================================================================== *)

Section Pipeline.

Variable w : World.

(** ** File system, compression, network and log *)

Definition get_files : M (gmap string string) :=
  fun st => (Normal (files st), st).

Definition set_files (fs : gmap string string) : M unit :=
  fun st => (Normal tt, {| files := fs; trace := trace st |}).

(** The error of a failed system call, as Node words it. *)
Definition fs_error (code syscall path : string) : Js.Error :=
  Js.new_Error (code +:+ ", " +:+ syscall +:+ " '" +:+ path +:+ "'").

Definition ENOENT : string := "ENOENT: no such file or directory".
Definition EACCES : string := "EACCES: permission denied".

(** [await fs.access(path, fs.constants.R_OK)] *)
Definition fs_access (path : string) : M unit :=
  emit (EAccess path) ;;;
  fs <- get_files ;;
  match fs !! path with
  | None => throw (fs_error ENOENT "access" path)
  | Some _ =>
      if unreadable w path then throw (fs_error EACCES "access" path) else ret tt
  end.

(** [await fs.readFile(path)] and [await fs.readFile(path, "utf8")] *)
Definition fs_readFile (path : string) : M string :=
  emit (EReadFile path) ;;;
  fs <- get_files ;;
  match fs !! path with
  | None => throw (fs_error ENOENT "open" path)
  | Some content =>
      if unreadable w path then throw (fs_error EACCES "open" path) else ret content
  end.

(** [await fs.unlink(path)]: the file is removed, unless the system refuses
    or there is no such file. *)
Definition fs_unlink (path : string) : M unit :=
  emit (EUnlink path) ;;;
  match unlink_fault w path with
  | Some e => throw e
  | None =>
      fs <- get_files ;;
      match fs !! path with
      | None => throw (fs_error ENOENT "unlink" path)
      | Some _ => set_files (delete path fs)
      end
  end.

(** [fs.existsSync(path)]; a directory is a key of [files] as a file is. *)
Definition fs_existsSync (path : string) : M bool :=
  emit (EExistsSync path) ;;;
  fs <- get_files ;;
  ret (match fs !! path with Some _ => true | None => false end).

(** [await tar(src, dest, { compression })]: writes the archive and resolves
    to [undefined]; or fails, leaving at the destination what it had written,
    and rejects with the error or resolves to it. *)
Definition tar (src dest : string) (level : CompressionLevel) : M (option Js.Error) :=
  emit (ETar src dest level) ;;;
  fs <- get_files ;;
  match zip_tar w src dest level with
  | inl failure =>
      set_files (match tar_left failure with
                 | Some part => <[dest := part]> fs
                 | None => fs
                 end) ;;;
      if tar_rejects failure then throw (tar_error failure)
      else ret (Some (tar_error failure))
  | inr bytes =>
      set_files (<[dest := bytes]> fs) ;;;
      ret None
  end.

(** [await fetch(url, request)] *)
Definition do_fetch (url : string) (req : Request) : M Response :=
  emit (EFetch url req) ;;;
  match fetch w url req with
  | FetchRejects e => throw e
  | FetchResolves r => ret r
  end.

(** [console.error(text)] *)
Definition console_error (text : string) : M unit := emit (EError text).

(** [process.exit(code)]: the process ends, and nothing after the call
    runs. *)
Definition process_exit {A} (code : Z) : M A :=
  fun st => (Exit, {| files := files st; trace := trace st ++ [EExit code] |}).

(** ** src/log.ts *)

(** [info(message)]: the message goes to the standard output. *)
Definition info (message : string) : M unit := emit (EInfo message).

(** The escape character, U+001B. *)
Definition esc : string := String (ascii_of_nat 27) EmptyString.

(** [errorPrefix] of [fatal]: in red when the standard error supports
    color. *)
Definition errorPrefix : string :=
  if match snd (Color.supportsColor (host w)) with Some _ => true | None => false end
  then "[" +:+ esc +:+ "[31mERROR" +:+ esc +:+ "[39m] "
  else "[ERROR] ".

(** [fatal(message)]: the message goes to the standard error after the
    prefix, and the process exits with status 1. *)
Definition fatal {A} (message : string) : M A :=
  console_error (errorPrefix +:+ message) ;;; process_exit 1.

(** ** src/upload-storybook.ts *)

Record UploadStorybookOpts := mkOpts {
  storybookDir : string;
  commitSha : string;
  branch : string;
  projectToken : string;
  baseCommitSha : option string;
  baseBranch : option string;
  prNumber : option Z
}.

(** [...(v && { [key]: v })] in an object literal of headers. *)
Definition spread_string (key : string) (v : option string) : list (string * string) :=
  if truthy_string v then [(key, nullish_or v "")] else [].

Definition spread_number (key : string) (v : option Z) : list (string * string) :=
  if truthy_number v then [(key, Js.int_to_string (nullish_or v 0%Z))] else [].

Definition randHexString (len : nat) : string :=
  Js.join (map (fun k => Js.hex_digit (random16 w k)) (seq 0 len)).

(** [baseUrl.replace(/\/+$/, "")] *)
Definition strip_trailing_slashes (s : string) : string :=
  string_of_list_ascii
    (Regex.strip_at_end false (Regex.AtLeast (Regex.Class [("/"%char, "/"%char)]) 1)
                        (list_ascii_of_string s)).

(** The count of stories in a parsed index.json. *)
Definition storyCount (index : Json.value) : nat :=
  match Json.get index "entries" with
  | Some entries =>
      if Json.truthy entries && String.eqb (Json.typeof entries) "object"
      then Json.keys_length entries
      else 0
  | None => 0
  end.

(** The message of a rejected upload: the body's [error] string when the
    response is JSON and has one, the status line otherwise. *)
Definition rejection_message (response : Response) : M string :=
  let errorString :=
    "Failed to upload storybook build folder to vizdiff CDN: " +:+ statusText response
    +:+ " (" +:+ Js.int_to_string (status response) +:+ ")" in
  try_catch
    (if match content_type response with
        | Some ct => Js.includes ct "application/json"
        | None => false
        end
     then
       errorJson <- lift (json response) ;;
       if Json.truthy errorJson
          && String.eqb (Json.typeof errorJson) "object"
          && Json.has "error" errorJson
       then match Json.get errorJson "error" with
            | Some (Json.Str e) => ret e
            | _ => ret errorString
            end
       else ret errorString
     else ret errorString)
    (fun _ => (* ignore JSON parse errors *) ret errorString).

(** The [try] block of [uploadStorybook] (lines 86-141): POST the tarball to
    the vizdiff API and read the answer. *)
Definition postTarball (opts : UploadStorybookOpts) (tarballFilename : string) : M unit :=
  let commitSha := commitSha opts in
  let branch := branch opts in
  let projectToken := projectToken opts in
  let baseCommitSha := baseCommitSha opts in
  let baseBranch := baseBranch opts in
  let prNumber := prNumber opts in
  body <- fs_readFile tarballFilename ;;
  let baseUrl :=
    strip_trailing_slashes
      (nullish_or (env w "VIZDIFF_API_URL") "https://vizdiff.io/api") in
  let url := baseUrl +:+ "/upload/storybook?token=" +:+ projectToken in
  let baseCommitStr :=
    if truthy_string baseCommitSha || truthy_string baseBranch
    then "base commit " +:+ nullish_or baseCommitSha "" +:+ " on branch "
         +:+ dq +:+ nullish_or baseBranch "" +:+ dq
    else "no base commit" in
  let pullRequestStr :=
    if truthy_number prNumber
    then " pull request #" +:+ Js.int_to_string (nullish_or prNumber 0%Z)
    else "" in
  info ("Uploading " +:+ formatBytes w (String.length body) +:+ " for commit "
        +:+ commitSha +:+ " on branch " +:+ dq +:+ branch +:+ dq
        +:+ " (" +:+ baseCommitStr +:+ ")" +:+ pullRequestStr +:+ " to "
        +:+ (if Js.includes baseUrl "//vizdiff.io" then "vizdiff.io" else baseUrl)) ;;;
  body' <- fs_readFile tarballFilename ;;
  response <- do_fetch url
    {| method := "POST";
       headers :=
         [("Content-Type", "application/gzip");
          ("X-Vizdiff-Commit-Sha", commitSha);
          ("X-Vizdiff-Branch", branch)]
         ++ spread_string "X-Vizdiff-Base-Commit-Sha" baseCommitSha
         ++ spread_string "X-Vizdiff-Base-Branch" baseBranch
         ++ spread_number "X-Vizdiff-PR-Number" prNumber;
       body := body' |} ;;
  if negb (ok response) then
    errorString <- rejection_message response ;;
    throw {| Js.name := "Error"; Js.message := errorString;
             Js.statusCode := Some (status response) |}
  else
    res <- lift (json response) ;;
    match res with
    | Json.Null =>
        throw {| Js.name := "TypeError";
                 Js.message := "Cannot read properties of null (reading 'success')";
                 Js.statusCode := None |}
    | _ =>
        if negb (match Json.get res "success" with
                 | Some v => Json.truthy v
                 | None => false
                 end)
        then
          throw (Js.new_Error
            ("Failed to upload storybook build folder to vizdiff CDN: "
             +:+ match Json.get res "error" with
                 | None | Some Json.Null => "Unknown error"
                 | Some v => Json.to_string v
                 end))
        else
          info ("Uploaded storybook build folder, testId="
                +:+ Json.show (Json.get res "testId")
                +:+ ", uploadId=" +:+ Json.show (Json.get res "uploadId"))
    end.

(** The [finally] block of [uploadStorybook] (lines 143-145): delete the
    tarball regardless of success or failure. *)
Definition deleteTarball (tarballFilename : string) : M unit :=
  fs_unlink tarballFilename ;;;
  info ("Deleted storybook tarball: " +:+ tarballFilename).

(** The name of the temporary archive. *)
Definition tarballName : string :=
  path_join w (tmpdir w) (randHexString 8 +:+ ".tar.gz").

(** Packages a storybook build folder and uploads it to the vizdiff CDN. *)
Definition uploadStorybook (opts : UploadStorybookOpts) : M unit :=
  let storybookDir := storybookDir opts in
  let commitSha := commitSha opts in
  let branch := branch opts in
  (* Sanity check input params *)
  if negb (isValidGitCommitHash commitSha) then
    throw (Js.new_Error ("Invalid commit SHA: " +:+ dq +:+ commitSha +:+ dq))
  else if String.eqb branch "" || (255 <? String.length branch) then
    throw (Js.new_Error ("Invalid branch name: " +:+ dq +:+ branch +:+ dq))
  else
  (* Check that the storybook build manifest exists *)
  let projectJsonPath := path_resolve w storybookDir "project.json" in
  try_catch (fs_access projectJsonPath)
    (fun _ => throw (Js.new_Error
       ("Storybook build manifest does not exist: " +:+ projectJsonPath))) ;;;
  (* Read and parse the build manifest *)
  project <- try_catch
    (json <- fs_readFile projectJsonPath ;; lift (JSON_parse w json))
    (fun error => throw (Js.new_Error
       ("Failed to parse project.json file: " +:+ Js.Error_toString error))) ;;
  (* Check that the build manifest is valid *)
  if negb (Json.truthy project)
     || negb (match Json.get project "storybookVersion" with
              | Some (Json.Str _) => true
              | _ => false
              end)
  then throw (Js.new_Error ("Invalid project.json file: " +:+ projectJsonPath))
  else
  (* Read and parse the index.json file *)
  let indexJsonPath := path_resolve w storybookDir "index.json" in
  index <- try_catch
    (json <- fs_readFile indexJsonPath ;; lift (JSON_parse w json))
    (fun error => throw (Js.new_Error
       ("Failed to parse index.json file: " +:+ Js.Error_toString error))) ;;
  (* Count the number of stories in the index.json file *)
  let storyCount := storyCount index in
  if storyCount =? 0 then
    throw (Js.new_Error ("No stories found in index.json file: " +:+ indexJsonPath))
  else
  info ("Found " +:+ Js.int_to_string (Z.of_nat storyCount) +:+ " "
        +:+ (if storyCount =? 1 then "story" else "stories")) ;;;
  (* Create a tarball of the storybook build folder *)
  let tarballFilename := tarballName in
  error <- tar storybookDir tarballFilename medium ;;
  match error with
  | Some e =>
      throw (Js.new_Error
        ("Failed to tar+gzip storybook build folder: " +:+ Js.Error_toString e))
  | None =>
      info ("Created storybook tarball: " +:+ tarballFilename) ;;;
      try_finally (postTarball opts tarballFilename) (deleteTarball tarballFilename)
  end.

(** ** src/bin/vizdiff.ts *)

Inductive string_or_number : Type :=
| IsString (s : string)
| IsNumber (n : Z).

Record CommandArgs := mkArgs {
  token : option string;
  commit : option string;
  branch_arg : option string;      (* options.branch *)
  baseBranch_arg : option string;  (* options.baseBranch *)
  baseCommit : option string;
  pr : option string_or_number
}.

Definition is_slash (c : ascii) : bool := Ascii.eqb c "/"%char.

Fixpoint drop_while (f : ascii -> bool) (l : list ascii) : list ascii :=
  match l with
  | c :: l' => if f c then drop_while f l' else l
  | [] => []
  end.

(** [path.dirname(path)] of Node, POSIX flavour. The loop of the library
    scans from the last code unit down to the second: it skips the slashes at
    the end, then the last name, and stops at the slash before it. *)
Definition dirname_chars (path : list ascii) : list ascii :=
  match path with
  | [] => ["."%char]
  | c0 :: rest =>
      let hasRoot := is_slash c0 in
      let before_name :=
        drop_while (fun c => negb (is_slash c)) (drop_while is_slash (rev rest)) in
      match before_name with
      | [] => if hasRoot then ["/"%char] else ["."%char]
      | _ :: kept =>
          if hasRoot && Regex.is_nil kept then ["/"%char; "/"%char]
          else c0 :: rev kept
      end
  end.

Definition dirname (path : string) : string :=
  string_of_list_ascii (dirname_chars (list_ascii_of_string path)).

(** Search for the first parent directory that contains a [.git] folder.
    The source recurses on [path.dirname(dir)] until it reaches a directory
    that is its own parent; [fuel] bounds the depth, and [None] is a search
    that ran out of it. *)
Fixpoint findGitRoot_fuel (fuel : nat) (dir : string) : M (option (option string)) :=
  match fuel with
  | 0 => ret None
  | S fuel' =>
      let gitPath := path_join w dir ".git" in
      found <- fs_existsSync gitPath ;;
      if found then ret (Some (Some dir))
      else
        let parentDir := dirname dir in
        if String.eqb parentDir dir then
          (* Reached the root directory *)
          ret (Some None)
        else findGitRoot_fuel fuel' parentDir
  end.

(** Every step but the last shortens the directory, or reaches ["."]. *)
Definition findGitRoot_depth (dir : string) : nat := String.length dir + 2.

Definition findGitRoot (dir : string) : M (option string) :=
  r <- findGitRoot_fuel (findGitRoot_depth dir) dir ;;
  ret (match r with Some found => found | None => None end).

(** [await git.log()] and the other queries of simple-git: the answer of
    the library, or the error it rejects with. *)
Definition git_do {A} (e : Event) (r : Js.Error + A) : M A := emit e ;;; lift r.

Definition getToken (options : CommandArgs) : M string :=
  let token :=
    nullish (nullish (token options) (env w "VIZDIFF_PROJECT_TOKEN"))
            (env w "VIZDIFF_TOKEN") in
  (if negb (truthy_string token) then
     fatal ("Missing project token. Please set the VIZDIFF_PROJECT_TOKEN "
            +:+ "environment variable or use the --token option.")
   else ret tt) ;;;
  (if negb (checkToken (nullish_or token "")) then
     fatal "Invalid project token. Please check that the token is correct."
   else ret tt) ;;;
  ret (nullish_or token "").

Definition no_repository : Js.Error :=
  Js.new_Error "Could not find a git repository for the storybook directory.".

Definition getCommitSha (storybookDir : string) (options : CommandArgs) : M string :=
  if truthy_string (commit options) then ret (nullish_or (commit options) "")
  else
    gitDir <- findGitRoot storybookDir ;;
    if negb (truthy_string gitDir) then throw no_repository
    else
      let git := nullish_or gitDir "" in
      latest <- git_do (EGitLog git) (git_log w git) ;;
      match latest with
      | None => throw (Js.new_Error "Could not find the latest commit in the git log")
      | Some hash => ret hash
      end.

Definition getBranch (storybookDir : string) (options : CommandArgs) : M string :=
  if truthy_string (branch_arg options) then ret (nullish_or (branch_arg options) "")
  else
    gitDir <- findGitRoot storybookDir ;;
    if negb (truthy_string gitDir) then throw no_repository
    else
      let git := nullish_or gitDir "" in
      current <- git_do (EGitStatus git) (git_status w git) ;;
      if negb (truthy_string current) then
        throw (Js.new_Error "Could not find the current branch in the git status")
      else ret (nullish_or current "").

(** Returns the base commit SHA and base branch name for the given commit and
    branch. If the base commit SHA is not found, it returns
    [(undefined, undefined)]. *)
Definition getBaseCommitShaAndBranch (storybookDir commitSha branch : string)
           (baseBranch : option string) : M (option string * option string) :=
  gitDir <- findGitRoot storybookDir ;;
  if negb (truthy_string gitDir) then ret (None, None)
  else
    let git := nullish_or gitDir "" in
    latest <- git_do (EGitLog git) (git_log w git) ;;
    match latest with
    | None => ret (None, None)
    | Some _ =>
        (* Get the default branch (usually main or master) *)
        remotes <- git_do (EGitRemotes git) (git_getRemotes w git) ;;
        match find (String.eqb "origin") remotes with
        | None => ret (None, None)
        | Some defaultRemote =>
            (* Get the default branch name *)
            let args := ["--abbrev-ref"; defaultRemote +:+ "/HEAD"] in
            defaultBranch <- git_do (EGitRevparse git args) (git_revparse w git args) ;;
            let actualBaseBranch :=
              if truthy_string baseBranch then nullish_or baseBranch ""
              else Js.replace defaultBranch "origin/" "" in
            if String.eqb branch actualBaseBranch then
              (* If we're on the default branch, use the previous commit as the
                 base commit *)
              let args := [commitSha +:+ "~1"] in
              baseCommit <- git_do (EGitRevparse git args) (git_revparse w git args) ;;
              ret (Some baseCommit, Some actualBaseBranch)
            else
              (* Find merge base between current branch and default branch *)
              let args := ["merge-base"; branch; actualBaseBranch] in
              try_catch
                (mergeBase <- git_do (EGitRaw git args) (git_raw w git args) ;;
                 ret (Some (Js.trim mergeBase), Some actualBaseBranch))
                (fun err => throw (Js.new_Error
                   ("Failed to find merge base between " +:+ dq +:+ branch +:+ dq
                    +:+ " and " +:+ dq +:+ actualBaseBranch +:+ dq +:+ ": "
                    +:+ Js.Error_toString err)))
        end
    end.

(** Returns the pull request number if it is a valid number, otherwise
    [undefined]. *)
Definition getPrNumber (options : CommandArgs) : option Z :=
  let prNumber :=
    match pr options with
    | Some (IsString s) => if String.eqb s "" then None else parseInt w s
    | Some (IsNumber n) => if Z.eqb n 0 then None else parseInt w (Js.int_to_string n)
    | None => None
    end in
  match prNumber with
  | None => None
  | Some n => if (n <? 1)%Z then None else Some n
  end.

Definition vizdiff (storybookDir : string) (options : CommandArgs) : M unit :=
  projectToken <- getToken options ;;
  commitSha <- getCommitSha storybookDir options ;;
  branch <- getBranch storybookDir options ;;
  base <- (if truthy_string (baseCommit options) && truthy_string (baseBranch_arg options)
           then ret (baseCommit options, baseBranch_arg options)
           else getBaseCommitShaAndBranch storybookDir commitSha branch
                                          (baseBranch_arg options)) ;;
  let prNumber := getPrNumber options in
  try_catch
    (uploadStorybook
       {| storybookDir := storybookDir;
          commitSha := commitSha;
          branch := branch;
          projectToken := projectToken;
          baseCommitSha := fst base;
          baseBranch := snd base;
          prNumber := prNumber |})
    (fun err =>
       let statusCode := Js.statusCode err in
       let errMessage := Js.message err in
       match statusCode with
       | Some 401%Z =>
           fatal "Invalid project token. Please check that the token is correct."
       | Some 402%Z => fatal errMessage
       | _ =>
           if String.eqb errMessage "fetch failed" then fatal "Storybook upload failed"
           else fatal ("Storybook upload failed: " +:+ errMessage)
       end).

(** The action of the [upload] command in [main] (lines 38-40):
    [vizdiff(storybookDir, options).catch(fatal)]. A rejection of [vizdiff]
    is given to [fatal], which prints it as [`${err}`]. *)
Definition upload_action (storybookDir : string) (options : CommandArgs) : M unit :=
  try_catch (vizdiff storybookDir options) (fun err => fatal (Js.Error_toString err)).

End Pipeline.

(** A run from a fresh trace: how it completed, the files left, the events. *)
Definition exec {A} (m : M A) (fs : gmap string string)
  : Completion A * gmap string string * list Event :=
  let r := m {| files := fs; trace := [] |} in
  (fst r, files (snd r), trace (snd r)).

(* ===================================================================== *)
(** * A concrete build directory, service and repository

    The fixtures of src/upload-storybook.test.ts: a build of two stories in
    [/path/to/storybook], a service that accepts the upload, and a repository
    on a feature branch. *)
(* ===================================================================== *)

Module Fixture.

Definition quoted (s : string) : string := dq +:+ s +:+ dq.

Definition project_text : string :=
  "{" +:+ quoted "storybookVersion" +:+ ":" +:+ quoted "7.0.0" +:+ "}".

Definition index_text : string :=
  "{" +:+ quoted "v" +:+ ":5," +:+ quoted "entries" +:+ ":{"
  +:+ quoted "story-1" +:+ ":{}," +:+ quoted "story-2" +:+ ":{}}}".

Definition project_json : Json.value :=
  Json.Obj [("storybookVersion", Json.Str "7.0.0")].

Definition index_json : Json.value :=
  Json.Obj [("v", Json.Num "5");
            ("entries", Json.Obj [("story-1", Json.Obj []); ("story-2", Json.Obj [])])].

Definition SyntaxError : Js.Error :=
  {| Js.name := "SyntaxError"; Js.message := "Unexpected token"; Js.statusCode := None |}.

(** An index without stories. *)
Definition index_empty_text : string :=
  "{" +:+ quoted "v" +:+ ":5," +:+ quoted "entries" +:+ ":{}}".

Definition index_empty_json : Json.value :=
  Json.Obj [("v", Json.Num "5"); ("entries", Json.Obj [])].

(** [JSON.parse] on the documents of the fixture. *)
Definition parse (text : string) : Js.Error + Json.value :=
  if String.eqb text project_text then inr project_json
  else if String.eqb text index_text then inr index_json
  else if String.eqb text index_empty_text then inr index_empty_json
  else inl SyntaxError.

Definition accepted : Response :=
  {| ok := true; status := 200; statusText := "OK";
     content_type := Some "application/json";
     json := inr (Json.Obj [("success", Json.Bool true);
                            ("testId", Json.Str "test-123");
                            ("uploadId", Json.Str "upload-456")]) |}.

Definition forbidden : Response :=
  {| ok := false; status := 403; statusText := "Forbidden";
     content_type := None;
     json := inl SyntaxError |}.

Definition refused : Response :=
  {| ok := true; status := 200; statusText := "OK";
     content_type := Some "application/json";
     json := inr (Json.Obj [("success", Json.Bool false);
                            ("error", Json.Str "Invalid project token")]) |}.

Definition git_error (msg : string) : Js.Error :=
  {| Js.name := "GitError"; Js.message := msg; Js.statusCode := None |}.

Definition sha_a : string := "aaaaaaaaaaaaaaaaaaaaaaaaaaaaaaaaaaaaaaaa".
Definition sha_b : string := "bbbbbbbbbbbbbbbbbbbbbbbbbbbbbbbbbbbbbbbb".
Definition sha_c : string := "cccccccccccccccccccccccccccccccccccccccc".

(** The repository at [/path/to]: HEAD is [sha_a] on [feature]; the default
    branch of [origin] is [main]; the parent of [sha_a] is [sha_b] and the
    merge base of [feature] and [main] is [sha_c]. The branch [orphan] shares
    no commit with [main]. *)
Definition revparse (dir : string) (args : list string) : Js.Error + string :=
  match args with
  | [a; b] =>
      if String.eqb a "--abbrev-ref" && String.eqb b "origin/HEAD" then inr "origin/main"
      else inl (git_error "unknown revision")
  | [a] =>
      if String.eqb a (sha_a +:+ "~1") then inr sha_b
      else inl (git_error "unknown revision")
  | _ => inl (git_error "unknown revision")
  end.

(** [git merge-base a b] through simple-git. For two branches without a
    common commit git prints nothing and exits with status 1, which
    simple-git 3.27.0 does not take for an error (an error is a status other
    than 0 together with output on the standard error): [git.raw] resolves
    to the empty string. For a name that is no branch git writes to the
    standard error and [git.raw] rejects. *)
Definition raw (dir : string) (args : list string) : Js.Error + string :=
  match args with
  | [cmd; a; b] =>
      if String.eqb cmd "merge-base" && String.eqb a "feature" && String.eqb b "main"
      then inr (sha_c +:+ String (ascii_of_nat 10) EmptyString)
      else if String.eqb cmd "merge-base" && String.eqb a "orphan" && String.eqb b "main"
      then inr ""
      else inl (git_error ("fatal: Not a valid object name " +:+ a))
  | _ => inl (git_error "unknown command")
  end.

(** A process whose standard error is no terminal, on Linux. *)
Definition world (response : FetchResult) (fault : option Js.Error) : World :=
  {| env := fun _ => None;
     argv := ["node"; "vizdiff"; "upload"; "/path/to/storybook"];
     platform := "linux";
     release := "6.8.0";
     isatty := fun _ => false;
     to_number := Color.parseInt10;
     tmpdir := "/tmp";
     path_resolve := fun a b => a +:+ "/" +:+ b;
     path_join := fun a b => a +:+ "/" +:+ b;
     random16 := fun k => k;
     JSON_parse := parse;
     parseInt := fun _ => None;
     formatBytes := fun n => Js.int_to_string (Z.of_nat n) +:+ " Bytes";
     unreadable := fun _ => false;
     zip_tar := fun _ _ _ => inr "mock tarball content";
     fetch := fun _ _ => response;
     unlink_fault := fun _ => fault;
     git_log := fun _ => inr (Some sha_a);
     git_status := fun _ => inr (Some "feature");
     git_getRemotes := fun _ => inr ["origin"];
     git_revparse := revparse;
     git_raw := raw |}.

Definition build : gmap string string :=
  <["/path/to/storybook/project.json" := project_text]>
    (<["/path/to/storybook/index.json" := index_text]>
       (<["/path/to/.git" := ""]> ∅)).

(** The build with the index without stories. *)
Definition build_no_stories : gmap string string :=
  <["/path/to/storybook/index.json" := index_empty_text]> build.

(** The command line with a token and both base options. *)
Definition explicitBase : CommandArgs :=
  {| token := Some "0123456789abcdef";
     commit := None;
     branch_arg := None;
     baseBranch_arg := Some "develop";
     baseCommit := Some sha_b;
     pr := None |}.

Definition validOpts : UploadStorybookOpts :=
  {| storybookDir := "/path/to/storybook";
     commitSha := sha_a;
     branch := "main";
     projectToken := "test-token";
     baseCommitSha := Some sha_b;
     baseBranch := Some "develop";
     prNumber := None |}.

Definition EPERM : Js.Error :=
  {| Js.name := "Error"; Js.message := "EPERM: operation not permitted, unlink";
     Js.statusCode := None |}.

Definition tarball : string := "/tmp/01234567.tar.gz".

(** The options with a base commit and no base branch. *)
Definition baseCommitOnly : UploadStorybookOpts :=
  {| storybookDir := "/path/to/storybook";
     commitSha := sha_a;
     branch := "main";
     projectToken := "test-token";
     baseCommitSha := Some sha_b;
     baseBranch := None;
     prNumber := None |}.

(** The request [uploadStorybook] submits for them. *)
Definition baseCommitOnly_request : Request :=
  {| method := "POST";
     headers := [("Content-Type", "application/gzip");
                 ("X-Vizdiff-Commit-Sha", sha_a);
                 ("X-Vizdiff-Branch", "main");
                 ("X-Vizdiff-Base-Commit-Sha", sha_b)];
     body := "mock tarball content" |}.

Definition upload_url : string :=
  "https://vizdiff.io/api/upload/storybook?token=test-token".

End Fixture.

(* ===================================================================== *)
(** * The vocabulary of the statements *)
(* ===================================================================== *)

(** A lowercase hexadecimal digit: [0-9] or [a-f]. *)
Definition lower_hex (c : ascii) : bool :=
  ((48 <=? Js.code c) && (Js.code c <=? 57)) || ((97 <=? Js.code c) && (Js.code c <=? 102)).

(** A hexadecimal digit of either case. *)
Definition any_hex (c : ascii) : bool :=
  lower_hex c || ((65 <=? Js.code c) && (Js.code c <=? 70)).

(** The branch name passes the check of [uploadStorybook]. *)
Definition valid_branch (b : string) : bool :=
  negb (String.eqb b "" || (255 <? String.length b)).

(** [p] exists with content [text] and may be read. *)
Definition readable_text (w : World) (fs : gmap string string) (p text : string) : Prop :=
  fs !! p = Some text /\ unreadable w p = false.

(** The build directory holds a readable project.json that parses to a
    truthy value with a string [storybookVersion], and a readable index.json
    that parses to [index]. *)
Definition manifest_valid (w : World) (dir : string) (fs : gmap string string)
           (index : Json.value) : Prop :=
  exists ptext project version itext,
    readable_text w fs (path_resolve w dir "project.json") ptext
    /\ JSON_parse w ptext = inr project
    /\ Json.truthy project = true
    /\ Json.get project "storybookVersion" = Some (Json.Str version)
    /\ readable_text w fs (path_resolve w dir "index.json") itext
    /\ JSON_parse w itext = inr index.

(** The events of a run up to and with the call of [tar]. *)
Definition packaging_events (w : World) (opts : UploadStorybookOpts) (index : Json.value)
  : list Event :=
  [EAccess (path_resolve w (storybookDir opts) "project.json");
   EReadFile (path_resolve w (storybookDir opts) "project.json");
   EReadFile (path_resolve w (storybookDir opts) "index.json");
   EInfo ("Found " +:+ Js.int_to_string (Z.of_nat (storyCount index)) +:+ " "
          +:+ (if storyCount index =? 1 then "story" else "stories"));
   ETar (storybookDir opts) (tarballName w) medium].

(** Any event but a call of [fs.unlink]. *)
Definition not_unlink (e : Event) : Prop :=
  match e with EUnlink _ => False | _ => True end.

(** The paths given to [fs.unlink], in order. *)
Fixpoint unlinked (evs : list Event) : list string :=
  match evs with
  | EUnlink p :: rest => p :: unlinked rest
  | _ :: rest => unlinked rest
  | [] => []
  end.

(** The world [w] with other faults of [fs.unlink]. *)
Definition with_unlink_fault (w : World) (fault : string -> option Js.Error) : World :=
  {| env := env w; argv := argv w; platform := platform w; release := release w;
     isatty := isatty w; to_number := to_number w;
     tmpdir := tmpdir w; path_resolve := path_resolve w;
     path_join := path_join w; random16 := random16 w; JSON_parse := JSON_parse w;
     parseInt := parseInt w; formatBytes := formatBytes w; unreadable := unreadable w;
     zip_tar := zip_tar w; fetch := fetch w; unlink_fault := fault;
     git_log := git_log w; git_status := git_status w;
     git_getRemotes := git_getRemotes w; git_revparse := git_revparse w;
     git_raw := git_raw w |}.

(** The value of the header [name] in a request. *)
Definition header_of (name : string) (hs : list (string * string)) : option string :=
  match find (fun kv => String.eqb (fst kv) name) hs with
  | Some kv => Some (snd kv)
  | None => None
  end.

(** What a request of [uploadStorybook] carries of the options: the commit
    and the branch always, each base header exactly when its own option is a
    non-empty string. *)
Definition carries (opts : UploadStorybookOpts) (e : Event) : Prop :=
  match e with
  | EFetch _ req =>
      header_of "X-Vizdiff-Commit-Sha" (headers req) = Some (commitSha opts)
      /\ header_of "X-Vizdiff-Branch" (headers req) = Some (branch opts)
      /\ header_of "X-Vizdiff-Base-Commit-Sha" (headers req)
         = (if truthy_string (baseCommitSha opts) then baseCommitSha opts else None)
      /\ header_of "X-Vizdiff-Base-Branch" (headers req)
         = (if truthy_string (baseBranch opts) then baseBranch opts else None)
  | _ => True
  end.

(** [entries] is a mapping (an object, or an array and its indices) with at
    least one key. *)
Definition has_keys (entries : Json.value) : Prop :=
  match entries with
  | Json.Obj fields => fields <> []
  | Json.Arr items => items <> []
  | _ => False
  end.

(** A look for a [.git] folder. *)
Definition repository_event (e : Event) : Prop :=
  match e with EExistsSync _ => True | _ => False end.

(** The repository was found at [gitDir], which has commits and a remote
    named origin whose default branch resolves to [defaultBranch]. *)
Definition base_resolvable (w : World) (dir : string) (fs : gmap string string)
           (gitDir defaultBranch : string) : Prop :=
  fst (fst (exec (findGitRoot w dir) fs)) = Normal (Some gitDir)
  /\ gitDir <> ""
  /\ (exists latest, git_log w gitDir = inr (Some latest))
  /\ (exists remotes, git_getRemotes w gitDir = inr remotes /\ In "origin" remotes)
  /\ git_revparse w gitDir ["--abbrev-ref"; "origin/HEAD"] = inr defaultBranch.

(** [actualBaseBranch] of [getBaseCommitShaAndBranch], the base branch that
    resolution settles on: the override when it is a non-empty string, else
    the default branch of the remote without its [origin/] prefix. *)
Definition resolved_base_branch (baseBranch : option string) (defaultBranch : string) : string :=
  match baseBranch with
  | Some b => if String.eqb b "" then Js.replace defaultBranch "origin/" "" else b
  | None => Js.replace defaultBranch "origin/" ""
  end.

(** The immediate parent of a commit: what git resolves the revision
    [sha~1] to. *)
Definition parent_of (w : World) (gitDir sha : string) : Js.Error + string :=
  git_revparse w gitDir [sha +:+ "~1"].

(** The common ancestor of two branches: what [git merge-base a b] prints. *)
Definition merge_base_of (w : World) (gitDir a b : string) : Js.Error + string :=
  git_raw w gitDir ["merge-base"; a; b].

(** An event that only base resolution could explain: a query for the
    remotes, a revision or a merge base at any time, a look at the log when
    the commit was given, a look at the status when the branch was given, a
    search for the repository when both were. *)
Definition base_query (options : CommandArgs) (e : Event) : Prop :=
  match e with
  | EGitRemotes _ | EGitRevparse _ _ | EGitRaw _ _ => True
  | EGitLog _ => truthy_string (commit options) = true
  | EGitStatus _ => truthy_string (branch_arg options) = true
  | EExistsSync _ =>
      truthy_string (commit options) = true /\ truthy_string (branch_arg options) = true
  | _ => False
  end.

(** A step of [uploadStorybook]. *)
Definition upload_step (e : Event) : Prop :=
  match e with
  | EInfo _ | EAccess _ | EReadFile _ | ETar _ _ _ | EFetch _ _ | EUnlink _ => True
  | _ => False
  end.

(** How far a directory is from one that is its own parent, at most. *)
Definition rank (dir : string) : nat :=
  if String.eqb (dirname dir) dir then 0 else S (String.length dir).

(* ===================================================================== *)
(** * More vocabulary: the exchange with the service, the repository *)
(* ===================================================================== *)

(** The requests given to [fetch], in order. *)
Fixpoint fetched (evs : list Event) : list (string * Request) :=
  match evs with
  | EFetch url req :: rest => (url, req) :: fetched rest
  | _ :: rest => fetched rest
  | [] => []
  end.

(** The service accepted the upload: a success status and a body whose
    [success] is truthy. *)
Definition accepts (answer : FetchResult) : bool :=
  match answer with
  | FetchResolves r =>
      ok r && match json r with
              | inr res => match Json.get res "success" with
                           | Some v => Json.truthy v
                           | None => false
                           end
              | inl _ => false
              end
  | FetchRejects _ => false
  end.

(** The [error] string of a response whose content type says JSON and whose
    body is an object with such a string. *)
Definition body_error (r : Response) : option string :=
  match content_type r, json r with
  | Some ct, inr body =>
      if Js.includes ct "application/json"
      then match Json.get body "error" with
           | Some (Json.Str s) => Some s
           | _ => None
           end
      else None
  | _, _ => None
  end.

(** How the [try] block of [uploadStorybook] ends, by what [fetch] gave
    (lines 112-141). *)
Definition ends_as (answer : FetchResult) (o : Completion unit) : Prop :=
  match answer with
  | FetchRejects e => o = Throw e
  | FetchResolves r =>
      if ok r then
        match json r with
        | inl e => o = Throw e
        | inr res =>
            if accepts (FetchResolves r)
            then o = Normal tt
            else match res with
                 | Json.Null =>
                     o = Throw {| Js.name := "TypeError";
                                  Js.message :=
                                    "Cannot read properties of null (reading 'success')";
                                  Js.statusCode := None |}
                 | _ =>
                     o = Throw (Js.new_Error
                       ("Failed to upload storybook build folder to vizdiff CDN: "
                        +:+ match Json.get res "error" with
                            | None | Some Json.Null => "Unknown error"
                            | Some v => Json.to_string v
                            end))
                 end
        end
      else
        o = Throw {| Js.name := "Error";
                     Js.message :=
                       nullish_or (body_error r)
                         ("Failed to upload storybook build folder to vizdiff CDN: "
                          +:+ statusText r +:+ " ("
                          +:+ Js.int_to_string (status r) +:+ ")");
                     Js.statusCode := Some (status r) |}
  end.

(** A step of the checks before packaging: a look at a manifest. *)
Definition check_step (e : Event) : Prop :=
  match e with EAccess _ | EReadFile _ => True | _ => False end.

(** What a request of [uploadStorybook] is: a POST of the archive as gzip to
    the upload address of the service, with the number of the pull request
    when there is one. *)
Definition upload_request (w : World) (opts : UploadStorybookOpts) (bytes url : string)
           (req : Request) : Prop :=
  url = strip_trailing_slashes (nullish_or (env w "VIZDIFF_API_URL") "https://vizdiff.io/api")
        +:+ "/upload/storybook?token=" +:+ projectToken opts
  /\ method req = "POST"
  /\ body req = bytes
  /\ header_of "Content-Type" (headers req) = Some "application/gzip"
  /\ header_of "X-Vizdiff-PR-Number" (headers req)
     = (if truthy_number (prNumber opts)
        then Some (Js.int_to_string (nullish_or (prNumber opts) 0%Z)) else None).


(** The [n]-th parent of a directory: [path.dirname] applied [n] times. *)
Fixpoint nth_parent (n : nat) (dir : string) : string :=
  match n with
  | 0 => dir
  | S n' => nth_parent n' (dirname dir)
  end.

(** The directory holds a [.git] entry. *)
Definition has_git (w : World) (fs : gmap string string) (dir : string) : bool :=
  match fs !! path_join w dir ".git" with Some _ => true | None => false end.

(** A step of the resolution of the metadata: a look for a repository, a
    query of git. *)
Definition metadata_step (e : Event) : Prop :=
  match e with
  | EExistsSync _ | EGitLog _ | EGitStatus _ | EGitRemotes _
  | EGitRevparse _ _ | EGitRaw _ _ => True
  | _ => False
  end.

(** Any event but a line on the standard error and the end of the
    process. *)
Definition quiet (e : Event) : Prop :=
  match e with EError _ | EExit _ => False | _ => True end.

(** The state of a run that has only resolved metadata so far: the files are
    those of the start. *)
Definition only_metadata (fs : gmap string string) (st : State) : Prop :=
  files st = fs /\ Forall metadata_step (trace st).

(** A query that only the comparison of the branches asks: a revision, or a
    merge base. *)
Definition branch_query (e : Event) : Prop :=
  match e with EGitRevparse _ _ | EGitRaw _ _ => True | _ => False end.

(** There is nothing to resolve a base from, by what the search and the
    library answer: no repository above the directory, a log that
    [git.log()] resolves without a latest entry, or remotes that
    [git.getRemotes()] resolves without one named origin. A query that
    rejects is none of these. *)
Definition no_base (w : World) (dir : string) (fs : gmap string string) : Prop :=
  match fst (fst (exec (findGitRoot w dir) fs)) with
  | Normal (Some gitDir) =>
      gitDir = ""
      \/ git_log w gitDir = inr None
      \/ exists latest remotes,
           git_log w gitDir = inr (Some latest)
           /\ git_getRemotes w gitDir = inr remotes
           /\ ~ In "origin" remotes
  | Normal None => True
  | _ => False
  end.

(** ** More of the fixture: builds with a broken manifest, a compression
    library that fails, a command line with every option. *)

Module Scenario.

Definition project_path : string := "/path/to/storybook/project.json".
Definition index_path : string := "/path/to/storybook/index.json".

(** project.json is no JSON document. *)
Definition bad_project : gmap string string :=
  <[project_path := "not json"]> Fixture.build.

(** project.json is a document without [storybookVersion]. *)
Definition no_version : gmap string string :=
  <[project_path := Fixture.index_text]> Fixture.build.

(** index.json is missing. *)
Definition no_index : gmap string string := delete index_path Fixture.build.

Definition disk_full : Js.Error :=
  {| Js.name := "Error"; Js.message := "ENOSPC: no space left on device, write";
     Js.statusCode := None |}.

(** [tar] rejects when the disk is full, with a part of the archive
    written. *)
Definition tar_rejecting : TarFailure :=
  {| tar_error := disk_full; tar_rejects := true; tar_left := Some "mock tar" |}.

(** [tar] resolves to an error, as the mock of the test does. *)
Definition tar_resolving : TarFailure :=
  {| tar_error := Js.new_Error "Compression failed"; tar_rejects := false;
     tar_left := None |}.

(** The world of the fixture, with the result of [tar] and with [parseInt]
    on the number of a pull request. *)
Definition world (zip : TarFailure + string) (response : FetchResult) : World :=
  let w := Fixture.world response None in
  {| env := env w; argv := argv w; platform := platform w; release := release w;
     isatty := isatty w; to_number := to_number w;
     tmpdir := tmpdir w; path_resolve := path_resolve w;
     path_join := path_join w; random16 := random16 w; JSON_parse := JSON_parse w;
     parseInt := fun text =>
                   if String.eqb text "42" then Some 42%Z
                   else if String.eqb text "1000000000000000000000" then Some (10 ^ 21)%Z
                   else None;
     formatBytes := formatBytes w; unreadable := unreadable w;
     zip_tar := fun _ _ _ => zip; fetch := fetch w; unlink_fault := unlink_fault w;
     git_log := git_log w; git_status := git_status w;
     git_getRemotes := git_getRemotes w; git_revparse := git_revparse w;
     git_raw := git_raw w |}.

(** The options of the fixture with an empty branch name. *)
Definition noBranch : UploadStorybookOpts :=
  {| storybookDir := "/path/to/storybook";
     commitSha := Fixture.sha_a;
     branch := "";
     projectToken := "test-token";
     baseCommitSha := None;
     baseBranch := None;
     prNumber := None |}.

(** The command line with a token only, and with every option. *)
Definition tokenOnly : CommandArgs :=
  {| token := Some "0123456789abcdef";
     commit := None;
     branch_arg := None;
     baseBranch_arg := None;
     baseCommit := None;
     pr := None |}.

Definition allGiven : CommandArgs :=
  {| token := Some "0123456789abcdef";
     commit := Some Fixture.sha_a;
     branch_arg := Some "main";
     baseBranch_arg := Some "develop";
     baseCommit := Some Fixture.sha_b;
     pr := Some (IsString "42") |}.


(** The request [vizdiff] submits for it. *)
Definition allGiven_url : string :=
  "https://vizdiff.io/api/upload/storybook?token=0123456789abcdef".

Definition allGiven_request : Request :=
  {| method := "POST";
     headers := [("Content-Type", "application/gzip");
                 ("X-Vizdiff-Commit-Sha", Fixture.sha_a);
                 ("X-Vizdiff-Branch", "main");
                 ("X-Vizdiff-Base-Commit-Sha", Fixture.sha_b);
                 ("X-Vizdiff-Base-Branch", "develop");
                 ("X-Vizdiff-PR-Number", "42")];
     body := "mock tarball content" |}.

(** The request [vizdiff] submits for the command line of the fixture with
    both base options: the commit and the branch are those of the
    repository. *)
Definition explicitBase_request : Request :=
  {| method := "POST";
     headers := [("Content-Type", "application/gzip");
                 ("X-Vizdiff-Commit-Sha", Fixture.sha_a);
                 ("X-Vizdiff-Branch", "feature");
                 ("X-Vizdiff-Base-Commit-Sha", Fixture.sha_b);
                 ("X-Vizdiff-Base-Branch", "develop")];
     body := "mock tarball content" |}.

(** The command line from the branch [orphan], and the request [vizdiff]
    submits for it: a base branch and no base commit. *)
Definition fromOrphan : CommandArgs :=
  {| token := Some "0123456789abcdef";
     commit := None;
     branch_arg := Some "orphan";
     baseBranch_arg := None;
     baseCommit := None;
     pr := None |}.

Definition fromOrphan_request : Request :=
  {| method := "POST";
     headers := [("Content-Type", "application/gzip");
                 ("X-Vizdiff-Commit-Sha", Fixture.sha_a);
                 ("X-Vizdiff-Branch", "orphan");
                 ("X-Vizdiff-Base-Branch", "main")];
     body := "mock tarball content" |}.

(** What git says of a repository without a commit, and the world of the
    fixture with such a repository: [git.log()] rejects. *)
Definition no_commits : Js.Error :=
  Fixture.git_error "fatal: your current branch 'main' does not have any commits yet".

Definition unborn : World :=
  let w := Fixture.world (FetchResolves Fixture.accepted) None in
  {| env := env w; argv := argv w; platform := platform w; release := release w;
     isatty := isatty w; to_number := to_number w;
     tmpdir := tmpdir w; path_resolve := path_resolve w;
     path_join := path_join w; random16 := random16 w; JSON_parse := JSON_parse w;
     parseInt := parseInt w; formatBytes := formatBytes w; unreadable := unreadable w;
     zip_tar := zip_tar w; fetch := fetch w; unlink_fault := unlink_fault w;
     git_log := fun _ => inl no_commits; git_status := git_status w;
     git_getRemotes := git_getRemotes w; git_revparse := git_revparse w;
     git_raw := git_raw w |}.


(** The process of the fixture with FORCE_COLOR=1. *)
Definition forcing_color : World :=
  let w := Fixture.world (FetchResolves Fixture.accepted) None in
  {| env := fun key => if String.eqb key "FORCE_COLOR" then Some "1" else None;
     argv := argv w; platform := platform w; release := release w;
     isatty := isatty w; to_number := to_number w;
     tmpdir := tmpdir w; path_resolve := path_resolve w;
     path_join := path_join w; random16 := random16 w; JSON_parse := JSON_parse w;
     parseInt := parseInt w; formatBytes := formatBytes w; unreadable := unreadable w;
     zip_tar := zip_tar w; fetch := fetch w; unlink_fault := unlink_fault w;
     git_log := git_log w; git_status := git_status w;
     git_getRemotes := git_getRemotes w; git_revparse := git_revparse w;
     git_raw := git_raw w |}.

(** What the service of the fixture answers when it does not know the
    project: the error [uploadStorybook] throws for it. *)
Definition forbidden_error : Js.Error :=
  {| Js.name := "Error";
     Js.message := "Failed to upload storybook build folder to vizdiff CDN: Forbidden (403)";
     Js.statusCode := Some 403%Z |}.

End Scenario.

(* ===================================================================== *)
(** * Reasoning about runs *)
(* ===================================================================== *)

(** [m] appends events to the trace, all of which satisfy [P]. *)
Definition emits {A} (P : Event -> Prop) (m : M A) : Prop :=
  forall st, exists evs, trace (snd (m st)) = trace st ++ evs /\ Forall P evs.

(** [m] leaves the files as they are. *)
Definition keeps_files {A} (m : M A) : Prop :=
  forall st, files (snd (m st)) = files st.

(** [m] never ends the process. *)
Definition never_exits {A} (m : M A) : Prop :=
  forall st, fst (m st) <> Exit.

(** The computations built from the steps of the monad, whose events all
    satisfy [P]; a [pure] one neither writes files nor ends the process. *)
Inductive tame (P : Event -> Prop) (pure : bool) : forall A : Type, M A -> Prop :=
| tame_ret : forall A (a : A), tame P pure A (ret a)
| tame_throw : forall A (e : Js.Error), tame P pure A (throw e)
| tame_lift : forall A (r : Js.Error + A), tame P pure A (lift r)
| tame_emit : forall e : Event, P e -> tame P pure unit (emit e)
| tame_get_files : tame P pure (gmap string string) get_files
| tame_set_files : forall fs, pure = false -> tame P pure unit (set_files fs)
| tame_exit : forall A (code : Z),
    pure = false -> P (EExit code) -> tame P pure A (process_exit code)
| tame_bind : forall A B (m : M A) (k : A -> M B),
    tame P pure A m -> (forall a, tame P pure B (k a)) -> tame P pure B (bind m k)
| tame_try_catch : forall A (body : M A) (handler : Js.Error -> M A),
    tame P pure A body -> (forall e, tame P pure A (handler e)) ->
    tame P pure A (try_catch body handler)
| tame_try_finally : forall A (body : M A) (cleanup : M unit),
    tame P pure A body -> tame P pure unit cleanup ->
    tame P pure A (try_finally body cleanup).

Arguments tame P pure {A} m.

(** Unfolding a run step by step, and rewriting with what is known of the
    world and the files. *)
Ltac unfold_run :=
  cbv beta iota zeta delta
    [exec uploadStorybook bind try_catch try_finally ret throw emit lift info
     fs_access fs_readFile fs_unlink tar do_fetch get_files set_files
     fst snd files trace]; cbn [orb andb negb].

Ltac use_facts :=
  unfold_run;
  repeat match goal with
         | H : ?x = _ |- context [?x] => rewrite H; unfold_run
         end.

(** The same for the queries of a repository. *)
Ltac unfold_git :=
  cbv beta iota zeta delta
    [bind try_catch ret throw emit lift git_do truthy_string nullish_or
     fst snd files trace]; cbn [orb andb negb].

Ltac use_git_facts :=
  unfold_git;
  repeat match goal with
         | H : ?x = _ |- context [?x] => rewrite H; unfold_git
         end.

(** A run that a failed check has stopped, with nothing packed. *)
Ltac stopped :=
  right; eexists _, _; split;
  [ use_facts; reflexivity
  | intros src dest lvl Hin; cbn in Hin; intuition discriminate ].

(** One rule, or one case split, of a derivation of [tame]. *)
Ltac mstep :=
  cbv beta zeta;
  lazymatch goal with
  | |- tame _ _ (bind _ _) => apply tame_bind; [| intros ?]
  | |- tame _ _ (try_catch _ _) => apply tame_try_catch; [| intros ?]
  | |- tame _ _ (try_finally _ _) => apply tame_try_finally
  | |- tame _ _ (ret _) => apply tame_ret
  | |- tame _ _ (throw _) => apply tame_throw
  | |- tame _ _ (lift _) => apply tame_lift
  | |- tame _ _ (emit _) => apply tame_emit
  | |- tame _ _ (process_exit _) => apply tame_exit; [reflexivity |]
  | |- tame _ _ (console_error _) => unfold console_error
  | |- tame _ _ (fatal _ _) => unfold fatal
  | |- tame _ _ get_files => apply tame_get_files
  | |- tame _ _ (set_files _) => apply tame_set_files; reflexivity
  | |- tame _ _ (if ?c then _ else _) => destruct c
  | |- tame _ _ (match ?x with _ => _ end) => destruct x
  | |- tame _ _ (info _) => unfold info
  | |- tame _ _ (fs_access _ _) => unfold fs_access
  | |- tame _ _ (fs_readFile _ _) => unfold fs_readFile
  | |- tame _ _ (fs_unlink _ _) => unfold fs_unlink
  | |- tame _ _ (fs_existsSync _) => unfold fs_existsSync
  | |- tame _ _ (tar _ _ _ _) => unfold tar
  | |- tame _ _ (do_fetch _ _ _) => unfold do_fetch
  | |- tame _ _ (git_do _ _) => unfold git_do
  | |- tame _ _ (rejection_message _) => unfold rejection_message
  | |- tame _ _ (deleteTarball _ _) => unfold deleteTarball
  | |- tame _ _ (postTarball _ _ _) => unfold postTarball
  end.

(** A run that a failed check has stopped, after looks at the manifests. *)
Ltac stopped_checking :=
  right; eexists _, _; split;
  [ use_facts; reflexivity | repeat constructor ].

(** Unfolding the [try] block step by step. *)
Ltac unfold_post :=
  cbv beta iota zeta delta
    [bind try_catch try_finally ret throw emit lift info
     fs_readFile do_fetch get_files set_files postTarball
     fst snd files trace]; cbn [orb andb negb].

(** The cases of the answers of git. *)
Ltac git_cases :=
  repeat (unfold_git;
          match goal with
          | |- context [git_log ?w ?d] => destruct (git_log w d) as [? | [? |]]
          | |- context [git_getRemotes ?w ?d] => destruct (git_getRemotes w d) as [? | ?]
          | |- context [find ?f ?l] => destruct (find f l) as [? |]
          | |- context [git_revparse ?w ?d ?a] => destruct (git_revparse w d a) as [? | ?]
          | |- context [git_raw ?w ?d ?a] => destruct (git_raw w d a) as [? | ?]
          | |- context [if String.eqb ?a ?b then _ else _] => destruct (String.eqb a b)
          end).

(** The cases of a level. *)
Ltac color_cases :=
  repeat match goal with
         | |- context [if ?c then _ else _] => destruct c
         | |- context [match ?x with Some _ => _ | None => _ end] => destruct x
         end.

Section Rules.

Context {A B : Type}.
Variable P : Event -> Prop.

Lemma emits_ret (a : A) : emits P (ret a).
Proof. intros st. exists []. rewrite app_nil_r. split; [reflexivity | constructor]. Qed.

Lemma emits_throw (e : Js.Error) : emits P (@throw A e).
Proof. intros st. exists []. rewrite app_nil_r. split; [reflexivity | constructor]. Qed.

Lemma emits_emit (e : Event) : P e -> emits P (emit e).
Proof. intros He st. exists [e]. split; [reflexivity | repeat constructor; exact He]. Qed.

Lemma emits_exit (code : Z) : P (EExit code) -> emits P (@process_exit A code).
Proof. intros He st. exists [EExit code]. split; [reflexivity | repeat constructor; exact He]. Qed.

Lemma emits_lift (r : Js.Error + A) : emits P (lift r).
Proof. destruct r; [apply emits_throw | apply emits_ret]. Qed.

Lemma emits_bind (m : M A) (k : A -> M B) :
  emits P m -> (forall a, emits P (k a)) -> emits P (bind m k).
Proof.
  intros Hm Hk st. unfold bind.
  destruct (Hm st) as [evs [Ht Hf]].
  destruct (m st) as [[a | e |] st1]; simpl in *.
  - destruct (Hk a st1) as [evs' [Ht' Hf']].
    exists (evs ++ evs'). rewrite Ht', Ht, <- app_assoc.
    split; [reflexivity | apply Forall_app; split; assumption].
  - exists evs. split; assumption.
  - exists evs. split; assumption.
Qed.

Lemma emits_try_catch (body : M A) (handler : Js.Error -> M A) :
  emits P body -> (forall e, emits P (handler e)) -> emits P (try_catch body handler).
Proof.
  intros Hm Hk st. unfold try_catch.
  destruct (Hm st) as [evs [Ht Hf]].
  destruct (body st) as [[a | e |] st1]; simpl in *.
  - exists evs. split; assumption.
  - destruct (Hk e st1) as [evs' [Ht' Hf']].
    exists (evs ++ evs'). rewrite Ht', Ht, <- app_assoc.
    split; [reflexivity | apply Forall_app; split; assumption].
  - exists evs. split; assumption.
Qed.

Lemma emits_try_finally (body : M A) (cleanup : M unit) :
  emits P body -> emits P cleanup -> emits P (try_finally body cleanup).
Proof.
  intros Hm Hk st. unfold try_finally.
  destruct (Hm st) as [evs [Ht Hf]].
  destruct (Hk (snd (body st))) as [evs' [Ht' Hf']].
  destruct (body st) as [[a | e |] st1]; simpl in *;
    try (destruct (cleanup st1) as [[[] | e' |] st2]; simpl in *;
         exists (evs ++ evs'); rewrite Ht', Ht, <- app_assoc;
         (split; [reflexivity | apply Forall_app; split; assumption])).
  exists evs. split; assumption.
Qed.

Lemma keeps_ret (a : A) : keeps_files (ret a).
Proof. intros st. reflexivity. Qed.

Lemma keeps_throw (e : Js.Error) : keeps_files (@throw A e).
Proof. intros st. reflexivity. Qed.

Lemma keeps_lift (r : Js.Error + A) : keeps_files (lift r).
Proof. destruct r; intros st; reflexivity. Qed.

Lemma keeps_bind (m : M A) (k : A -> M B) :
  keeps_files m -> (forall a, keeps_files (k a)) -> keeps_files (bind m k).
Proof.
  intros Hm Hk st. unfold bind. specialize (Hm st).
  destruct (m st) as [[a | e |] st1]; simpl in *; try assumption.
  rewrite Hk. assumption.
Qed.

Lemma keeps_try_catch (body : M A) (handler : Js.Error -> M A) :
  keeps_files body -> (forall e, keeps_files (handler e)) ->
  keeps_files (try_catch body handler).
Proof.
  intros Hm Hk st. unfold try_catch. specialize (Hm st).
  destruct (body st) as [[a | e |] st1]; simpl in *; try assumption.
  rewrite Hk. assumption.
Qed.

Lemma lives_ret (a : A) : never_exits (ret a).
Proof. intros st. discriminate. Qed.

Lemma lives_throw (e : Js.Error) : never_exits (@throw A e).
Proof. intros st. discriminate. Qed.

Lemma lives_lift (r : Js.Error + A) : never_exits (lift r).
Proof. destruct r; intros st; discriminate. Qed.

Lemma lives_bind (m : M A) (k : A -> M B) :
  never_exits m -> (forall a, never_exits (k a)) -> never_exits (bind m k).
Proof.
  intros Hm Hk st. unfold bind. specialize (Hm st).
  destruct (m st) as [[a | e |] st1]; simpl in *.
  - apply Hk.
  - discriminate.
  - congruence.
Qed.

Lemma lives_try_catch (body : M A) (handler : Js.Error -> M A) :
  never_exits body -> (forall e, never_exits (handler e)) ->
  never_exits (try_catch body handler).
Proof.
  intros Hm Hk st. unfold try_catch. specialize (Hm st).
  destruct (body st) as [[a | e |] st1]; simpl in *.
  - discriminate.
  - apply Hk.
  - congruence.
Qed.

End Rules.

Lemma keeps_emit (e : Event) : keeps_files (emit e).
Proof. intros st. reflexivity. Qed.

Lemma lives_emit (e : Event) : never_exits (emit e).
Proof. intros st. discriminate. Qed.

Lemma emits_get_files P : emits P get_files.
Proof. intros st. exists []. rewrite app_nil_r. split; [reflexivity | constructor]. Qed.

Lemma keeps_get_files : keeps_files get_files.
Proof. intros st. reflexivity. Qed.

Lemma lives_get_files : never_exits get_files.
Proof. intros st. discriminate. Qed.

Lemma emits_set_files P fs : emits P (set_files fs).
Proof. intros st. exists []. rewrite app_nil_r. split; [reflexivity | constructor]. Qed.

Lemma keeps_try_finally {A} (body : M A) (cleanup : M unit) :
  keeps_files body -> keeps_files cleanup -> keeps_files (try_finally body cleanup).
Proof.
  intros Hb Hc st. unfold try_finally. specialize (Hb st).
  destruct (body st) as [[a | e |] st1]; cbn [snd] in *; try exact Hb;
    specialize (Hc st1); destruct (cleanup st1) as [[[] | e' |] st2];
    cbn [snd] in *; congruence.
Qed.

Lemma lives_try_finally {A} (body : M A) (cleanup : M unit) :
  never_exits body -> never_exits cleanup -> never_exits (try_finally body cleanup).
Proof.
  intros Hb Hc st. unfold try_finally. specialize (Hb st).
  destruct (body st) as [[a | e |] st1]; cbn [fst] in *; try congruence;
    specialize (Hc st1); destruct (cleanup st1) as [[[] | e' |] st2];
    cbn [fst] in *; congruence.
Qed.

(** What a derivation of [tame] gives of the runs. *)
Lemma tame_sound P pure {A} (m : M A) :
  tame P pure m ->
  emits P m /\ (pure = true -> keeps_files m /\ never_exits m).
Proof.
  induction 1 as [A a | A e | A r | e He | | fs Hpure | A code Hpure He
                  | A B m k Hm IHm Hk IHk | A body handler Hb IHb Hh IHh
                  | A body cleanup Hb IHb Hc IHc].
  - split; [apply emits_ret | intros _; split; [apply keeps_ret | apply lives_ret]].
  - split; [apply emits_throw | intros _; split; [apply keeps_throw | apply lives_throw]].
  - split; [apply emits_lift | intros _; split; [apply keeps_lift | apply lives_lift]].
  - split; [now apply emits_emit | intros _; split; [apply keeps_emit | apply lives_emit]].
  - split; [apply emits_get_files
           | intros _; split; [apply keeps_get_files | apply lives_get_files]].
  - split; [apply emits_set_files | congruence].
  - split; [now apply emits_exit | congruence].
  - split.
    + apply emits_bind; [apply IHm | intros a; apply IHk].
    + intros Hpure. split.
      * apply keeps_bind; [now apply IHm | intros a; now apply IHk].
      * apply lives_bind; [now apply IHm | intros a; now apply IHk].
  - split.
    + apply emits_try_catch; [apply IHb | intros e; apply IHh].
    + intros Hpure. split.
      * apply keeps_try_catch; [now apply IHb | intros e; now apply IHh].
      * apply lives_try_catch; [now apply IHb | intros e; now apply IHh].
  - split.
    + apply emits_try_finally; [apply IHb | apply IHc].
    + intros Hpure. split.
      * apply keeps_try_finally; [now apply IHb | now apply IHc].
      * apply lives_try_finally; [now apply IHb | now apply IHc].
Qed.

(** A derivation holds of any weaker property of the events. *)
Lemma tame_weaken (P Q : Event -> Prop) pure {A} (m : M A) :
  (forall e, P e -> Q e) -> tame P pure m -> tame Q pure m.
Proof.
  intros HPQ. induction 1; try (constructor; auto; fail).
Qed.

(** The events of a run of a tame computation. *)
Lemma tame_exec P pure {A} (m : M A) (fs : gmap string string) :
  tame P pure m -> Forall P (snd (exec m fs)).
Proof.
  intros Hm.
  destruct (proj1 (tame_sound P pure m Hm) {| files := fs; trace := [] |})
    as [evs [Htr Hall]].
  unfold exec. cbn [snd]. rewrite Htr. exact Hall.
Qed.

(* ===================================================================== *)
(** * The two patterns, and strings *)
(* ===================================================================== *)

Lemma length_chars (s : string) : length (list_ascii_of_string s) = String.length s.
Proof. induction s as [| c s IH]; simpl; [reflexivity | now rewrite IH]. Qed.

Lemma class_lower_hex (c : ascii) :
  Regex.class_matches false [("0"%char, "9"%char); ("a"%char, "f"%char)] c = lower_hex c.
Proof. destruct c as [[] [] [] [] [] [] [] []]; vm_compute; reflexivity. Qed.

Lemma class_any_hex (c : ascii) :
  Regex.class_matches true [("0"%char, "9"%char); ("a"%char, "f"%char)] c = any_hex c.
Proof. destruct c as [[] [] [] [] [] [] [] []]; vm_compute; reflexivity. Qed.

(** A class under a bounded repetition matches the whole input exactly when
    the length is within the bounds and every code unit is in the class. *)
Lemma repeat_class_all ic ranges hi :
  forall lo s,
    existsb Regex.is_nil
      (Regex.repeat_run (Regex.run ic (Regex.Class ranges)) lo hi s)
    = (lo <=? length s) && (length s <=? hi)
      && forallb (Regex.class_matches ic ranges) s.
Proof.
  induction hi as [| hi IH]; intros lo s.
  - cbn [Regex.repeat_run]. destruct s as [| c t].
    + destruct lo; reflexivity.
    + cbn [length]. replace (S (length t) <=? 0) with false by reflexivity.
      rewrite andb_false_r. destruct lo; reflexivity.
  - cbn [Regex.repeat_run]. rewrite existsb_app.
    destruct s as [| c t].
    + destruct lo; reflexivity.
    + cbn [Regex.run flat_map forallb length].
      destruct (Regex.class_matches ic ranges c) eqn:Hc.
      * cbn [flat_map]. rewrite app_nil_r, IH.
        replace (existsb Regex.is_nil (if lo =? 0 then [c :: t] else [])) with false
          by (destruct lo; reflexivity).
        rewrite orb_false_r.
        destruct lo as [| lo]; reflexivity.
      * cbn [flat_map existsb].
        replace (existsb Regex.is_nil (if lo =? 0 then [c :: t] else [])) with false
          by (destruct lo; reflexivity).
        rewrite andb_false_r. reflexivity.
Qed.

Lemma forallb_pointwise {X} (f g : X -> bool) (l : list X) :
  (forall x, f x = g x) -> forallb f l = forallb g l.
Proof. intros Hfg. induction l as [| x l IH]; simpl; [reflexivity | now rewrite Hfg, IH]. Qed.

Lemma run_Repeat ic r lo hi s :
  Regex.run ic (Regex.Repeat r lo hi) s = Regex.repeat_run (Regex.run ic r) lo hi s.
Proof. reflexivity. Qed.

Lemma checkToken_spec (token : string) :
  checkToken token
  = (12 <=? String.length token) && (String.length token <=? 24)
    && forallb lower_hex (list_ascii_of_string token).
Proof.
  unfold checkToken, Regex.test_anchored, Regex.matches_all, token_regex.
  rewrite run_Repeat, repeat_class_all, length_chars.
  f_equal. apply forallb_pointwise, class_lower_hex.
Qed.

Lemma isValidGitCommitHash_spec (hash : string) :
  isValidGitCommitHash hash
  = (String.length hash =? 40) && forallb any_hex (list_ascii_of_string hash).
Proof.
  unfold isValidGitCommitHash, Regex.test_anchored, Regex.matches_all, commit_regex.
  rewrite run_Repeat, repeat_class_all, length_chars.
  f_equal.
  - destruct (Nat.eqb_spec (String.length hash) 40) as [-> | Hne]; [reflexivity |].
    destruct (Nat.leb_spec 40 (String.length hash));
      destruct (Nat.leb_spec (String.length hash) 40); simpl; try reflexivity; lia.
  - apply forallb_pointwise, class_any_hex.
Qed.

Lemma starts_with_app (p s : list ascii) : Js.starts_with p (p ++ s) = true.
Proof.
  induction p as [| a p IH]; simpl; [reflexivity |].
  rewrite Ascii.eqb_refl. exact IH.
Qed.

Lemma includes_chars_middle (pre sub post : list ascii) :
  Js.includes_chars sub (pre ++ sub ++ post) = true.
Proof.
  induction pre as [| a pre IH].
  - assert (Hs := starts_with_app sub post). cbn [app].
    destruct (sub ++ post); cbn [Js.includes_chars]; rewrite Hs; reflexivity.
  - cbn [app Js.includes_chars]. rewrite IH. apply orb_true_r.
Qed.

Lemma chars_append (a b : string) :
  list_ascii_of_string (a +:+ b) = list_ascii_of_string a ++ list_ascii_of_string b.
Proof. induction a as [| c a IH]; simpl; [reflexivity | now rewrite IH]. Qed.

(** A message built around a literal value includes it. *)
Lemma includes_middle (pre s post : string) :
  Js.includes (pre +:+ s +:+ post) s = true.
Proof.
  unfold Js.includes. rewrite !chars_append. apply includes_chars_middle.
Qed.

Lemma includes_suffix (pre s : string) : Js.includes (pre +:+ s) s = true.
Proof.
  unfold Js.includes. rewrite chars_append.
  rewrite <- (app_nil_r (list_ascii_of_string s)) at 2.
  apply includes_chars_middle.
Qed.

Lemma includes_chars_here (sub post : list ascii) :
  Js.includes_chars sub (sub ++ post) = true.
Proof. apply (includes_chars_middle []). Qed.

Lemma includes_chars_skip (sub x l : list ascii) :
  Js.includes_chars sub l = true -> Js.includes_chars sub (x ++ l) = true.
Proof.
  intros H. induction x as [| a x IH]; [exact H |].
  cbn [app Js.includes_chars]. rewrite IH. apply orb_true_r.
Qed.

(* ===================================================================== *)
(** * The search for the repository ends *)
(* ===================================================================== *)

Lemma drop_while_length f l : length (drop_while f l) <= length l.
Proof.
  induction l as [| c l IH]; cbn [drop_while length]; [lia |].
  destruct (f c); cbn [length]; lia.
Qed.

Lemma drop_while_head f l a t : drop_while f l = a :: t -> f a = false.
Proof.
  induction l as [| c l IH]; cbn [drop_while]; [discriminate |].
  destruct (f c) eqn:Hc; [exact IH |].
  intros [= <- _]. exact Hc.
Qed.

(** The parent is the directory itself, or shorter, or ["."]. *)
Lemma dirname_chars_cases (p : list ascii) :
  dirname_chars p = p
  \/ length (dirname_chars p) < length p
  \/ dirname_chars p = ["."%char].
Proof.
  destruct p as [| c0 rest]; [right; right; reflexivity |].
  unfold dirname_chars.
  set (tail := drop_while is_slash (rev rest)).
  destruct (drop_while (fun c => negb (is_slash c)) tail) as [| a kept] eqn:Hname.
  - destruct (is_slash c0) eqn:Hroot; [| right; right; reflexivity].
    apply Ascii.eqb_eq in Hroot. subst c0.
    destruct rest; [left; reflexivity | right; left; cbn [length]; lia].
  - assert (Hlen : S (S (length kept)) <= length rest).
    { pose proof (drop_while_head _ _ _ _ Hname) as Ha.
      apply negb_false_iff in Ha.
      pose proof (drop_while_length is_slash (rev rest)) as Hle. fold tail in Hle.
      rewrite length_rev in Hle.
      destruct tail as [| x tail'] eqn:Htail; [discriminate Hname |].
      pose proof (drop_while_head _ _ _ _ Htail) as Hx.
      cbn [drop_while] in Hname. rewrite Hx in Hname. cbn [negb] in Hname.
      pose proof (drop_while_length (fun c => negb (is_slash c)) tail') as Hle'.
      rewrite Hname in Hle'. cbn [length] in *. lia. }
    right; left.
    destruct (is_slash c0 && Regex.is_nil kept); cbn [length]; rewrite ?length_rev; lia.
Qed.

Lemma length_string_of_chars (l : list ascii) :
  String.length (string_of_list_ascii l) = length l.
Proof. induction l as [| c l IH]; cbn; [reflexivity | now rewrite IH]. Qed.

Lemma dirname_cases (dir : string) :
  dirname dir = dir
  \/ String.length (dirname dir) < String.length dir
  \/ dirname dir = ".".
Proof.
  unfold dirname.
  destruct (dirname_chars_cases (list_ascii_of_string dir)) as [Heq | [Hlt | Hdot]].
  - left. rewrite Heq. apply string_of_list_ascii_of_string.
  - right; left. rewrite length_string_of_chars, <- length_chars. exact Hlt.
  - right; right. rewrite Hdot. reflexivity.
Qed.

Lemma rank_parent (dir : string) : dirname dir <> dir -> rank (dirname dir) < rank dir.
Proof.
  intros Hne. unfold rank at 2.
  destruct (String.eqb_spec (dirname dir) dir) as [Heq | _]; [contradiction |].
  destruct (dirname_cases dir) as [Heq | [Hlt | Hdot]]; [contradiction | |].
  - unfold rank. destruct (String.eqb (dirname (dirname dir)) (dirname dir)); lia.
  - rewrite Hdot. cbv. lia.
Qed.

Lemma rank_depth (dir : string) : rank dir < findGitRoot_depth dir.
Proof.
  unfold rank, findGitRoot_depth.
  destruct (String.eqb (dirname dir) dir); lia.
Qed.

(** With fuel above the rank the search never runs out, and gives what any
    larger fuel gives. *)
Lemma findGitRoot_fuel_enough w :
  forall fuel fuel' dir st,
    rank dir < fuel -> rank dir < fuel' ->
    findGitRoot_fuel w fuel dir st = findGitRoot_fuel w fuel' dir st
    /\ fst (findGitRoot_fuel w fuel dir st) <> Normal None.
Proof.
  induction fuel as [| fuel IH]; intros fuel' dir st Hf Hf'; [lia |].
  destruct fuel' as [| fuel']; [lia |].
  destruct st as [fs tr]. cbn [findGitRoot_fuel].
  cbv beta iota zeta delta [bind fs_existsSync emit get_files ret fst snd files trace].
  destruct (fs !! path_join w dir ".git");
    [split; [reflexivity | discriminate] |].
  destruct (String.eqb_spec (dirname dir) dir) as [Heq | Hne];
    [split; [reflexivity | discriminate] |].
  pose proof (rank_parent dir Hne) as Hrank.
  apply IH; lia.
Qed.

(** X14. The depth [findGitRoot] allows is never exhausted, and a larger one
    changes nothing: the recursion of the source on [path.dirname(dir)] ends,
    with the result the model computes. *)
Theorem findGitRoot_terminates :
  forall (w : World) (dir : string) (st : State),
    fst (findGitRoot_fuel w (findGitRoot_depth dir) dir st) <> Normal None
    /\ forall fuel, findGitRoot_depth dir <= fuel ->
                    findGitRoot_fuel w fuel dir st
                    = findGitRoot_fuel w (findGitRoot_depth dir) dir st.
Proof.
  intros w dir st. pose proof (rank_depth dir) as Hd. split.
  - exact (proj2 (findGitRoot_fuel_enough w _ _ dir st Hd Hd)).
  - intros fuel Hle.
    apply (findGitRoot_fuel_enough w fuel (findGitRoot_depth dir) dir st); lia.
Qed.

(* ===================================================================== *)
(** * Input validation *)
(* ===================================================================== *)

(** [fatal] prints one line to the standard error and ends the process
    with status 1. *)
Lemma fatal_run {A} (w : World) (message : string) (st : State) :
  fatal (A := A) w message st
  = (Exit, {| files := files st;
              trace := trace st ++ [EError (errorPrefix w +:+ message); EExit 1] |}).
Proof.
  unfold fatal, console_error, process_exit, bind, emit. cbn [files trace].
  rewrite <- app_assoc. reflexivity.
Qed.

(** The prefix is one of the two of src/log.ts. *)
Lemma errorPrefix_cases (w : World) :
  errorPrefix w = "[ERROR] "
  \/ errorPrefix w = "[" +:+ esc +:+ "[31mERROR" +:+ esc +:+ "[39m] ".
Proof.
  unfold errorPrefix. destruct (snd (Color.supportsColor (host w))); [right | left]; reflexivity.
Qed.

(** C10, as amended. [checkToken] accepts a token exactly when it has 12 to
    24 code units, each a lowercase hexadecimal digit ([0-9a-f]). When the
    token that the command line resolves is not empty and [checkToken]
    rejects it, [vizdiff] prints the invalid-project-token error and exits
    with status 1, and these are its only steps: nothing is read, packed or
    sent before. When the token is empty or there is none, the error is the
    missing-project-token one, in the same way. *)
Theorem checkToken_exact_and_fatal :
  (forall token : string,
      checkToken token = true <->
      (12 <= String.length token <= 24 /\
       Forall (fun c => lower_hex c = true) (list_ascii_of_string token)))
  /\
  (forall (w : World) (dir : string) (options : CommandArgs)
          (fs : gmap string string) (t : string),
      nullish (nullish (token options) (env w "VIZDIFF_PROJECT_TOKEN"))
              (env w "VIZDIFF_TOKEN") = Some t ->
      t <> "" ->
      checkToken t = false ->
      exec (vizdiff w dir options) fs
      = (Exit, fs,
         [EError (errorPrefix w
                  +:+ "Invalid project token. Please check that the token is correct.");
          EExit 1]))
  /\
  (forall (w : World) (dir : string) (options : CommandArgs) (fs : gmap string string),
      truthy_string (nullish (nullish (token options) (env w "VIZDIFF_PROJECT_TOKEN"))
                             (env w "VIZDIFF_TOKEN")) = false ->
      exec (vizdiff w dir options) fs
      = (Exit, fs,
         [EError (errorPrefix w
                  +:+ "Missing project token. Please set the VIZDIFF_PROJECT_TOKEN "
                  +:+ "environment variable or use the --token option.");
          EExit 1])).
Proof.
  split; [| split].
  - intros token. rewrite checkToken_spec, !andb_true_iff, forallb_forall.
    rewrite Nat.leb_le, Nat.leb_le, Stdlib.Lists.List.Forall_forall. tauto.
  - intros w dir options fs t Ht Hne Hbad.
    unfold exec, vizdiff, getToken. rewrite Ht.
    unfold truthy_string, nullish_or.
    destruct (String.eqb_spec t "") as [-> | _]; [congruence |].
    rewrite Hbad. cbn [negb]. unfold bind at 1 2 3. cbn [ret].
    rewrite fatal_run. reflexivity.
  - intros w dir options fs Hnone.
    unfold exec, vizdiff, getToken. rewrite Hnone. cbn [negb].
    unfold bind at 1 2. rewrite fatal_run. reflexivity.
Qed.

(** C10, at the token [0123456789ABCDEF] given with [--token]: uppercase
    digits are rejected and the run ends at once. *)
Lemma checkToken_exact_and_fatal_witness :
  let options := {| token := Some "0123456789ABCDEF"; commit := None;
                    branch_arg := None; baseBranch_arg := None;
                    baseCommit := None; pr := None |} in
  let w := Fixture.world (FetchResolves Fixture.accepted) None in
  (nullish (nullish (token options) (env w "VIZDIFF_PROJECT_TOKEN"))
           (env w "VIZDIFF_TOKEN") = Some "0123456789ABCDEF"
   /\ "0123456789ABCDEF" <> ""
   /\ checkToken "0123456789ABCDEF" = false)
  /\ exec (vizdiff w "/path/to/storybook" options) Fixture.build
     = (Exit, Fixture.build,
        [EError "[ERROR] Invalid project token. Please check that the token is correct.";
         EExit 1]).
Proof.
  intros options w.
  assert (H1 : nullish (nullish (token options) (env w "VIZDIFF_PROJECT_TOKEN"))
                       (env w "VIZDIFF_TOKEN") = Some "0123456789ABCDEF")
    by reflexivity.
  assert (H2 : "0123456789ABCDEF" <> "") by discriminate.
  assert (H3 : checkToken "0123456789ABCDEF" = false) by reflexivity.
  split; [exact (conj H1 (conj H2 H3)) |].
  exact (proj1 (proj2 checkToken_exact_and_fatal) w "/path/to/storybook" options
               Fixture.build "0123456789ABCDEF" H1 H2 H3).
Defined.

(** C10 as stated fails. The empty token, given with [--token], is a token
    that [checkToken] rejects, and the error of the command is not the
    invalid-project-token one: [getToken] tests the token for emptiness
    first and reports it as missing. *)
Lemma empty_token_is_reported_missing :
  let options := {| token := Some ""; commit := None;
                    branch_arg := None; baseBranch_arg := None;
                    baseCommit := None; pr := None |} in
  let w := Fixture.world (FetchResolves Fixture.accepted) None in
  (checkToken "" = false
   /\ exec (vizdiff w "/path/to/storybook" options) Fixture.build
      = (Exit, Fixture.build,
         [EError ("[ERROR] Missing project token. Please set the VIZDIFF_PROJECT_TOKEN "
                  +:+ "environment variable or use the --token option.");
          EExit 1]))
  /\ ~ (forall (w : World) (dir : string) (options : CommandArgs)
               (fs : gmap string string) (t : string),
           nullish (nullish (token options) (env w "VIZDIFF_PROJECT_TOKEN"))
                   (env w "VIZDIFF_TOKEN") = Some t ->
           checkToken t = false ->
           In (EError (errorPrefix w
                       +:+ "Invalid project token. Please check that the token is correct."))
              (snd (exec (vizdiff w dir options) fs))).
Proof.
  intros options w. split.
  - split; vm_compute; reflexivity.
  - intros H.
    specialize (H w "/path/to/storybook" options Fixture.build "" eq_refl eq_refl).
    vm_compute in H. intuition discriminate.
Qed.

(** C4. A commit SHA that is not 40 hexadecimal digits (of either case) makes
    [uploadStorybook] throw the invalid-commit-SHA error, whose message
    includes the value as given, before any step is taken: no event is
    recorded and the files are as they were. *)
Theorem invalid_commit_sha_fails_first :
  forall (w : World) (opts : UploadStorybookOpts) (fs : gmap string string),
    ~ (String.length (commitSha opts) = 40 /\
       Forall (fun c => any_hex c = true) (list_ascii_of_string (commitSha opts))) ->
    exists e : Js.Error,
      exec (uploadStorybook w opts) fs = (Throw e, fs, [])
      /\ e = Js.new_Error ("Invalid commit SHA: " +:+ dq +:+ commitSha opts +:+ dq)
      /\ Js.includes (Js.message e) (commitSha opts) = true.
Proof.
  intros w opts fs Hbad.
  assert (Hv : isValidGitCommitHash (commitSha opts) = false).
  { rewrite isValidGitCommitHash_spec. apply not_true_is_false. intros Ht.
    apply andb_true_iff in Ht as [Hl Hf]. apply Hbad. split.
    - now apply Nat.eqb_eq.
    - apply Stdlib.Lists.List.Forall_forall. now apply forallb_forall. }
  eexists. split; [| split; [reflexivity |]].
  - unfold exec, uploadStorybook. rewrite Hv. reflexivity.
  - cbn [Js.message Js.new_Error].
    replace ("Invalid commit SHA: " +:+ dq +:+ commitSha opts +:+ dq)
      with (("Invalid commit SHA: " +:+ dq) +:+ commitSha opts +:+ dq).
    + apply includes_middle.
    + reflexivity.
Qed.

(** C4, on the fixture with the commit SHA [invalid]. *)
Lemma invalid_commit_sha_fails_first_witness :
  let w := Fixture.world (FetchResolves Fixture.accepted) None in
  let opts := {| storybookDir := "/path/to/storybook"; commitSha := "invalid";
                 branch := "main"; projectToken := "test-token";
                 baseCommitSha := None; baseBranch := None; prNumber := None |} in
  ~ (String.length (commitSha opts) = 40 /\
     Forall (fun c => any_hex c = true) (list_ascii_of_string (commitSha opts)))
  /\ exists e : Js.Error,
      exec (uploadStorybook w opts) Fixture.build = (Throw e, Fixture.build, [])
      /\ e = Js.new_Error ("Invalid commit SHA: " +:+ dq +:+ commitSha opts +:+ dq)
      /\ Js.includes (Js.message e) (commitSha opts) = true.
Proof.
  intros w opts.
  assert (Hbad : ~ (String.length (commitSha opts) = 40 /\
                    Forall (fun c => any_hex c = true)
                           (list_ascii_of_string (commitSha opts)))).
  { intros [Hlen _]. discriminate Hlen. }
  split; [exact Hbad |].
  exact (invalid_commit_sha_fails_first w opts Fixture.build Hbad).
Defined.

(* ===================================================================== *)
(** * The run of uploadStorybook: validation, packaging, cleanup *)
(* ===================================================================== *)

(** A run whose inputs and manifest are valid goes through the checks to the
    call of [tar], and from there either stops on its failure (with the very
    error when [tar] rejects, with a wrapped one when it resolves to it), or
    runs the [try] and [finally] blocks on the files with the archive
    added. *)
Lemma upload_reaches_packaging w opts fs tr index :
  isValidGitCommitHash (commitSha opts) = true ->
  valid_branch (branch opts) = true ->
  manifest_valid w (storybookDir opts) fs index ->
  storyCount index <> 0 ->
  uploadStorybook w opts {| files := fs; trace := tr |}
  = match zip_tar w (storybookDir opts) (tarballName w) medium with
    | inl failure =>
        (Throw (if tar_rejects failure then tar_error failure
                else Js.new_Error ("Failed to tar+gzip storybook build folder: "
                                   +:+ Js.Error_toString (tar_error failure))),
         {| files := match tar_left failure with
                     | Some part => <[tarballName w := part]> fs
                     | None => fs
                     end;
            trace := tr ++ packaging_events w opts index |})
    | inr bytes =>
        try_finally (postTarball w opts (tarballName w)) (deleteTarball w (tarballName w))
          {| files := <[tarballName w := bytes]> fs;
             trace := tr ++ packaging_events w opts index
                      ++ [EInfo ("Created storybook tarball: " +:+ tarballName w)] |}
    end.
Proof.
  intros Hsha Hbr (ptext & project & version & itext & [Hp Hpr] & Hpp & Hpt & Hpv & [Hi Hir] & Hip) Hn.
  apply negb_true_iff in Hbr. apply Nat.eqb_neq in Hn.
  use_facts.
  destruct (zip_tar w (storybookDir opts) (tarballName w) medium) as [failure | bytes];
    [destruct (tar_rejects failure) |];
    unfold_run; unfold packaging_events; rewrite <- ?app_assoc; reflexivity.
Qed.

(** Every run either has valid inputs and a valid manifest with a story, or
    throws without packing anything and without touching the files. *)
Lemma upload_validates_first w opts fs :
  (isValidGitCommitHash (commitSha opts) = true
   /\ valid_branch (branch opts) = true
   /\ exists index, manifest_valid w (storybookDir opts) fs index /\ storyCount index <> 0)
  \/
  (exists e evs,
      exec (uploadStorybook w opts) fs = (Throw e, fs, evs)
      /\ forall src dest lvl, ~ In (ETar src dest lvl) evs).
Proof.
  destruct (isValidGitCommitHash (commitSha opts)) eqn:Hsha; [| stopped].
  unfold valid_branch.
  destruct (String.eqb (branch opts) "" || (255 <? String.length (branch opts))) eqn:Hbr;
    [stopped |].
  destruct (fs !! path_resolve w (storybookDir opts) "project.json") as [ptext |] eqn:Hp;
    [| stopped].
  destruct (unreadable w (path_resolve w (storybookDir opts) "project.json")) eqn:Hpr;
    [stopped |].
  destruct (JSON_parse w ptext) as [pe | project] eqn:Hpp; [stopped |].
  destruct (Json.truthy project) eqn:Hpt; [| stopped].
  destruct (Json.get project "storybookVersion") as [[| | | version | |] |] eqn:Hpv;
    try stopped.
  destruct (fs !! path_resolve w (storybookDir opts) "index.json") as [itext |] eqn:Hi;
    [| stopped].
  destruct (unreadable w (path_resolve w (storybookDir opts) "index.json")) eqn:Hir;
    [stopped |].
  destruct (JSON_parse w itext) as [ie | index] eqn:Hip; [stopped |].
  destruct (storyCount index =? 0) eqn:Hn; [stopped |].
  left. repeat split. exists index. split.
  - exists ptext, project, version, itext. repeat split; assumption.
  - now apply Nat.eqb_neq.
Qed.

(** The [try] block unlinks nothing, writes no file and does not end the
    process. *)
Lemma postTarball_tame w opts p : tame not_unlink true (postTarball w opts p).
Proof. repeat mstep; exact I. Qed.

Lemma unlinked_app (a b : list Event) : unlinked (a ++ b) = unlinked a ++ unlinked b.
Proof.
  induction a as [| e a IH]; [reflexivity |].
  destruct e; cbn [app unlinked]; rewrite IH; reflexivity.
Qed.

Lemma unlinked_none (evs : list Event) : Forall not_unlink evs -> unlinked evs = [].
Proof.
  induction 1 as [| e evs He _ IH]; [reflexivity |].
  destruct e; cbn [unlinked]; try exact IH. destruct He.
Qed.

(** The [finally] block, case by case. *)
Lemma deleteTarball_run w p st :
  deleteTarball w p st
  = match unlink_fault w p with
    | Some e => (Throw e, {| files := files st; trace := trace st ++ [EUnlink p] |})
    | None =>
        match files st !! p with
        | None => (Throw (fs_error ENOENT "unlink" p),
                   {| files := files st; trace := trace st ++ [EUnlink p] |})
        | Some _ =>
            (Normal tt,
             {| files := delete p (files st);
                trace := trace st ++ [EUnlink p; EInfo ("Deleted storybook tarball: " +:+ p)] |})
        end
    end.
Proof.
  unfold deleteTarball, fs_unlink, bind, emit, info, get_files, set_files, throw.
  destruct (unlink_fault w p); [reflexivity |]. cbn [files trace].
  destruct (files st !! p); [| reflexivity].
  unfold emit. cbn [files trace]. rewrite <- app_assoc. reflexivity.
Qed.

(** The [try] and [finally] blocks together, on files that hold the
    archive: one unlink, after the steps of the [try] block; a refused unlink
    is the result, otherwise the completion of the [try] block is. *)
Lemma cleanup_after_post w opts p st bytes :
  files st !! p = Some bytes ->
  exists evs,
    Forall not_unlink evs /\
    try_finally (postTarball w opts p) (deleteTarball w p) st
    = match unlink_fault w p with
      | Some e =>
          (Throw e, {| files := files st; trace := trace st ++ evs ++ [EUnlink p] |})
      | None =>
          (fst (postTarball w opts p st),
           {| files := delete p (files st);
              trace := trace st ++ evs
                       ++ [EUnlink p; EInfo ("Deleted storybook tarball: " +:+ p)] |})
      end.
Proof.
  intros Hp.
  destruct (tame_sound _ _ _ (postTarball_tame w opts p)) as [Hemits Hpure].
  destruct (Hpure eq_refl) as [Hkeeps Hlives].
  destruct (Hemits st) as [evs [Htr Hno]].
  pose proof (Hkeeps st) as Hfs.
  pose proof (Hlives st) as Hlive.
  exists evs. split; [exact Hno |].
  unfold try_finally.
  destruct (postTarball w opts p st) as [o [fs1 tr1]]. cbn [fst snd files trace] in *. subst fs1 tr1.
  rewrite deleteTarball_run. cbn [files trace]. rewrite Hp.
  destruct (unlink_fault w p) as [e |]; destruct o as [[] | e' |];
    rewrite <- ?app_assoc; try reflexivity; congruence.
Qed.

(** The whole run, once [tar] has written the archive. *)
Lemma upload_after_packaging w opts fs o fs' evs bytes :
  exec (uploadStorybook w opts) fs = (o, fs', evs) ->
  In (ETar (storybookDir opts) (tarballName w) medium) evs ->
  zip_tar w (storybookDir opts) (tarballName w) medium = inr bytes ->
  exists pre post,
    Forall not_unlink pre /\ Forall not_unlink post /\
    match unlink_fault w (tarballName w) with
    | Some e =>
        o = Throw e /\ fs' = <[tarballName w := bytes]> fs
        /\ evs = pre ++ post ++ [EUnlink (tarballName w)]
    | None =>
        o = fst (postTarball w opts (tarballName w)
                   {| files := <[tarballName w := bytes]> fs; trace := pre |})
        /\ fs' = delete (tarballName w) (<[tarballName w := bytes]> fs)
        /\ evs = pre ++ post
                 ++ [EUnlink (tarballName w);
                     EInfo ("Deleted storybook tarball: " +:+ tarballName w)]
    end.
Proof.
  intros Hrun Hin Hzip.
  destruct (upload_validates_first w opts fs)
    as [(Hsha & Hbr & index & Hm & Hn) | (e & evs0 & Hrun0 & Hno)].
  - unfold exec in Hrun.
    rewrite (upload_reaches_packaging w opts fs [] index Hsha Hbr Hm Hn), Hzip in Hrun.
    cbn [app] in Hrun.
    set (st1 := {| files := <[tarballName w := bytes]> fs;
                   trace := packaging_events w opts index
                            ++ [EInfo ("Created storybook tarball: " +:+ tarballName w)] |})
      in *.
    destruct (cleanup_after_post w opts (tarballName w) st1 bytes) as [post [Hpost Heq]].
    { apply lookup_insert_eq. }
    rewrite Heq in Hrun. exists (trace st1), post.
    split; [repeat constructor |]. split; [exact Hpost |].
    destruct (unlink_fault w (tarballName w)) as [e |];
      cbn [fst snd files trace] in Hrun; injection Hrun as <- <- <-;
      repeat split; reflexivity.
  - rewrite Hrun0 in Hrun. injection Hrun as _ _ <-.
    exfalso. exact (Hno _ _ _ Hin).
Qed.

Lemma packaging_events_tar w opts index :
  In (ETar (storybookDir opts) (tarballName w) medium) (packaging_events w opts index).
Proof. unfold packaging_events. do 4 right. left. reflexivity. Qed.

(** A run whose validation passed calls [tar]. *)
Lemma upload_calls_tar w opts fs index :
  isValidGitCommitHash (commitSha opts) = true ->
  valid_branch (branch opts) = true ->
  manifest_valid w (storybookDir opts) fs index ->
  storyCount index <> 0 ->
  In (ETar (storybookDir opts) (tarballName w) medium)
     (snd (exec (uploadStorybook w opts) fs)).
Proof.
  intros Hsha Hbr Hm Hn. unfold exec.
  rewrite (upload_reaches_packaging w opts fs [] index Hsha Hbr Hm Hn).
  destruct (zip_tar w (storybookDir opts) (tarballName w) medium) as [e | bytes].
  - cbn [snd trace app]. apply packaging_events_tar.
  - match goal with
    | |- context [try_finally _ _ ?st] =>
        destruct (cleanup_after_post w opts (tarballName w) st bytes) as [post [_ Heq]];
        [apply lookup_insert_eq | rewrite Heq]
    end.
    destruct (unlink_fault w (tarballName w)); cbn [snd trace app];
      apply in_or_app; left; apply in_or_app; left; apply packaging_events_tar.
Qed.

(* ===================================================================== *)
(** * Manifest validation *)
(* ===================================================================== *)

Lemma remove_dups_is_nil {X} `{EqDecision X} (l : list X) : remove_dups l = [] -> l = [].
Proof.
  destruct l as [| x l]; [reflexivity |]. intros Hnil.
  assert (Hx : x ∈ remove_dups (x :: l)) by (apply elem_of_remove_dups; left).
  rewrite Hnil in Hx. inversion Hx.
Qed.

(** The count is zero exactly when there is no [entries] mapping with a key. *)
Lemma storyCount_zero (index : Json.value) :
  storyCount index = 0 <->
  ~ exists entries, Json.get index "entries" = Some entries /\ has_keys entries.
Proof.
  unfold storyCount.
  destruct (Json.get index "entries") as [entries |].
  - destruct entries as [| b | r | t | items | fields]; cbn.
    + split; [intros _ (x & [= <-] & []) | reflexivity].
    + destruct b; (split; [intros _ (x & [= <-] & []) | reflexivity]).
    + destruct (negb (String.eqb r "0")); (split; [intros _ (x & [= <-] & []) | reflexivity]).
    + destruct (negb (String.eqb t "")); (split; [intros _ (x & [= <-] & []) | reflexivity]).
    + split.
      * intros Hlen (x & [= <-] & Hk). apply Hk. now apply length_zero_iff_nil.
      * intros Hno. destruct items as [| i items]; [reflexivity |].
        exfalso. apply Hno. eexists. split; [reflexivity | discriminate].
    + split.
      * intros Hlen (x & [= <-] & Hk). apply Hk.
        apply length_zero_iff_nil, remove_dups_is_nil in Hlen.
        destruct fields; [reflexivity | discriminate Hlen].
      * intros Hno. destruct fields as [| f fields]; [reflexivity |].
        exfalso. apply Hno. eexists. split; [reflexivity | discriminate].
  - split; [intros _ (x & [=] & _) | reflexivity].
Qed.

(** Whether [entries] is a mapping with a key can be decided. *)
Lemma classic_keys (index : Json.value) :
  (exists entries, Json.get index "entries" = Some entries /\ has_keys entries)
  \/ ~ (exists entries, Json.get index "entries" = Some entries /\ has_keys entries).
Proof.
  destruct (Json.get index "entries") as [entries |].
  - destruct entries as [| b | n | t | [| i items] | [| f fields]];
      try (right; intros (x & [= <-] & Hk); cbn in Hk; solve [destruct Hk | congruence]);
      left; eexists; (split; [reflexivity | discriminate]).
  - right. intros (x & [=] & _).
Qed.

(** C7. When project.json is absent or may not be read, [uploadStorybook]
    throws and neither calls [tar] nor changes any file; once the commit SHA
    and the branch have passed their checks, the error is the manifest-missing
    one, its message includes the resolved path of project.json, and the
    access check is the only step taken. More generally [tar] is called only
    in a run whose manifest validation passed: project.json and index.json
    readable and parsed, a string [storybookVersion], at least one story. *)
Theorem missing_manifest_stops_before_packaging :
  (forall (w : World) (opts : UploadStorybookOpts) (fs : gmap string string),
      let p := path_resolve w (storybookDir opts) "project.json" in
      fs !! p = None \/ unreadable w p = true ->
      (exists e evs,
          exec (uploadStorybook w opts) fs = (Throw e, fs, evs)
          /\ forall src dest lvl, ~ In (ETar src dest lvl) evs)
      /\ (isValidGitCommitHash (commitSha opts) = true ->
          valid_branch (branch opts) = true ->
          exists e,
            exec (uploadStorybook w opts) fs = (Throw e, fs, [EAccess p])
            /\ e = Js.new_Error ("Storybook build manifest does not exist: " +:+ p)
            /\ Js.includes (Js.message e) p = true))
  /\
  (forall (w : World) (opts : UploadStorybookOpts) (fs : gmap string string)
          (src dest : string) (lvl : CompressionLevel),
      In (ETar src dest lvl) (snd (exec (uploadStorybook w opts) fs)) ->
      exists index,
        manifest_valid w (storybookDir opts) fs index /\ storyCount index <> 0).
Proof.
  split.
  - intros w opts fs p Hmissing. split.
    + destruct (upload_validates_first w opts fs)
        as [(_ & _ & index & Hm & _) | Hstop]; [| exact Hstop].
      destruct Hm as (ptext & project & version & itext & [Hp Hpr] & _).
      fold p in Hp, Hpr. destruct Hmissing; congruence.
    + intros Hsha Hbr. apply negb_true_iff in Hbr.
      eexists. split; [| split; [reflexivity | apply includes_suffix]].
      destruct Hmissing as [Hnone | Hperm].
      * subst p. use_facts. reflexivity.
      * subst p. destruct (fs !! path_resolve w (storybookDir opts) "project.json") eqn:Hp;
          use_facts; reflexivity.
  - intros w opts fs src dest lvl Hin.
    destruct (upload_validates_first w opts fs)
      as [(_ & _ & index & Hm & Hn) | (e & evs & Hrun & Hno)].
    + exists index. split; assumption.
    + rewrite Hrun in Hin. exfalso. exact (Hno _ _ _ Hin).
Qed.

(** C7, on the fixture with an empty build directory. *)
Lemma missing_manifest_stops_before_packaging_witness :
  let w := Fixture.world (FetchResolves Fixture.accepted) None in
  let opts := Fixture.validOpts in
  let fs : gmap string string := ∅ in
  let p := path_resolve w (storybookDir opts) "project.json" in
  (fs !! p = None \/ unreadable w p = true)
  /\ exists e,
      exec (uploadStorybook w opts) fs = (Throw e, fs, [EAccess p])
      /\ e = Js.new_Error ("Storybook build manifest does not exist: " +:+ p)
      /\ Js.includes (Js.message e) p = true.
Proof.
  intros w opts fs p.
  assert (Hmissing : fs !! p = None \/ unreadable w p = true) by (left; reflexivity).
  split; [exact Hmissing |].
  destruct (proj1 missing_manifest_stops_before_packaging w opts fs Hmissing)
    as [_ Hfirst].
  exact (Hfirst eq_refl eq_refl).
Defined.

(** C8. With the inputs and project.json valid and index.json parsed to
    [index]: when [index] has no [entries] field, or an empty [entries]
    object, [uploadStorybook] throws the no-stories error, whose message
    includes the resolved path of index.json, and [tar] is not called; the
    same holds whenever [entries] is not a mapping with a key; and the run
    gets past this check, to the call of [tar], exactly when [entries] is a
    mapping with at least one key. *)
Theorem no_stories_without_entries :
  forall (w : World) (opts : UploadStorybookOpts) (fs : gmap string string)
         (index : Json.value),
    isValidGitCommitHash (commitSha opts) = true ->
    valid_branch (branch opts) = true ->
    manifest_valid w (storybookDir opts) fs index ->
    let ip := path_resolve w (storybookDir opts) "index.json" in
    let r := exec (uploadStorybook w opts) fs in
    let no_stories := Js.new_Error ("No stories found in index.json file: " +:+ ip) in
    (Json.get index "entries" = None \/ Json.get index "entries" = Some (Json.Obj []) ->
     fst (fst r) = Throw no_stories
     /\ Js.includes (Js.message no_stories) ip = true
     /\ snd (fst r) = fs
     /\ forall src dest lvl, ~ In (ETar src dest lvl) (snd r))
    /\ (In (ETar (storybookDir opts) (tarballName w) medium) (snd r) <->
        exists entries, Json.get index "entries" = Some entries /\ has_keys entries)
    /\ (~ (exists entries, Json.get index "entries" = Some entries /\ has_keys entries) ->
        fst (fst r) = Throw no_stories).
Proof.
  intros w opts fs index Hsha Hbr Hm ip r no_stories.
  assert (Hzero : storyCount index = 0 ->
                  r = (Throw no_stories, fs,
                       [EAccess (path_resolve w (storybookDir opts) "project.json");
                        EReadFile (path_resolve w (storybookDir opts) "project.json");
                        EReadFile ip])).
  { intros Hz. apply Nat.eqb_eq in Hz.
    destruct Hm as (ptext & project & version & itext
                    & [Hp Hpr] & Hpp & Hpt & Hpv & [Hi Hir] & Hip).
    pose proof Hbr as Hbr'. apply negb_true_iff in Hbr'.
    subst r ip no_stories. use_facts. reflexivity. }
  assert (Hpos : storyCount index <> 0 ->
                 In (ETar (storybookDir opts) (tarballName w) medium) (snd r)).
  { intros Hn. exact (upload_calls_tar w opts fs index Hsha Hbr Hm Hn). }
  pose proof (storyCount_zero index) as Hcount.
  split; [| split].
  - intros Hnone.
    assert (Hz : storyCount index = 0).
    { apply Hcount. intros (entries & Hget & Hk).
      destruct Hnone as [Hnone | Hempty]; rewrite Hget in *.
      - discriminate Hnone.
      - injection Hempty as ->. apply Hk. reflexivity. }
    rewrite (Hzero Hz). cbn [fst snd].
    split; [reflexivity |]. split; [apply includes_suffix |]. split; [reflexivity |].
    intros src dest lvl Hin. cbn in Hin. intuition discriminate.
  - split.
    + intros Hin.
      destruct (Nat.eq_dec (storyCount index) 0) as [Hz | Hn].
      * rewrite (Hzero Hz) in Hin. cbn in Hin. intuition discriminate.
      * destruct (classic_keys index) as [Hk | Hno]; [exact Hk |].
        exfalso. apply Hn, Hcount, Hno.
    + intros Hk. apply Hpos. intros Hz. apply Hcount in Hz. exact (Hz Hk).
  - intros Hno. apply Hcount in Hno. rewrite (Hzero Hno). reflexivity.
Qed.

(** C8, on the fixture with an index whose [entries] is empty. *)
Lemma no_stories_without_entries_witness :
  let w := Fixture.world (FetchResolves Fixture.accepted) None in
  let opts := Fixture.validOpts in
  let fs := Fixture.build_no_stories in
  let index := Fixture.index_empty_json in
  let ip := path_resolve w (storybookDir opts) "index.json" in
  let r := exec (uploadStorybook w opts) fs in
  let no_stories := Js.new_Error ("No stories found in index.json file: " +:+ ip) in
  (isValidGitCommitHash (commitSha opts) = true
   /\ valid_branch (branch opts) = true
   /\ manifest_valid w (storybookDir opts) fs index
   /\ Json.get index "entries" = Some (Json.Obj []))
  /\ fst (fst r) = Throw no_stories
  /\ Js.includes (Js.message no_stories) ip = true
  /\ snd (fst r) = fs
  /\ forall src dest lvl, ~ In (ETar src dest lvl) (snd r).
Proof.
  intros w opts fs index ip r no_stories.
  assert (Hsha : isValidGitCommitHash (commitSha opts) = true) by reflexivity.
  assert (Hbr : valid_branch (branch opts) = true) by reflexivity.
  assert (Hm : manifest_valid w (storybookDir opts) fs index).
  { exists Fixture.project_text, Fixture.project_json, "7.0.0", Fixture.index_empty_text.
    repeat split; vm_compute; reflexivity. }
  assert (Hentries : Json.get index "entries" = Some (Json.Obj [])) by reflexivity.
  split; [exact (conj Hsha (conj Hbr (conj Hm Hentries))) |].
  exact (proj1 (no_stories_without_entries w opts fs index Hsha Hbr Hm)
               (or_intror Hentries)).
Defined.

(* ===================================================================== *)
(** * The request *)
(* ===================================================================== *)

(** The headers of the object literal that [postTarball] gives to [fetch]. *)
Lemma spread_headers (opts : UploadStorybookOpts) (url body : string) :
  carries opts
    (EFetch url
       {| method := "POST";
          headers :=
            [("Content-Type", "application/gzip");
             ("X-Vizdiff-Commit-Sha", commitSha opts);
             ("X-Vizdiff-Branch", branch opts)]
            ++ spread_string "X-Vizdiff-Base-Commit-Sha" (baseCommitSha opts)
            ++ spread_string "X-Vizdiff-Base-Branch" (baseBranch opts)
            ++ spread_number "X-Vizdiff-PR-Number" (prNumber opts);
          body := body |}).
Proof.
  unfold carries, spread_string, spread_number. cbn [headers].
  destruct (truthy_string (baseCommitSha opts)) eqn:Hc;
    destruct (truthy_string (baseBranch opts)) eqn:Hb;
    destruct (truthy_number (prNumber opts));
    destruct (baseCommitSha opts) as [c |]; try discriminate Hc;
    destruct (baseBranch opts) as [b |]; try discriminate Hb;
    repeat split; reflexivity.
Qed.

Lemma uploadStorybook_carries w opts :
  tame (carries opts) false (uploadStorybook w opts).
Proof.
  unfold uploadStorybook.
  repeat mstep; try exact I. apply spread_headers.
Qed.

(** C3, as amended. Every request that [uploadStorybook] submits carries
    X-Vizdiff-Commit-Sha and X-Vizdiff-Branch; it carries
    X-Vizdiff-Base-Commit-Sha exactly when [baseCommitSha] is a non-empty
    string and X-Vizdiff-Base-Branch exactly when [baseBranch] is one, each
    independently of the other. *)
Theorem base_headers_sent_independently :
  forall (w : World) (opts : UploadStorybookOpts) (fs : gmap string string)
         (url : string) (req : Request),
    In (EFetch url req) (snd (exec (uploadStorybook w opts) fs)) ->
    header_of "X-Vizdiff-Commit-Sha" (headers req) = Some (commitSha opts)
    /\ header_of "X-Vizdiff-Branch" (headers req) = Some (branch opts)
    /\ header_of "X-Vizdiff-Base-Commit-Sha" (headers req)
       = (if truthy_string (baseCommitSha opts) then baseCommitSha opts else None)
    /\ header_of "X-Vizdiff-Base-Branch" (headers req)
       = (if truthy_string (baseBranch opts) then baseBranch opts else None).
Proof.
  intros w opts fs url req Hin.
  pose proof (tame_exec _ _ _ fs (uploadStorybook_carries w opts)) as Hall.
  rewrite Stdlib.Lists.List.Forall_forall in Hall.
  exact (Hall _ Hin).
Qed.

(** C3, on the fixture with a base commit and no base branch: the request
    carries the base commit header alone. *)
Lemma base_headers_sent_independently_witness :
  let w := Fixture.world (FetchResolves Fixture.accepted) None in
  let req := Fixture.baseCommitOnly_request in
  In (EFetch Fixture.upload_url req)
     (snd (exec (uploadStorybook w Fixture.baseCommitOnly) Fixture.build))
  /\ header_of "X-Vizdiff-Commit-Sha" (headers req) = Some Fixture.sha_a
  /\ header_of "X-Vizdiff-Branch" (headers req) = Some "main"
  /\ header_of "X-Vizdiff-Base-Commit-Sha" (headers req) = Some Fixture.sha_b
  /\ header_of "X-Vizdiff-Base-Branch" (headers req) = None.
Proof.
  intros w req.
  assert (Hin : In (EFetch Fixture.upload_url req)
                   (snd (exec (uploadStorybook w Fixture.baseCommitOnly) Fixture.build))).
  { vm_compute. do 9 right. left. reflexivity. }
  split; [exact Hin |].
  exact (base_headers_sent_independently w Fixture.baseCommitOnly Fixture.build
           Fixture.upload_url req Hin).
Defined.

(** C3 as stated fails. On the fixture, with a base commit and no base
    branch, the request still carries X-Vizdiff-Base-Commit-Sha. *)
Lemma base_commit_header_without_base_branch :
  let w := Fixture.world (FetchResolves Fixture.accepted) None in
  let evs := snd (exec (uploadStorybook w Fixture.baseCommitOnly) Fixture.build) in
  (baseBranch Fixture.baseCommitOnly = None
   /\ In (EFetch Fixture.upload_url Fixture.baseCommitOnly_request) evs
   /\ header_of "X-Vizdiff-Base-Commit-Sha" (headers Fixture.baseCommitOnly_request)
      = Some Fixture.sha_b)
  /\ ~ (forall (w : World) (opts : UploadStorybookOpts) (fs : gmap string string)
               (url : string) (req : Request),
           In (EFetch url req) (snd (exec (uploadStorybook w opts) fs)) ->
           truthy_string (baseCommitSha opts) && truthy_string (baseBranch opts) = false ->
           header_of "X-Vizdiff-Base-Commit-Sha" (headers req) = None
           /\ header_of "X-Vizdiff-Base-Branch" (headers req) = None).
Proof.
  intros w evs.
  assert (Hin : In (EFetch Fixture.upload_url Fixture.baseCommitOnly_request) evs).
  { vm_compute. do 9 right. left. reflexivity. }
  split.
  - split; [reflexivity |]. split; [exact Hin | reflexivity].
  - intros H.
    destruct (H _ _ _ _ _ Hin eq_refl) as [Hsent _].
    vm_compute in Hsent. discriminate Hsent.
Qed.

(* ===================================================================== *)
(** * Cleanup *)
(* ===================================================================== *)

(** C1, as amended. Whenever [tar] was called and wrote the archive,
    [fs.unlink] is called exactly once in the run, on the archive's path,
    however the exchange with the service ended (upload accepted, transport
    exception, non-success status, or success status with [success:false]);
    and when that unlink is not refused by the system, the archive does not
    exist afterwards. *)
Theorem archive_unlinked_once :
  forall (w : World) (opts : UploadStorybookOpts) (fs fs' : gmap string string)
         (o : Completion unit) (evs : list Event) (bytes : string),
    exec (uploadStorybook w opts) fs = (o, fs', evs) ->
    In (ETar (storybookDir opts) (tarballName w) medium) evs ->
    zip_tar w (storybookDir opts) (tarballName w) medium = inr bytes ->
    unlinked evs = [tarballName w]
    /\ (unlink_fault w (tarballName w) = None -> fs' !! tarballName w = None).
Proof.
  intros w opts fs fs' o evs bytes Hrun Hin Hzip.
  destruct (upload_after_packaging w opts fs o fs' evs bytes Hrun Hin Hzip)
    as (pre & post & Hpre & Hpost & Hcase).
  destruct (unlink_fault w (tarballName w)) as [e |];
    destruct Hcase as (_ & -> & ->);
    rewrite !unlinked_app, (unlinked_none pre Hpre), (unlinked_none post Hpost);
    (split; [reflexivity |]).
  - discriminate.
  - intros _. apply lookup_delete_eq.
Qed.

(** C1, on the fixture with an accepted upload. *)
Lemma archive_unlinked_once_witness :
  let w := Fixture.world (FetchResolves Fixture.accepted) None in
  let r := exec (uploadStorybook w Fixture.validOpts) Fixture.build in
  (In (ETar "/path/to/storybook" Fixture.tarball medium) (snd r)
   /\ zip_tar w "/path/to/storybook" Fixture.tarball medium = inr "mock tarball content"
   /\ unlink_fault w Fixture.tarball = None)
  /\ unlinked (snd r) = [Fixture.tarball]
  /\ snd (fst r) !! Fixture.tarball = None.
Proof.
  intros w r.
  assert (Hin : In (ETar "/path/to/storybook" Fixture.tarball medium) (snd r)).
  { vm_compute. do 4 right. left. reflexivity. }
  assert (Hzip : zip_tar w "/path/to/storybook" Fixture.tarball medium
                 = inr "mock tarball content") by reflexivity.
  assert (Hok : unlink_fault w Fixture.tarball = None) by reflexivity.
  split; [exact (conj Hin (conj Hzip Hok)) |].
  destruct (archive_unlinked_once w Fixture.validOpts Fixture.build
              (snd (fst r)) (fst (fst r)) (snd r) "mock tarball content"
              eq_refl Hin Hzip) as [Hone Hgone].
  split; [exact Hone | exact (Hgone Hok)].
Defined.

(** C1 as stated fails. On the fixture with an accepted upload and an unlink
    that the system refuses (EPERM): the archive is written, the unlink is
    called once, and the archive is still there after the call. *)
Lemma archive_survives_refused_unlink :
  let w := Fixture.world (FetchResolves Fixture.accepted) (Some Fixture.EPERM) in
  let r := exec (uploadStorybook w Fixture.validOpts) Fixture.build in
  (In (ETar "/path/to/storybook" Fixture.tarball medium) (snd r)
   /\ zip_tar w "/path/to/storybook" Fixture.tarball medium = inr "mock tarball content"
   /\ unlinked (snd r) = [Fixture.tarball]
   /\ snd (fst r) !! Fixture.tarball = Some "mock tarball content")
  /\ ~ (forall (w : World) (opts : UploadStorybookOpts) (fs fs' : gmap string string)
               (o : Completion unit) (evs : list Event) (bytes : string),
           exec (uploadStorybook w opts) fs = (o, fs', evs) ->
           In (ETar (storybookDir opts) (tarballName w) medium) evs ->
           zip_tar w (storybookDir opts) (tarballName w) medium = inr bytes ->
           unlinked evs = [tarballName w] /\ fs' !! tarballName w = None).
Proof.
  intros w r.
  assert (Hin : In (ETar "/path/to/storybook" Fixture.tarball medium) (snd r)).
  { vm_compute. do 4 right. left. reflexivity. }
  assert (Hstays : snd (fst r) !! Fixture.tarball = Some "mock tarball content").
  { vm_compute. reflexivity. }
  split.
  - split; [exact Hin |]. split; [reflexivity |].
    split; [vm_compute; reflexivity | exact Hstays].
  - intros H.
    destruct (H w Fixture.validOpts Fixture.build (snd (fst r)) (fst (fst r)) (snd r)
                "mock tarball content" eq_refl Hin eq_refl) as [_ Hgone].
    change (tarballName w) with Fixture.tarball in Hgone.
    rewrite Hstays in Hgone. discriminate Hgone.
Qed.

(** The four outcomes of the exchange, on the fixture: one unlink each, and
    no archive left. *)
Lemma archive_unlinked_in_each_outcome :
  Forall (fun response =>
            let r := exec (uploadStorybook (Fixture.world response None) Fixture.validOpts)
                          Fixture.build in
            unlinked (snd r) = [Fixture.tarball] /\ snd (fst r) !! Fixture.tarball = None)
         [FetchResolves Fixture.accepted;
          FetchRejects (Js.new_Error "fetch failed");
          FetchResolves Fixture.forbidden;
          FetchResolves Fixture.refused].
Proof. repeat constructor; vm_compute; reflexivity. Qed.

(** C2, as amended. Once the archive is written, an unlink that the system
    refuses decides the result of [uploadStorybook]: the call throws the
    error of the unlink, whatever the submission and the reading of the
    response had produced, and the archive stays. *)
Theorem refused_unlink_is_the_result :
  forall (w : World) (opts : UploadStorybookOpts) (fs fs' : gmap string string)
         (o : Completion unit) (evs : list Event) (bytes : string) (e : Js.Error),
    exec (uploadStorybook w opts) fs = (o, fs', evs) ->
    In (ETar (storybookDir opts) (tarballName w) medium) evs ->
    zip_tar w (storybookDir opts) (tarballName w) medium = inr bytes ->
    unlink_fault w (tarballName w) = Some e ->
    o = Throw e /\ fs' !! tarballName w = Some bytes.
Proof.
  intros w opts fs fs' o evs bytes e Hrun Hin Hzip Hfault.
  destruct (upload_after_packaging w opts fs o fs' evs bytes Hrun Hin Hzip)
    as (pre & post & _ & _ & Hcase).
  rewrite Hfault in Hcase. destruct Hcase as (-> & -> & _).
  split; [reflexivity | apply lookup_insert_eq].
Qed.

(** C2, on the fixture: the service reports [success:false], the unlink is
    refused, and the call throws the error of the unlink. *)
Lemma refused_unlink_is_the_result_witness :
  let w := Fixture.world (FetchResolves Fixture.refused) (Some Fixture.EPERM) in
  let r := exec (uploadStorybook w Fixture.validOpts) Fixture.build in
  (In (ETar "/path/to/storybook" Fixture.tarball medium) (snd r)
   /\ zip_tar w "/path/to/storybook" Fixture.tarball medium = inr "mock tarball content"
   /\ unlink_fault w Fixture.tarball = Some Fixture.EPERM)
  /\ fst (fst r) = Throw Fixture.EPERM
  /\ snd (fst r) !! Fixture.tarball = Some "mock tarball content".
Proof.
  intros w r.
  assert (Hin : In (ETar "/path/to/storybook" Fixture.tarball medium) (snd r)).
  { vm_compute. do 4 right. left. reflexivity. }
  assert (Hzip : zip_tar w "/path/to/storybook" Fixture.tarball medium
                 = inr "mock tarball content") by reflexivity.
  assert (Hfault : unlink_fault w Fixture.tarball = Some Fixture.EPERM) by reflexivity.
  split; [exact (conj Hin (conj Hzip Hfault)) |].
  exact (refused_unlink_is_the_result w Fixture.validOpts Fixture.build
           (snd (fst r)) (fst (fst r)) (snd r) "mock tarball content" Fixture.EPERM
           eq_refl Hin Hzip Hfault).
Defined.

(** C2 as stated fails. On the fixture with an accepted upload, the call
    succeeds when the unlink succeeds and throws the error of the unlink
    (EPERM) when the system refuses it: the failure of the deletion is
    escalated into the result. *)
Lemma refused_unlink_changes_the_result :
  (fst (fst (exec (uploadStorybook (Fixture.world (FetchResolves Fixture.accepted) None)
                                   Fixture.validOpts) Fixture.build))
   = Normal tt
   /\ fst (fst (exec (uploadStorybook
                        (Fixture.world (FetchResolves Fixture.accepted)
                                       (Some Fixture.EPERM))
                        Fixture.validOpts) Fixture.build))
      = Throw Fixture.EPERM)
  /\ ~ (forall (w : World) (opts : UploadStorybookOpts) (fs : gmap string string)
               (fault : string -> option Js.Error),
           fst (fst (exec (uploadStorybook (with_unlink_fault w fault) opts) fs))
           = fst (fst (exec (uploadStorybook (with_unlink_fault w (fun _ => None)) opts)
                            fs))).
Proof.
  split.
  - split; vm_compute; reflexivity.
  - intros H.
    specialize (H (Fixture.world (FetchResolves Fixture.accepted) None)
                  Fixture.validOpts Fixture.build (fun _ => Some Fixture.EPERM)).
    vm_compute in H. discriminate H.
Qed.

(* ===================================================================== *)
(** * Base resolution *)
(* ===================================================================== *)

Lemma findGitRoot_fuel_tame w (P : Event -> Prop) fuel :
  (forall p, P (EExistsSync p)) ->
  forall dir, tame P true (findGitRoot_fuel w fuel dir).
Proof.
  intros HP. induction fuel as [| fuel IH]; intros dir; cbn [findGitRoot_fuel];
    repeat mstep; try apply HP; apply IH.
Qed.

Lemma findGitRoot_tame w (P : Event -> Prop) dir :
  (forall p, P (EExistsSync p)) -> tame P true (findGitRoot w dir).
Proof.
  intros HP. unfold findGitRoot. repeat mstep. now apply findGitRoot_fuel_tame.
Qed.

Lemma bind_normal {A B} (m : M A) (k : A -> M B) st a st' :
  m st = (Normal a, st') -> bind m k st = k a st'.
Proof. intros H. unfold bind. rewrite H. reflexivity. Qed.

Lemma find_origin (remotes : list string) :
  In "origin" remotes -> find (String.eqb "origin") remotes = Some "origin".
Proof.
  induction remotes as [| r remotes IH]; [intros [] |].
  intros [-> | Hin]; cbn [find].
  - rewrite String.eqb_refl. reflexivity.
  - destruct (String.eqb_spec "origin" r) as [<- | _]; [reflexivity | exact (IH Hin)].
Qed.

(** When the base is resolvable, [getBaseCommitShaAndBranch] comes to the
    comparison of the branch with the resolved base branch, having searched
    the repository and asked for the log, the remotes and [origin/HEAD]. *)
Lemma resolution_reaches_branches w dir commitSha branch baseBranch fs gitDir defaultBranch :
  base_resolvable w dir fs gitDir defaultBranch ->
  exists pre,
    Forall repository_event pre /\
    let actualBaseBranch := resolved_base_branch baseBranch defaultBranch in
    let st := {| files := fs;
                 trace := pre ++ [EGitLog gitDir; EGitRemotes gitDir;
                                  EGitRevparse gitDir ["--abbrev-ref"; "origin/HEAD"]] |} in
    getBaseCommitShaAndBranch w dir commitSha branch baseBranch
      {| files := fs; trace := [] |}
    = if String.eqb branch actualBaseBranch then
        (baseCommit <- git_do (EGitRevparse gitDir [commitSha +:+ "~1"])
                              (git_revparse w gitDir [commitSha +:+ "~1"]) ;;
         ret (Some baseCommit, Some actualBaseBranch)) st
      else
        try_catch
          (mergeBase <- git_do (EGitRaw gitDir ["merge-base"; branch; actualBaseBranch])
                               (git_raw w gitDir ["merge-base"; branch; actualBaseBranch]) ;;
           ret (Some (Js.trim mergeBase), Some actualBaseBranch))
          (fun err => throw (Js.new_Error
             ("Failed to find merge base between " +:+ dq +:+ branch +:+ dq
              +:+ " and " +:+ dq +:+ actualBaseBranch +:+ dq +:+ ": "
              +:+ Js.Error_toString err))) st.
Proof.
  intros (Hroot & Hne & (latest & Hlog) & (remotes & Hrem & Horigin) & Hrev).
  apply find_origin in Horigin.
  unfold exec in Hroot. cbn [fst] in Hroot.
  destruct (tame_sound _ _ _ (findGitRoot_tame w repository_event dir (fun _ => I)))
    as [Hemits Hpure].
  destruct (Hemits {| files := fs; trace := [] |}) as [pre [Htr Hpre]].
  pose proof (proj1 (Hpure eq_refl) {| files := fs; trace := [] |}) as Hfs.
  destruct (findGitRoot w dir {| files := fs; trace := [] |}) as [o [fs1 tr1]] eqn:Erun.
  cbn [fst snd files trace app] in *. subst o fs1 tr1.
  exists pre. split; [exact Hpre |].
  cbv zeta. unfold getBaseCommitShaAndBranch.
  rewrite (bind_normal _ _ _ _ _ Erun).
  apply String.eqb_neq in Hne.
  unfold resolved_base_branch.
  destruct baseBranch as [b |]; [destruct (String.eqb b "") eqn:Hb |];
    use_git_facts; change ("origin" +:+ "/HEAD") with "origin/HEAD";
    use_git_facts; rewrite <- ?app_assoc;
    match goal with
    | |- context [String.eqb branch ?x] => destruct (String.eqb branch x)
    end; unfold_git; rewrite <- ?app_assoc; reflexivity.
Qed.

(** The fixture's repository is found from the build directory. *)
Lemma fixture_resolvable :
  base_resolvable (Fixture.world (FetchResolves Fixture.accepted) None)
                  "/path/to/storybook" Fixture.build "/path/to" "origin/main".
Proof.
  split; [vm_compute; reflexivity |].
  split; [discriminate |].
  split; [exists Fixture.sha_a; reflexivity |].
  split; [exists ["origin"]; split; [reflexivity | left; reflexivity] |].
  reflexivity.
Qed.

Lemma repository_event_not_raw pre d args :
  Forall repository_event pre -> ~ In (EGitRaw d args) pre.
Proof.
  intros Hall Hin. rewrite Stdlib.Lists.List.Forall_forall in Hall.
  exact (Hall _ Hin).
Qed.

(** C5. When base resolution runs (the repository is found, it has commits
    and a remote named origin whose default branch resolves) and the current
    branch is the resolved base branch, the base commit is the immediate
    parent of the current commit, what git resolves [commitSha~1] to, paired
    with that branch (and the error of git when there is no such revision);
    no merge-base query is issued. *)
Theorem parent_commit_on_base_branch :
  forall (w : World) (dir commitSha branch : string) (baseBranch : option string)
         (fs : gmap string string) (gitDir defaultBranch : string),
    base_resolvable w dir fs gitDir defaultBranch ->
    branch = resolved_base_branch baseBranch defaultBranch ->
    let r := exec (getBaseCommitShaAndBranch w dir commitSha branch baseBranch) fs in
    fst (fst r)
    = match parent_of w gitDir commitSha with
      | inr parent => Normal (Some parent, Some branch)
      | inl e => Throw e
      end
    /\ (forall d args, ~ In (EGitRaw d args) (snd r)).
Proof.
  intros w dir commitSha branch baseBranch fs gitDir defaultBranch Hres Hbranch r.
  destruct (resolution_reaches_branches w dir commitSha branch baseBranch fs gitDir
              defaultBranch Hres) as [pre [Hpre Heq]].
  subst r. unfold exec. rewrite Heq. clear Heq. cbv zeta.
  rewrite <- Hbranch, String.eqb_refl. unfold parent_of. unfold_git.
  destruct (git_revparse w gitDir [commitSha +:+ "~1"]) as [e | parent];
    (split; [reflexivity |]); intros d args Hin; cbn [snd trace] in Hin;
    rewrite !in_app_iff in Hin; cbn [In] in Hin;
    pose proof (repository_event_not_raw pre d args Hpre);
    intuition discriminate.
Qed.

(** C5, on the fixture, from [main]: the base commit is the parent [sha_b]. *)
Lemma parent_commit_on_base_branch_witness :
  let w := Fixture.world (FetchResolves Fixture.accepted) None in
  let r := exec (getBaseCommitShaAndBranch w "/path/to/storybook" Fixture.sha_a "main" None)
                Fixture.build in
  (base_resolvable w "/path/to/storybook" Fixture.build "/path/to" "origin/main"
   /\ "main" = resolved_base_branch None "origin/main")
  /\ fst (fst r) = Normal (Some Fixture.sha_b, Some "main")
  /\ (forall d args, ~ In (EGitRaw d args) (snd r)).
Proof.
  intros w r.
  assert (Hbranch : "main" = resolved_base_branch None "origin/main") by reflexivity.
  split; [exact (conj fixture_resolvable Hbranch) |].
  exact (parent_commit_on_base_branch w "/path/to/storybook" Fixture.sha_a "main" None
           Fixture.build "/path/to" "origin/main" fixture_resolvable Hbranch).
Defined.

(** X18. When base resolution runs and the current branch differs from the
    resolved base branch, the answer of [git.raw] to the merge-base query
    decides. If it rejects (git wrote an error, as for a name that is no
    branch), resolution throws [Failed to find merge base between "<branch>"
    and "<base>": <err>], whose message names both branches. If it resolves,
    the base commit is its output, trimmed, whatever that is: the output is
    not looked at, and an empty one gives an empty base commit and no
    error. *)
Theorem merge_base_output_is_not_checked :
  forall (w : World) (dir commitSha branch : string) (baseBranch : option string)
         (fs : gmap string string) (gitDir defaultBranch : string),
    base_resolvable w dir fs gitDir defaultBranch ->
    let base := resolved_base_branch baseBranch defaultBranch in
    branch <> base ->
    let r := exec (getBaseCommitShaAndBranch w dir commitSha branch baseBranch) fs in
    match merge_base_of w gitDir branch base with
    | inl err =>
        exists e,
          fst (fst r) = Throw e
          /\ e = Js.new_Error
                   ("Failed to find merge base between " +:+ dq +:+ branch +:+ dq
                    +:+ " and " +:+ dq +:+ base +:+ dq +:+ ": " +:+ Js.Error_toString err)
          /\ Js.includes (Js.message e) branch = true
          /\ Js.includes (Js.message e) base = true
    | inr out =>
        fst (fst r) = Normal (Some (Js.trim out), Some base)
        /\ (out = "" -> fst (fst r) = Normal (Some "", Some base))
    end.
Proof.
  intros w dir commitSha branch baseBranch fs gitDir defaultBranch Hres base Hbranch r.
  destruct (resolution_reaches_branches w dir commitSha branch baseBranch fs gitDir
              defaultBranch Hres) as [pre [Hpre Heq]].
  subst r. unfold exec. rewrite Heq. clear Heq. cbv zeta. fold base.
  apply String.eqb_neq in Hbranch. rewrite Hbranch.
  unfold merge_base_of. unfold_git.
  destruct (git_raw w gitDir ["merge-base"; branch; base]) as [err | out];
    [| split; [reflexivity | intros ->; reflexivity]].
  eexists. split; [reflexivity |]. split; [reflexivity |].
  cbn [Js.message Js.new_Error]. unfold Js.includes. rewrite !chars_append.
  split; repeat first [apply includes_chars_here | apply includes_chars_skip].
Qed.

(** X18, on the fixture, from a name that is no branch: git rejects the
    query. *)
Lemma merge_base_output_is_not_checked_witness :
  let w := Fixture.world (FetchResolves Fixture.accepted) None in
  let r := exec (getBaseCommitShaAndBranch w "/path/to/storybook" Fixture.sha_a "nosuch" None)
                Fixture.build in
  (base_resolvable w "/path/to/storybook" Fixture.build "/path/to" "origin/main"
   /\ "nosuch" <> resolved_base_branch None "origin/main")
  /\ exists e,
      fst (fst r) = Throw e
      /\ e = Js.new_Error
               ("Failed to find merge base between " +:+ dq +:+ "nosuch" +:+ dq
                +:+ " and " +:+ dq +:+ "main" +:+ dq +:+ ": "
                +:+ "GitError: fatal: Not a valid object name nosuch")
      /\ Js.includes (Js.message e) "nosuch" = true
      /\ Js.includes (Js.message e) "main" = true.
Proof.
  intros w r.
  assert (Hbranch : "nosuch" <> resolved_base_branch None "origin/main") by discriminate.
  split; [exact (conj fixture_resolvable Hbranch) |].
  exact (merge_base_output_is_not_checked w "/path/to/storybook" Fixture.sha_a "nosuch" None
           Fixture.build "/path/to" "origin/main" fixture_resolvable Hbranch).
Defined.

(** On the fixture, from [feature]: the base commit is the merge base
    [sha_c], without the line end git prints after it. *)
Lemma merge_base_of_feature :
  fst (fst (exec (getBaseCommitShaAndBranch
                    (Fixture.world (FetchResolves Fixture.accepted) None)
                    "/path/to/storybook" Fixture.sha_a "feature" None)
                 Fixture.build))
  = Normal (Some Fixture.sha_c, Some "main").
Proof. vm_compute. reflexivity. Qed.

Lemma bind_ret_l {A B} (a : A) (k : A -> M B) : bind (ret a) k = k a.
Proof. reflexivity. Qed.

Lemma uploadStorybook_steps w opts :
  tame (fun e => upload_step e /\ carries opts e) false (uploadStorybook w opts).
Proof.
  unfold uploadStorybook.
  repeat mstep; try (split; exact I). split; [exact I | apply spread_headers].
Qed.

Lemma tame_impure P {A} (m : M A) : tame P true m -> tame P false m.
Proof. induction 1; try (constructor; auto; fail); congruence. Qed.

Lemma getCommitSha_tame w (P : Event -> Prop) dir options :
  (truthy_string (commit options) = false ->
   (forall p, P (EExistsSync p)) /\ (forall d, P (EGitLog d))) ->
  tame P false (getCommitSha w dir options).
Proof.
  intros HP. unfold getCommitSha.
  destruct (truthy_string (commit options)); [apply tame_ret |].
  destruct (HP eq_refl) as [Hexists Hlog].
  apply tame_bind; [now apply tame_impure, findGitRoot_tame | intros gitDir].
  repeat mstep. apply Hlog.
Qed.

Lemma getBranch_tame w (P : Event -> Prop) dir options :
  (truthy_string (branch_arg options) = false ->
   (forall p, P (EExistsSync p)) /\ (forall d, P (EGitStatus d))) ->
  tame P false (getBranch w dir options).
Proof.
  intros HP. unfold getBranch.
  destruct (truthy_string (branch_arg options)); [apply tame_ret |].
  destruct (HP eq_refl) as [Hexists Hstatus].
  apply tame_bind; [now apply tame_impure, findGitRoot_tame | intros gitDir].
  repeat mstep. apply Hstatus.
Qed.

Lemma getToken_tame w (P : Event -> Prop) options :
  (forall text, P (EError text)) -> (forall code, P (EExit code)) ->
  tame P false (getToken w options).
Proof. intros HP HQ. unfold getToken. repeat mstep; first [apply HP | apply HQ]. Qed.

(** With both [--base-commit] and [--base-branch] given (non-empty), no
    event of a run of [vizdiff] is a query that only base resolution could
    explain, and every request carries the given pair. *)
Lemma explicit_base_events :
  forall (w : World) (dir : string) (options : CommandArgs) (fs : gmap string string)
         (c b : string),
    baseCommit options = Some c -> c <> "" ->
    baseBranch_arg options = Some b -> b <> "" ->
    let evs := snd (exec (vizdiff w dir options) fs) in
    (forall e, In e evs -> ~ base_query options e)
    /\ (forall url req,
           In (EFetch url req) evs ->
           header_of "X-Vizdiff-Base-Commit-Sha" (headers req) = Some c
           /\ header_of "X-Vizdiff-Base-Branch" (headers req) = Some b).
Proof.
  intros w dir options fs c b Hc Hcne Hb Hbne evs.
  apply String.eqb_neq in Hcne, Hbne.
  assert (Hall : Forall (fun e => ~ base_query options e
                                  /\ match e with
                                     | EFetch _ req =>
                                         header_of "X-Vizdiff-Base-Commit-Sha" (headers req) = Some c
                                         /\ header_of "X-Vizdiff-Base-Branch" (headers req) = Some b
                                     | _ => True
                                     end) evs).
  { subst evs. apply (tame_exec _ false). unfold vizdiff.
    rewrite Hc, Hb. unfold truthy_string at 1 2. rewrite Hcne, Hbne. cbn [negb andb].
    apply tame_bind;
      [apply getToken_tame; intros x; (split; [intros [] | exact I]) |].
    intros projectToken.
    apply tame_bind.
    { apply getCommitSha_tame. intros Hcommit.
      split; intros x; (split; [cbn; intuition congruence | exact I]). }
    intros commitSha.
    apply tame_bind.
    { apply getBranch_tame. intros Hbranch.
      split; intros x; (split; [cbn; intuition congruence | exact I]). }
    intros branch.
    rewrite bind_ret_l. cbn [fst snd].
    apply tame_try_catch.
    - eapply tame_weaken; [| apply uploadStorybook_steps].
      intros e [Hstep Hcarries]. split.
      + destruct e; cbn in Hstep |- *; try tauto.
      + destruct e; try exact I. destruct Hcarries as (_ & _ & Hbc & Hbb).
        cbn [baseCommitSha baseBranch truthy_string] in Hbc, Hbb.
        rewrite Hcne in Hbc. rewrite Hbne in Hbb. split; assumption.
    - intros err. repeat mstep; (split; [intros [] | exact I]). }
  rewrite Stdlib.Lists.List.Forall_forall in Hall. split.
  - intros e Hin. exact (proj1 (Hall e Hin)).
  - intros url req Hin. exact (proj2 (Hall _ Hin)).
Qed.

(* ===================================================================== *)
(** * The checks of uploadStorybook, one by one *)
(* ===================================================================== *)

(** A derivation of [tame] gives the events a run appends. *)
Lemma trace_grows P pure {A} (m : M A) (st : State) :
  tame P pure m -> exists evs, trace (snd (m st)) = trace st ++ evs.
Proof.
  intros Hm. destruct (proj1 (tame_sound P pure m Hm) st) as [evs [Htr _]].
  exists evs. exact Htr.
Qed.

Lemma uploadStorybook_any w opts : tame (fun _ => True) false (uploadStorybook w opts).
Proof. unfold uploadStorybook. repeat mstep; exact I. Qed.

(** A run from any trace is the run from the empty one, after that trace. *)
Lemma tame_frame P pure {A} (m : M A) :
  tame P pure m ->
  forall fs tr,
    m {| files := fs; trace := tr |}
    = (fst (m {| files := fs; trace := [] |}),
       {| files := files (snd (m {| files := fs; trace := [] |}));
          trace := tr ++ trace (snd (m {| files := fs; trace := [] |})) |}).
Proof.
  induction 1 as [A a | A e | A r | e He | | fs0 Hpure | A code Hpure He
                  | A B m k Hm IHm Hk IHk | A body handler Hb IHb Hh IHh
                  | A body cleanup Hb IHb Hc IHc]; intros fs tr.
  - cbn. rewrite app_nil_r. reflexivity.
  - cbn. rewrite app_nil_r. reflexivity.
  - destruct r; cbn; rewrite app_nil_r; reflexivity.
  - reflexivity.
  - cbn. rewrite app_nil_r. reflexivity.
  - cbn. rewrite app_nil_r. reflexivity.
  - reflexivity.
  - unfold bind. rewrite (IHm fs tr).
    destruct (m {| files := fs; trace := [] |}) as [[a | e |] [fs1 tr1]];
      cbn [fst snd files trace]; try reflexivity.
    rewrite (IHk a fs1 (tr ++ tr1)), (IHk a fs1 tr1).
    cbn [fst snd files trace]. rewrite app_assoc. reflexivity.
  - unfold try_catch. rewrite (IHb fs tr).
    destruct (body {| files := fs; trace := [] |}) as [[a | e |] [fs1 tr1]];
      cbn [fst snd files trace]; try reflexivity.
    rewrite (IHh e fs1 (tr ++ tr1)), (IHh e fs1 tr1).
    cbn [fst snd files trace]. rewrite app_assoc. reflexivity.
  - unfold try_finally. rewrite (IHb fs tr).
    destruct (body {| files := fs; trace := [] |}) as [[a | e |] [fs1 tr1]];
      cbn [fst snd files trace]; try reflexivity;
      rewrite (IHc fs1 (tr ++ tr1)), (IHc fs1 tr1);
      destruct (cleanup {| files := fs1; trace := [] |}) as [[[] | e' |] [fs2 tr2]];
      cbn [fst snd files trace]; rewrite app_assoc; reflexivity.
Qed.

(** X1. After the commit SHA has passed its check, a branch name that is
    empty or longer than 255 code units makes [uploadStorybook] throw
    [Invalid branch name: "<branch>"] before anything is read: no event, the
    files untouched. A name of 1 to 255 code units passes: the first step of
    the run is then the access check of project.json. *)
Theorem branch_name_bounds :
  forall (w : World) (opts : UploadStorybookOpts) (fs : gmap string string),
    isValidGitCommitHash (commitSha opts) = true ->
    ((branch opts = "" \/ 255 < String.length (branch opts)) ->
     exec (uploadStorybook w opts) fs
     = (Throw (Js.new_Error ("Invalid branch name: " +:+ dq +:+ branch opts +:+ dq)), fs, []))
    /\ (branch opts <> "" -> String.length (branch opts) <= 255 ->
        exists rest,
          snd (exec (uploadStorybook w opts) fs)
          = EAccess (path_resolve w (storybookDir opts) "project.json") :: rest).
Proof.
  intros w opts fs Hsha. split.
  - intros Hbad.
    assert (Hbr : String.eqb (branch opts) "" || (255 <? String.length (branch opts)) = true).
    { destruct Hbad as [-> | Hlong]; [reflexivity |].
      apply orb_true_iff. right. now apply Nat.ltb_lt. }
    use_facts. reflexivity.
  - intros Hne Hlen.
    assert (Hbr : String.eqb (branch opts) "" || (255 <? String.length (branch opts)) = false).
    { apply orb_false_iff. split; [now apply String.eqb_neq | apply Nat.ltb_ge; lia]. }
    unfold exec. cbn [snd]. unfold uploadStorybook. rewrite Hsha, Hbr. cbn [negb]. cbv zeta.
    set (p := path_resolve w (storybookDir opts) "project.json").
    match goal with
    | |- context [bind ?x ?k] =>
        assert (Hk : tame (fun _ => True) false (k tt)) by (repeat mstep; exact I);
        set (K := k) in *
    end.
    unfold bind at 1. unfold try_catch at 1.
    cbv beta iota zeta delta [fs_access bind emit get_files ret throw].
    cbn [files trace app].
    destruct (fs !! p); [destruct (unreadable w p) |]; cbn [snd trace]; eauto.
    destruct (trace_grows _ _ (K tt) {| files := fs; trace := [EAccess p] |} Hk) as [evs Hevs].
    cbn [trace app] in Hevs. rewrite Hevs. eauto.
Qed.

(** X1, on the fixture with an empty branch name. *)
Lemma branch_name_bounds_witness :
  let w := Fixture.world (FetchResolves Fixture.accepted) None in
  let opts := Scenario.noBranch in
  isValidGitCommitHash (commitSha opts) = true
  /\ exec (uploadStorybook w opts) Fixture.build
     = (Throw (Js.new_Error ("Invalid branch name: " +:+ dq +:+ dq)), Fixture.build, []).
Proof.
  intros w opts.
  assert (Hsha : isValidGitCommitHash (commitSha opts) = true) by reflexivity.
  split; [exact Hsha |].
  exact (proj1 (branch_name_bounds w opts Fixture.build Hsha) (or_introl eq_refl)).
Defined.

(** X2. With the inputs valid and project.json readable: when [JSON.parse]
    throws on its text the run throws [Failed to parse project.json file:
    <error>]; when the text parses to a falsy value, or to one without a
    string [storybookVersion], it throws [Invalid project.json file:
    <path>]. In both cases index.json is not looked at and nothing is
    packed: the access check and the read of project.json are the only
    steps. *)
Theorem project_json_parsed_and_checked :
  forall (w : World) (opts : UploadStorybookOpts) (fs : gmap string string) (ptext : string),
    let p := path_resolve w (storybookDir opts) "project.json" in
    isValidGitCommitHash (commitSha opts) = true ->
    valid_branch (branch opts) = true ->
    readable_text w fs p ptext ->
    (forall err, JSON_parse w ptext = inl err ->
       exec (uploadStorybook w opts) fs
       = (Throw (Js.new_Error ("Failed to parse project.json file: "
                               +:+ Js.Error_toString err)),
          fs, [EAccess p; EReadFile p]))
    /\ (forall project, JSON_parse w ptext = inr project ->
          (Json.truthy project = false
           \/ forall v, Json.get project "storybookVersion" <> Some (Json.Str v)) ->
          exec (uploadStorybook w opts) fs
          = (Throw (Js.new_Error ("Invalid project.json file: " +:+ p)),
             fs, [EAccess p; EReadFile p])).
Proof.
  intros w opts fs ptext p Hsha Hbr [Hp Hpr]. subst p.
  apply negb_true_iff in Hbr. split.
  - intros err Hpp. use_facts. reflexivity.
  - intros project Hpp Hbad. use_facts.
    destruct (Json.truthy project) eqn:Hpt; [| reflexivity].
    destruct Hbad as [Hf | Hv]; [discriminate |].
    destruct (Json.get project "storybookVersion") as [[| | | v | |] |]; try reflexivity.
    exfalso. exact (Hv v eq_refl).
Qed.

(** X2, on the fixture with a project.json that is no JSON document, and
    with one that has no [storybookVersion]. *)
Lemma project_json_parsed_and_checked_witness :
  let w := Fixture.world (FetchResolves Fixture.accepted) None in
  let opts := Fixture.validOpts in
  let p := Scenario.project_path in
  (isValidGitCommitHash (commitSha opts) = true
   /\ valid_branch (branch opts) = true
   /\ readable_text w Scenario.bad_project p "not json"
   /\ readable_text w Scenario.no_version p Fixture.index_text)
  /\ exec (uploadStorybook w opts) Scenario.bad_project
     = (Throw (Js.new_Error ("Failed to parse project.json file: "
                             +:+ Js.Error_toString Fixture.SyntaxError)),
        Scenario.bad_project, [EAccess p; EReadFile p])
  /\ exec (uploadStorybook w opts) Scenario.no_version
     = (Throw (Js.new_Error ("Invalid project.json file: " +:+ p)),
        Scenario.no_version, [EAccess p; EReadFile p]).
Proof.
  intros w opts p.
  assert (Hsha : isValidGitCommitHash (commitSha opts) = true) by reflexivity.
  assert (Hbr : valid_branch (branch opts) = true) by reflexivity.
  assert (Hbad : readable_text w Scenario.bad_project p "not json")
    by (split; vm_compute; reflexivity).
  assert (Hnov : readable_text w Scenario.no_version p Fixture.index_text)
    by (split; vm_compute; reflexivity).
  split; [exact (conj Hsha (conj Hbr (conj Hbad Hnov))) |]. split.
  - exact (proj1 (project_json_parsed_and_checked w opts Scenario.bad_project "not json"
                    Hsha Hbr Hbad) Fixture.SyntaxError eq_refl).
  - assert (Hnone : forall v, Json.get Fixture.index_json "storybookVersion"
                               <> Some (Json.Str v)) by (intros v; discriminate).
    exact (proj2 (project_json_parsed_and_checked w opts Scenario.no_version
                    Fixture.index_text Hsha Hbr Hnov)
                 Fixture.index_json eq_refl (or_intror Hnone)).
Defined.

(** X3. With the inputs and project.json valid, an index.json that is
    missing is reported as a parse failure too: the run throws [Failed to
    parse index.json file: <error>] with the error of the read (ENOENT), as
    it does with the error of [JSON.parse] for an index.json that is no JSON
    document; nothing is packed. *)
Theorem index_json_failure_is_a_parse_failure :
  forall (w : World) (opts : UploadStorybookOpts) (fs : gmap string string)
         (ptext version : string) (project : Json.value),
    let p := path_resolve w (storybookDir opts) "project.json" in
    let i := path_resolve w (storybookDir opts) "index.json" in
    isValidGitCommitHash (commitSha opts) = true ->
    valid_branch (branch opts) = true ->
    readable_text w fs p ptext ->
    JSON_parse w ptext = inr project ->
    Json.truthy project = true ->
    Json.get project "storybookVersion" = Some (Json.Str version) ->
    (fs !! i = None ->
       exec (uploadStorybook w opts) fs
       = (Throw (Js.new_Error ("Failed to parse index.json file: "
                               +:+ Js.Error_toString (fs_error ENOENT "open" i))),
          fs, [EAccess p; EReadFile p; EReadFile i]))
    /\ (forall itext err, readable_text w fs i itext -> JSON_parse w itext = inl err ->
          exec (uploadStorybook w opts) fs
          = (Throw (Js.new_Error ("Failed to parse index.json file: "
                                  +:+ Js.Error_toString err)),
             fs, [EAccess p; EReadFile p; EReadFile i])).
Proof.
  intros w opts fs ptext version project p i Hsha Hbr [Hp Hpr] Hpp Hpt Hpv. subst p i.
  apply negb_true_iff in Hbr. split.
  - intros Hi. use_facts. reflexivity.
  - intros itext err [Hi Hir] Hip. use_facts. reflexivity.
Qed.

(** X3, on the fixture without index.json. *)
Lemma index_json_failure_is_a_parse_failure_witness :
  let w := Fixture.world (FetchResolves Fixture.accepted) None in
  let opts := Fixture.validOpts in
  let fs := Scenario.no_index in
  let p := Scenario.project_path in
  let i := Scenario.index_path in
  (isValidGitCommitHash (commitSha opts) = true
   /\ valid_branch (branch opts) = true
   /\ readable_text w fs p Fixture.project_text
   /\ fs !! i = None)
  /\ exec (uploadStorybook w opts) fs
     = (Throw (Js.new_Error ("Failed to parse index.json file: "
                             +:+ Js.Error_toString (fs_error ENOENT "open" i))),
        fs, [EAccess p; EReadFile p; EReadFile i]).
Proof.
  intros w opts fs p i.
  assert (Hsha : isValidGitCommitHash (commitSha opts) = true) by reflexivity.
  assert (Hbr : valid_branch (branch opts) = true) by reflexivity.
  assert (Hp : readable_text w fs p Fixture.project_text)
    by (split; vm_compute; reflexivity).
  assert (Hi : fs !! i = None) by (vm_compute; reflexivity).
  split; [exact (conj Hsha (conj Hbr (conj Hp Hi))) |].
  exact (proj1 (index_json_failure_is_a_parse_failure w opts fs Fixture.project_text "7.0.0"
                  Fixture.project_json Hsha Hbr Hp eq_refl eq_refl eq_refl) Hi).
Defined.

(** X4. When the checks have passed and [tar] fails, the run ends there: the
    call of [tar] is its last step, nothing is sent and [fs.unlink] is not
    called. When [tar] rejects, as zip-a-folder 3.1.9 does, the run rejects
    with the very error of [tar]; when it resolves to an error, the run
    throws [Failed to tar+gzip storybook build folder: <error>]. What the
    failed call has left at the path of the archive stays there, and no
    other file changes. *)
Theorem tar_failure_sends_nothing :
  forall (w : World) (opts : UploadStorybookOpts) (fs : gmap string string)
         (index : Json.value) (failure : TarFailure),
    isValidGitCommitHash (commitSha opts) = true ->
    valid_branch (branch opts) = true ->
    manifest_valid w (storybookDir opts) fs index ->
    storyCount index <> 0 ->
    zip_tar w (storybookDir opts) (tarballName w) medium = inl failure ->
    exists evs,
      exec (uploadStorybook w opts) fs
      = (Throw (if tar_rejects failure then tar_error failure
                else Js.new_Error ("Failed to tar+gzip storybook build folder: "
                                   +:+ Js.Error_toString (tar_error failure))),
         match tar_left failure with
         | Some part => <[tarballName w := part]> fs
         | None => fs
         end,
         evs)
      /\ fetched evs = [] /\ unlinked evs = []
      /\ last evs = Some (ETar (storybookDir opts) (tarballName w) medium).
Proof.
  intros w opts fs index failure Hsha Hbr Hm Hn Hzip.
  exists (packaging_events w opts index). unfold exec.
  rewrite (upload_reaches_packaging w opts fs [] index Hsha Hbr Hm Hn), Hzip.
  repeat split; reflexivity.
Qed.

(** X4, on the fixture with a disk that is full: [tar] rejects, the run
    rejects with its error, and the part of the archive that was written
    stays. *)
Lemma tar_failure_sends_nothing_witness :
  let w := Scenario.world (inl Scenario.tar_rejecting) (FetchResolves Fixture.accepted) in
  let opts := Fixture.validOpts in
  let fs := Fixture.build in
  (isValidGitCommitHash (commitSha opts) = true
   /\ valid_branch (branch opts) = true
   /\ manifest_valid w (storybookDir opts) fs Fixture.index_json
   /\ storyCount Fixture.index_json <> 0
   /\ zip_tar w (storybookDir opts) (tarballName w) medium = inl Scenario.tar_rejecting)
  /\ exists evs,
      exec (uploadStorybook w opts) fs
      = (Throw Scenario.disk_full, <[Fixture.tarball := "mock tar"]> fs, evs)
      /\ fetched evs = [] /\ unlinked evs = []
      /\ last evs = Some (ETar (storybookDir opts) (tarballName w) medium).
Proof.
  intros w opts fs.
  assert (Hsha : isValidGitCommitHash (commitSha opts) = true) by reflexivity.
  assert (Hbr : valid_branch (branch opts) = true) by reflexivity.
  assert (Hm : manifest_valid w (storybookDir opts) fs Fixture.index_json).
  { exists Fixture.project_text, Fixture.project_json, "7.0.0", Fixture.index_text.
    repeat split; vm_compute; reflexivity. }
  assert (Hn : storyCount Fixture.index_json <> 0) by (vm_compute; discriminate).
  assert (Hzip : zip_tar w (storybookDir opts) (tarballName w) medium
                 = inl Scenario.tar_rejecting) by reflexivity.
  split; [exact (conj Hsha (conj Hbr (conj Hm (conj Hn Hzip)))) |].
  exact (tar_failure_sends_nothing w opts fs Fixture.index_json Scenario.tar_rejecting
           Hsha Hbr Hm Hn Hzip).
Defined.

(* ===================================================================== *)
(** * The exchange with the service *)
(* ===================================================================== *)

(** [rejection_message] never throws and leaves the state alone: an error of
    [response.json()] is ignored, and the checks of the body come to whether
    it is an object with a string [error]. *)
Lemma rejection_message_run (r : Response) (st : State) :
  rejection_message r st
  = (Normal (nullish_or (body_error r)
               ("Failed to upload storybook build folder to vizdiff CDN: "
                +:+ statusText r +:+ " (" +:+ Js.int_to_string (status r) +:+ ")")),
     st).
Proof.
  unfold rejection_message, body_error, try_catch, bind, lift, ret, throw, Json.has.
  destruct (content_type r) as [ct |]; [| reflexivity].
  destruct (Js.includes ct "application/json"); [| destruct (json r); reflexivity].
  destruct (json r) as [e | body]; [reflexivity |].
  destruct body as [| b | n | s | items | fields]; try reflexivity.
  - destruct b; reflexivity.
  - cbn. destruct (negb (n =? "0")%string); reflexivity.
  - cbn. destruct (negb (s =? "")%string); reflexivity.
  - cbn. destruct (Json.field "error" fields) as [[| | | | |] |]; reflexivity.
Qed.

(** The [try] block on an archive that cannot be read back. *)
Lemma postTarball_unreadable w opts p st bytes :
  files st !! p = Some bytes -> unreadable w p = true ->
  postTarball w opts p st
  = (Throw (fs_error EACCES "open" p),
     {| files := files st; trace := trace st ++ [EReadFile p] |}).
Proof.
  intros Hp Hr. destruct st as [fs tr]. cbn [files trace] in *.
  unfold_post. rewrite Hp, Hr. reflexivity.
Qed.

(** The [try] block on a readable archive: two reads around the log line,
    one request, and the end that the answer decides. *)
Lemma postTarball_cases w opts p st bytes :
  files st !! p = Some bytes -> unreadable w p = false ->
  exists url req msg,
    upload_request w opts bytes url req
    /\ forall o st',
        postTarball w opts p st = (o, st') ->
        exists tail,
          st' = {| files := files st;
                   trace := trace st
                            ++ [EReadFile p; EInfo msg; EReadFile p; EFetch url req] ++ tail |}
          /\ fetched tail = [] /\ unlinked tail = []
          /\ ends_as (fetch w url req) o.
Proof.
  intros Hp Hr. destruct st as [fs tr]. cbn [files trace] in *.
  eexists _, (mkRequest _ _ _), _. unfold upload_request, ends_as.
  split; [split; [reflexivity |]; split; [reflexivity |]; split; [reflexivity |]; split |];
    [| | intros o st'; repeat (unfold_post; first [rewrite Hp | rewrite Hr]); unfold_post ].
  3: {
    match goal with
    | |- context [mkRequest _ ?h _] =>
        is_evar h;
        match goal with
        | |- context [mkRequest _ ?h' _] => assert_fails (is_evar h'); unify h h'
        end
    end.
    match goal with |- context [fetch w ?u ?r] => destruct (fetch w u r) as [e | r0] end.
    - intros [= <- <-]. exists []. rewrite <- !app_assoc. cbn.
      repeat (split; [reflexivity |]). reflexivity.
    - unfold accepts. destruct (ok r0); cbn [negb andb].
      + destruct (json r0) as [e | res].
        * intros [= <- <-]. exists []. rewrite <- !app_assoc. cbn.
          repeat (split; [reflexivity |]). reflexivity.
        * destruct res as [| b | n | s | items | fields]; cbn [Json.get];
            try (intros [= <- <-]; exists []; rewrite <- !app_assoc; cbn;
                 repeat (split; [reflexivity |]); reflexivity).
          destruct (Json.field "success" fields) as [v |]; cbn [negb].
          -- destruct (Json.truthy v); cbn [negb].
             ++ intros [= <- <-]. eexists [_]. rewrite <- !app_assoc. cbn.
                repeat (split; [reflexivity |]). reflexivity.
             ++ intros [= <- <-]. exists []. rewrite <- !app_assoc. cbn.
                repeat (split; [reflexivity |]). reflexivity.
          -- intros [= <- <-]. exists []. rewrite <- !app_assoc. cbn.
             repeat (split; [reflexivity |]). reflexivity.
      + rewrite rejection_message_run. intros [= <- <-].
        exists []. rewrite <- !app_assoc. cbn.
        repeat (split; [reflexivity |]). reflexivity. }
  - reflexivity.
  - unfold spread_number, spread_string.
    destruct (truthy_string (baseCommitSha opts)), (truthy_string (baseBranch opts)),
      (truthy_number (prNumber opts)); reflexivity.
Qed.

Lemma fetched_app (a b : list Event) : fetched (a ++ b) = fetched a ++ fetched b.
Proof.
  induction a as [| e a IH]; [reflexivity |].
  destruct e; cbn [app fetched]; rewrite IH; reflexivity.
Qed.

Lemma fetched_In (evs : list Event) url req :
  In (EFetch url req) evs <-> In (url, req) (fetched evs).
Proof.
  induction evs as [| e evs IH]; [reflexivity |].
  destruct e; cbn [In fetched]; rewrite IH;
    try (split; [intros [H | H]; [discriminate H | exact H] | intros H; right; exact H]).
  split; (intros [H | H]; [left; congruence | right; exact H]).
Qed.

Lemma checks_fetch_nothing (evs : list Event) :
  Forall check_step evs -> fetched evs = [] /\ unlinked evs = [].
Proof.
  induction 1 as [| e evs He _ [IH1 IH2]]; [split; reflexivity |].
  destruct e; cbn [fetched unlinked check_step] in *; try contradiction; split; assumption.
Qed.

(** Every run either has valid inputs and a valid manifest with a story, or
    throws after looks at the manifests only, the files untouched. *)
Lemma upload_checks_first w opts fs :
  (isValidGitCommitHash (commitSha opts) = true
   /\ valid_branch (branch opts) = true
   /\ exists index, manifest_valid w (storybookDir opts) fs index /\ storyCount index <> 0)
  \/
  (exists e evs,
      exec (uploadStorybook w opts) fs = (Throw e, fs, evs) /\ Forall check_step evs).
Proof.
  destruct (isValidGitCommitHash (commitSha opts)) eqn:Hsha; [| stopped_checking].
  unfold valid_branch.
  destruct (String.eqb (branch opts) "" || (255 <? String.length (branch opts))) eqn:Hbr;
    [stopped_checking |].
  destruct (fs !! path_resolve w (storybookDir opts) "project.json") as [ptext |] eqn:Hp;
    [| stopped_checking].
  destruct (unreadable w (path_resolve w (storybookDir opts) "project.json")) eqn:Hpr;
    [stopped_checking |].
  destruct (JSON_parse w ptext) as [pe | project] eqn:Hpp; [stopped_checking |].
  destruct (Json.truthy project) eqn:Hpt; [| stopped_checking].
  destruct (Json.get project "storybookVersion") as [[| | | version | |] |] eqn:Hpv;
    try stopped_checking.
  destruct (fs !! path_resolve w (storybookDir opts) "index.json") as [itext |] eqn:Hi;
    [| stopped_checking].
  destruct (unreadable w (path_resolve w (storybookDir opts) "index.json")) eqn:Hir;
    [stopped_checking |].
  destruct (JSON_parse w itext) as [ie | index] eqn:Hip; [stopped_checking |].
  destruct (storyCount index =? 0) eqn:Hn; [stopped_checking |].
  left. repeat split. exists index. split.
  - exists ptext, project, version, itext. repeat split; assumption.
  - now apply Nat.eqb_neq.
Qed.

(** No end of the [try] block ends the process. *)
Lemma ends_as_alive (answer : FetchResult) : ~ ends_as answer Exit.
Proof.
  unfold ends_as. destruct answer as [e | r]; [discriminate |].
  destruct (ok r); [| discriminate].
  destruct (json r) as [e | res]; [discriminate |].
  destruct (accepts (FetchResolves r)); [discriminate |].
  destruct res; discriminate.
Qed.

(** The shape of every run: stopped by a check, the files untouched, or by
    a failure of [tar], which may have left a part of the archive, with
    nothing sent and nothing unlinked; or the [try] block on the archive
    (stopped by an archive that cannot be read back, or one exchange with
    the service) and then the [finally] block. *)
Lemma upload_shapes w opts fs o fs' evs :
  exec (uploadStorybook w opts) fs = (o, fs', evs) ->
  (exists e,
      o = Throw e
      /\ (fs' = fs
          \/ exists failure,
               zip_tar w (storybookDir opts) (tarballName w) medium = inl failure
               /\ fs' = match tar_left failure with
                        | Some part => <[tarballName w := part]> fs
                        | None => fs
                        end)
      /\ fetched evs = [] /\ unlinked evs = [])
  \/
  exists bytes o1 mid,
    zip_tar w (storybookDir opts) (tarballName w) medium = inr bytes
    /\ isValidGitCommitHash (commitSha opts) = true
    /\ valid_branch (branch opts) = true
    /\ ((unreadable w (tarballName w) = true
         /\ fetched mid = [] /\ exists e, o1 = Throw e)
        \/ (unreadable w (tarballName w) = false
            /\ exists url req,
                upload_request w opts bytes url req
                /\ fetched mid = [(url, req)]
                /\ ends_as (fetch w url req) o1))
    /\ unlinked mid = []
    /\ match unlink_fault w (tarballName w) with
       | Some e =>
           o = Throw e /\ fs' = <[tarballName w := bytes]> fs
           /\ evs = mid ++ [EUnlink (tarballName w)]
       | None =>
           o = o1 /\ fs' = delete (tarballName w) (<[tarballName w := bytes]> fs)
           /\ evs = mid ++ [EUnlink (tarballName w);
                            EInfo ("Deleted storybook tarball: " +:+ tarballName w)]
       end.
Proof.
  intros Hrun.
  destruct (upload_checks_first w opts fs)
    as [(Hsha & Hbr & index & Hm & Hn) | (e & evs0 & Hrun0 & Hchecks)].
  2: { left. rewrite Hrun0 in Hrun. injection Hrun as <- <- <-.
       destruct (checks_fetch_nothing _ Hchecks) as [Hf Hu]. exists e. auto. }
  unfold exec in Hrun.
  rewrite (upload_reaches_packaging w opts fs [] index Hsha Hbr Hm Hn) in Hrun.
  destruct (zip_tar w (storybookDir opts) (tarballName w) medium) as [e | bytes] eqn:Hzip.
  { left. cbn [fst snd files trace app] in Hrun. injection Hrun as <- <- <-.
    eexists. split; [reflexivity |].
    split; [right; exists e; split; reflexivity |]. split; reflexivity. }
  right. exists bytes.
  cbn [app] in Hrun.
  set (p := tarballName w) in *.
  set (st1 := {| files := <[p := bytes]> fs;
                 trace := packaging_events w opts index
                          ++ [EInfo ("Created storybook tarball: " +:+ p)] |}) in *.
  assert (Hp : files st1 !! p = Some bytes) by apply lookup_insert_eq.
  unfold try_finally in Hrun.
  destruct (unreadable w p) eqn:Hr.
  - rewrite (postTarball_unreadable w opts p st1 bytes Hp Hr) in Hrun.
    rewrite deleteTarball_run in Hrun. cbn [files trace] in Hrun. rewrite Hp in Hrun.
    exists (Throw (fs_error EACCES "open" p)), (trace st1 ++ [EReadFile p]).
    split; [reflexivity |]. split; [exact Hsha |]. split; [exact Hbr |].
    split; [left; repeat split; eauto |]. split; [reflexivity |].
    destruct (unlink_fault w p); cbn [fst snd files trace] in Hrun;
      injection Hrun as <- <- <-; rewrite <- ?app_assoc; repeat split; reflexivity.
  - destruct (postTarball_cases w opts p st1 bytes Hp Hr) as (url & req & msg & Hreq & Hpost).
    destruct (postTarball w opts p st1) as [o1 st2] eqn:Hpt.
    destruct (Hpost o1 st2 eq_refl) as (tail & -> & Hft & Hut & Hend).
    rewrite deleteTarball_run in Hrun. cbn [files trace] in Hrun. rewrite Hp in Hrun.
    exists o1, (trace st1 ++ [EReadFile p; EInfo msg; EReadFile p; EFetch url req] ++ tail).
    split; [reflexivity |]. split; [exact Hsha |]. split; [exact Hbr |]. split.
    { right. split; [reflexivity |]. exists url, req. split; [exact Hreq |]. split; [| exact Hend].
      rewrite !fetched_app, Hft. reflexivity. }
    split; [rewrite !unlinked_app, Hut; reflexivity |].
    destruct (unlink_fault w p); destruct o1 as [[] | e1 |]; cbn [fst snd files trace] in Hrun;
      try (injection Hrun as <- <- <-; rewrite <- ?app_assoc; repeat split; reflexivity);
      exfalso; exact (ends_as_alive _ Hend).
Qed.

(** A run in which a request was submitted: how the [try] block ended for
    the answer, and what the [finally] block made of it. *)
Lemma run_with_request w opts fs o fs' evs url req :
  exec (uploadStorybook w opts) fs = (o, fs', evs) ->
  In (EFetch url req) evs ->
  exists o1,
    ends_as (fetch w url req) o1
    /\ isValidGitCommitHash (commitSha opts) = true
    /\ valid_branch (branch opts) = true
    /\ match unlink_fault w (tarballName w) with
       | Some e => o = Throw e
       | None => o = o1 /\ fs' !! tarballName w = None
       end.
Proof.
  intros Hrun Hin. apply fetched_In in Hin.
  destruct (upload_shapes w opts fs o fs' evs Hrun)
    as [(e & _ & _ & Hf & _) | (bytes & o1 & mid & Hzip & Hsha & Hbr & Hmid & _ & Hend)].
  { rewrite Hf in Hin. destruct Hin. }
  assert (Hevs : fetched evs = fetched mid).
  { destruct (unlink_fault w (tarballName w)); destruct Hend as (_ & _ & ->);
      rewrite fetched_app; cbn [fetched]; apply app_nil_r. }
  rewrite Hevs in Hin.
  destruct Hmid as [(_ & Hf & _) | (_ & url0 & req0 & Hreq & Hf & Hends)].
  { rewrite Hf in Hin. destruct Hin. }
  rewrite Hf in Hin. destruct Hin as [[= <- <-] | []].
  exists o1. split; [exact Hends |]. split; [exact Hsha |]. split; [exact Hbr |].
  destruct (unlink_fault w (tarballName w)); destruct Hend as (-> & -> & _); [reflexivity |].
  split; [reflexivity | apply lookup_delete_eq].
Qed.

(** The same, for a run given by its projections. *)
Lemma run_with_request_of w opts fs url req :
  In (EFetch url req) (snd (exec (uploadStorybook w opts) fs)) ->
  unlink_fault w (tarballName w) = None ->
  ends_as (fetch w url req) (fst (fst (exec (uploadStorybook w opts) fs)))
  /\ snd (fst (exec (uploadStorybook w opts) fs)) !! tarballName w = None.
Proof.
  intros Hin Hunlink.
  destruct (exec (uploadStorybook w opts) fs) as [[o fs'] evs] eqn:Hrun.
  cbn [fst snd] in *.
  destruct (run_with_request w opts fs o fs' evs url req Hrun Hin)
    as (o1 & Hends & _ & _ & Hend).
  rewrite Hunlink in Hend. destruct Hend as [-> Hgone]. split; assumption.
Qed.

(** X5. No run of [uploadStorybook] submits more than one request: there is
    no retry. The request, when there is one, is a POST to
    <base>/upload/storybook?token=<projectToken>, where <base> is
    VIZDIFF_API_URL (or https://vizdiff.io/api) without its trailing
    slashes; its body is the archive as [tar] wrote it, its content type
    application/gzip, and it carries X-Vizdiff-PR-Number exactly when
    [prNumber] is a number other than 0. *)
Theorem at_most_one_request :
  forall (w : World) (opts : UploadStorybookOpts) (fs : gmap string string),
    let evs := snd (exec (uploadStorybook w opts) fs) in
    fetched evs = []
    \/ exists url req bytes,
        fetched evs = [(url, req)]
        /\ zip_tar w (storybookDir opts) (tarballName w) medium = inr bytes
        /\ upload_request w opts bytes url req.
Proof.
  intros w opts fs evs. subst evs.
  destruct (exec (uploadStorybook w opts) fs) as [[o fs'] evs] eqn:Hrun. cbn [snd].
  destruct (upload_shapes w opts fs o fs' evs Hrun)
    as [(e & _ & _ & Hf & _) | (bytes & o1 & mid & Hzip & _ & _ & Hmid & _ & Hend)];
    [left; exact Hf |].
  assert (Hevs : fetched evs = fetched mid).
  { destruct (unlink_fault w (tarballName w)); destruct Hend as (_ & _ & ->);
      rewrite fetched_app; cbn [fetched]; apply app_nil_r. }
  rewrite Hevs.
  destruct Hmid as [(_ & Hf & _) | (_ & url & req & Hreq & Hf & _)]; [left; exact Hf |].
  right. exists url, req, bytes. auto.
Qed.

(** X5, on the fixture: one request, the one of the test. *)
Lemma at_most_one_request_witness :
  let w := Fixture.world (FetchResolves Fixture.accepted) None in
  fetched (snd (exec (uploadStorybook w Fixture.baseCommitOnly) Fixture.build))
  = [(Fixture.upload_url, Fixture.baseCommitOnly_request)]
  /\ upload_request w Fixture.baseCommitOnly "mock tarball content"
                    Fixture.upload_url Fixture.baseCommitOnly_request.
Proof.
  intros w.
  destruct (at_most_one_request w Fixture.baseCommitOnly Fixture.build)
    as [Hnone | (url & req & bytes & Hone & Hzip & Hreq)].
  - vm_compute in Hnone. discriminate Hnone.
  - assert (Hfetched : fetched (snd (exec (uploadStorybook w Fixture.baseCommitOnly)
                                          Fixture.build))
                       = [(Fixture.upload_url, Fixture.baseCommitOnly_request)])
      by (vm_compute; reflexivity).
    split; [exact Hfetched |].
    rewrite Hfetched in Hone. injection Hone as <- <-.
    injection Hzip as <-. exact Hreq.
Defined.

(** X6. A request is submitted only for inputs that passed the checks: the
    commit it names in X-Vizdiff-Commit-Sha is 40 hexadecimal digits, and
    the branch it names in X-Vizdiff-Branch is not empty and has at most 255
    code units. *)
Theorem requests_name_a_checked_commit_and_branch :
  forall (w : World) (opts : UploadStorybookOpts) (fs : gmap string string)
         (url : string) (req : Request),
    In (EFetch url req) (snd (exec (uploadStorybook w opts) fs)) ->
    exists c b,
      header_of "X-Vizdiff-Commit-Sha" (headers req) = Some c
      /\ String.length c = 40
      /\ forallb any_hex (list_ascii_of_string c) = true
      /\ header_of "X-Vizdiff-Branch" (headers req) = Some b
      /\ b <> "" /\ String.length b <= 255.
Proof.
  intros w opts fs url req Hin.
  pose proof (tame_exec _ _ _ fs (uploadStorybook_carries w opts)) as Hall.
  rewrite Stdlib.Lists.List.Forall_forall in Hall.
  destruct (Hall _ Hin) as (Hc & Hb & _).
  destruct (exec (uploadStorybook w opts) fs) as [[o fs'] evs] eqn:Hrun. cbn [snd] in Hin.
  destruct (run_with_request w opts fs o fs' evs url req Hrun Hin)
    as (o1 & _ & Hsha & Hbr & _).
  rewrite isValidGitCommitHash_spec in Hsha. apply andb_true_iff in Hsha.
  destruct Hsha as [Hlen Hhex]. apply Nat.eqb_eq in Hlen.
  unfold valid_branch in Hbr. apply negb_true_iff, orb_false_iff in Hbr.
  destruct Hbr as [Hne Hlong].
  exists (commitSha opts), (branch opts).
  repeat split; try assumption.
  - now apply String.eqb_neq.
  - apply Nat.ltb_ge in Hlong. exact Hlong.
Qed.

(** X6, on the fixture. *)
Lemma requests_name_a_checked_commit_and_branch_witness :
  let w := Fixture.world (FetchResolves Fixture.accepted) None in
  let req := Fixture.baseCommitOnly_request in
  In (EFetch Fixture.upload_url req)
     (snd (exec (uploadStorybook w Fixture.baseCommitOnly) Fixture.build))
  /\ exists c b,
      header_of "X-Vizdiff-Commit-Sha" (headers req) = Some c
      /\ String.length c = 40
      /\ forallb any_hex (list_ascii_of_string c) = true
      /\ header_of "X-Vizdiff-Branch" (headers req) = Some b
      /\ b <> "" /\ String.length b <= 255.
Proof.
  intros w req.
  assert (Hin : In (EFetch Fixture.upload_url req)
                   (snd (exec (uploadStorybook w Fixture.baseCommitOnly) Fixture.build))).
  { vm_compute. do 9 right. left. reflexivity. }
  split; [exact Hin |].
  exact (requests_name_a_checked_commit_and_branch w Fixture.baseCommitOnly Fixture.build
           Fixture.upload_url req Hin).
Defined.

(** X7. When [fetch] rejects (a transport failure) and the archive can be
    unlinked, [uploadStorybook] rejects with the very error of [fetch],
    unwrapped, and the archive is gone. *)
Theorem transport_failure_is_passed_on :
  forall (w : World) (opts : UploadStorybookOpts) (fs : gmap string string)
         (url : string) (req : Request) (e : Js.Error),
    let run := exec (uploadStorybook w opts) fs in
    In (EFetch url req) (snd run) ->
    fetch w url req = FetchRejects e ->
    unlink_fault w (tarballName w) = None ->
    fst (fst run) = Throw e /\ snd (fst run) !! tarballName w = None.
Proof.
  intros w opts fs url req e run Hin Hfetch Hunlink. subst run.
  destruct (run_with_request_of w opts fs url req Hin Hunlink) as [Hends Hgone].
  unfold ends_as in Hends. rewrite Hfetch in Hends. auto.
Qed.

(** X7, on the fixture with a network that fails. *)
Lemma transport_failure_is_passed_on_witness :
  let e := Js.new_Error "fetch failed" in
  let w := Fixture.world (FetchRejects e) None in
  let run := exec (uploadStorybook w Fixture.baseCommitOnly) Fixture.build in
  (In (EFetch Fixture.upload_url Fixture.baseCommitOnly_request) (snd run)
   /\ fetch w Fixture.upload_url Fixture.baseCommitOnly_request = FetchRejects e
   /\ unlink_fault w (tarballName w) = None)
  /\ fst (fst run) = Throw e /\ snd (fst run) !! tarballName w = None.
Proof.
  intros e w run.
  assert (Hin : In (EFetch Fixture.upload_url Fixture.baseCommitOnly_request) (snd run)).
  { vm_compute. do 9 right. left. reflexivity. }
  assert (Hfetch : fetch w Fixture.upload_url Fixture.baseCommitOnly_request = FetchRejects e)
    by reflexivity.
  assert (Hunlink : unlink_fault w (tarballName w) = None) by reflexivity.
  split; [exact (conj Hin (conj Hfetch Hunlink)) |].
  exact (transport_failure_is_passed_on w Fixture.baseCommitOnly Fixture.build
           Fixture.upload_url Fixture.baseCommitOnly_request e Hin Hfetch Hunlink).
Defined.

(** X8. When the service answers with a status that is no success and the
    archive can be unlinked, [uploadStorybook] throws an [Error] whose
    [statusCode] is the status of the response. Its message is the [error]
    string of the body when the content type includes application/json and
    the body is an object with such a string; in every other case (no such
    content type, a body that does not parse, no string [error]) it is
    [Failed to upload storybook build folder to vizdiff CDN: <statusText>
    (<status>)]. *)
Theorem rejection_carries_the_status :
  forall (w : World) (opts : UploadStorybookOpts) (fs : gmap string string)
         (url : string) (req : Request) (r : Response),
    In (EFetch url req) (snd (exec (uploadStorybook w opts) fs)) ->
    fetch w url req = FetchResolves r ->
    ok r = false ->
    unlink_fault w (tarballName w) = None ->
    exists msg,
      fst (fst (exec (uploadStorybook w opts) fs))
      = Throw {| Js.name := "Error"; Js.message := msg; Js.statusCode := Some (status r) |}
      /\ (forall s, body_error r = Some s -> msg = s)
      /\ (body_error r = None ->
          msg = "Failed to upload storybook build folder to vizdiff CDN: "
                +:+ statusText r +:+ " (" +:+ Js.int_to_string (status r) +:+ ")")
      /\ (content_type r = None \/ (exists e, json r = inl e) -> body_error r = None).
Proof.
  intros w opts fs url req r Hin Hfetch Hok Hunlink.
  destruct (run_with_request_of w opts fs url req Hin Hunlink) as [Hends _].
  unfold ends_as in Hends. rewrite Hfetch, Hok in Hends.
  eexists. split; [exact Hends |].
  split; [intros s -> | split; [intros -> |]]; try reflexivity.
  unfold body_error. intros [-> | [e ->]]; [reflexivity |].
  destruct (content_type r); reflexivity.
Qed.

(** X8, on the fixture with a service that answers 403 without a body. *)
Lemma rejection_carries_the_status_witness :
  let w := Fixture.world (FetchResolves Fixture.forbidden) None in
  let run := exec (uploadStorybook w Fixture.baseCommitOnly) Fixture.build in
  (In (EFetch Fixture.upload_url Fixture.baseCommitOnly_request) (snd run)
   /\ fetch w Fixture.upload_url Fixture.baseCommitOnly_request
      = FetchResolves Fixture.forbidden
   /\ ok Fixture.forbidden = false
   /\ unlink_fault w (tarballName w) = None)
  /\ fst (fst run) = Throw Scenario.forbidden_error.
Proof.
  intros w run.
  assert (Hin : In (EFetch Fixture.upload_url Fixture.baseCommitOnly_request) (snd run)).
  { vm_compute. do 9 right. left. reflexivity. }
  assert (Hfetch : fetch w Fixture.upload_url Fixture.baseCommitOnly_request
                   = FetchResolves Fixture.forbidden) by reflexivity.
  assert (Hok : ok Fixture.forbidden = false) by reflexivity.
  assert (Hunlink : unlink_fault w (tarballName w) = None) by reflexivity.
  split; [exact (conj Hin (conj Hfetch (conj Hok Hunlink))) |].
  destruct (rejection_carries_the_status w Fixture.baseCommitOnly Fixture.build
              Fixture.upload_url Fixture.baseCommitOnly_request Fixture.forbidden
              Hin Hfetch Hok Hunlink) as (msg & Hrun & _ & Hgeneric & _).
  subst run. rewrite Hrun, (Hgeneric eq_refl). reflexivity.
Defined.

(** X9. When the service answers with a success status and the archive can
    be unlinked, the body decides: if [response.json()] rejects, the run
    rejects with that error; if the body is an object whose [success] is
    missing or falsy, the run throws [Failed to upload storybook build folder
    to vizdiff CDN: <error>], with the [error] of the body, or [Unknown
    error] when it has none (or [null]); the error has no [statusCode]. *)
Theorem success_status_with_failure_body :
  forall (w : World) (opts : UploadStorybookOpts) (fs : gmap string string)
         (url : string) (req : Request) (r : Response),
    let o := fst (fst (exec (uploadStorybook w opts) fs)) in
    In (EFetch url req) (snd (exec (uploadStorybook w opts) fs)) ->
    fetch w url req = FetchResolves r ->
    ok r = true ->
    unlink_fault w (tarballName w) = None ->
    (forall e, json r = inl e -> o = Throw e)
    /\ (forall fields,
          json r = inr (Json.Obj fields) ->
          match Json.field "success" fields with
          | Some v => Json.truthy v = false
          | None => True
          end ->
          o = Throw (Js.new_Error
                ("Failed to upload storybook build folder to vizdiff CDN: "
                 +:+ match Json.field "error" fields with
                     | None | Some Json.Null => "Unknown error"
                     | Some v => Json.to_string v
                     end))).
Proof.
  intros w opts fs url req r o Hin Hfetch Hok Hunlink. subst o.
  destruct (run_with_request_of w opts fs url req Hin Hunlink) as [Hends _].
  unfold ends_as, accepts in Hends. rewrite Hfetch, Hok in Hends. cbn [andb] in Hends.
  split.
  - intros e He. rewrite He in Hends. exact Hends.
  - intros fields Hj Hs. rewrite Hj in Hends. cbn [Json.get] in Hends.
    destruct (Json.field "success" fields) as [v |]; [rewrite Hs in Hends |]; exact Hends.
Qed.

(** X9, on the fixture with a service that answers 200 and
    [success: false]. *)
Lemma success_status_with_failure_body_witness :
  let w := Fixture.world (FetchResolves Fixture.refused) None in
  let run := exec (uploadStorybook w Fixture.baseCommitOnly) Fixture.build in
  (In (EFetch Fixture.upload_url Fixture.baseCommitOnly_request) (snd run)
   /\ fetch w Fixture.upload_url Fixture.baseCommitOnly_request
      = FetchResolves Fixture.refused
   /\ ok Fixture.refused = true
   /\ unlink_fault w (tarballName w) = None)
  /\ fst (fst run)
     = Throw (Js.new_Error ("Failed to upload storybook build folder to vizdiff CDN: "
                            +:+ "Invalid project token")).
Proof.
  intros w run.
  assert (Hin : In (EFetch Fixture.upload_url Fixture.baseCommitOnly_request) (snd run)).
  { vm_compute. do 9 right. left. reflexivity. }
  assert (Hfetch : fetch w Fixture.upload_url Fixture.baseCommitOnly_request
                   = FetchResolves Fixture.refused) by reflexivity.
  assert (Hok : ok Fixture.refused = true) by reflexivity.
  assert (Hunlink : unlink_fault w (tarballName w) = None) by reflexivity.
  split; [exact (conj Hin (conj Hfetch (conj Hok Hunlink))) |].
  exact (proj2 (success_status_with_failure_body w Fixture.baseCommitOnly Fixture.build
                  Fixture.upload_url Fixture.baseCommitOnly_request Fixture.refused
                  Hin Hfetch Hok Hunlink)
               _ eq_refl eq_refl).
Defined.

(** A run that resolved: a request was accepted and the archive unlinked. *)
Lemma resolved_run w opts fs fs' evs :
  exec (uploadStorybook w opts) fs = (Normal tt, fs', evs) ->
  exists url req,
    In (EFetch url req) evs
    /\ accepts (fetch w url req) = true
    /\ unlink_fault w (tarballName w) = None.
Proof.
  intros Hrun.
  destruct (upload_shapes w opts fs _ fs' evs Hrun)
    as [(e & He & _) | (bytes & o1 & mid & Hzip & _ & _ & Hmid & _ & Hend)]; [discriminate |].
  destruct (unlink_fault w (tarballName w)) as [e |];
    destruct Hend as (Ho & _ & Hevs); [discriminate |]. subst o1.
  destruct Hmid as [(_ & _ & e & He) | (_ & url & req & _ & Hf & Hends)]; [discriminate |].
  exists url, req. split; [| split; [| reflexivity]].
  - apply fetched_In. rewrite Hevs, fetched_app, Hf. left. reflexivity.
  - unfold ends_as in Hends.
    destruct (fetch w url req) as [e | r]; [discriminate |].
    destruct (ok r) eqn:Hok; [| discriminate].
    destruct (json r) as [e | res] eqn:Hj; [discriminate |].
    destruct (accepts (FetchResolves r)); [reflexivity |].
    destruct res; discriminate.
Qed.

(** A run whose request was accepted and whose archive was unlinked
    resolves. *)
Lemma accepted_run w opts fs o fs' evs url req :
  exec (uploadStorybook w opts) fs = (o, fs', evs) ->
  In (EFetch url req) evs ->
  accepts (fetch w url req) = true ->
  unlink_fault w (tarballName w) = None ->
  o = Normal tt.
Proof.
  intros Hrun Hin Hacc Hunlink.
  destruct (run_with_request w opts fs o fs' evs url req Hrun Hin)
    as (o1 & Hends & _ & _ & Hend).
  rewrite Hunlink in Hend. destruct Hend as [-> _].
  unfold ends_as in Hends.
  destruct (fetch w url req) as [e | r]; [discriminate |].
  assert (Hok : ok r = true /\ exists res, json r = inr res).
  { unfold accepts in Hacc. destruct (ok r); [| discriminate].
    destruct (json r) as [e | res]; [discriminate | eauto]. }
  destruct Hok as [Hok [res Hj]]. rewrite Hok, Hj, Hacc in Hends. exact Hends.
Qed.

(** X10. [uploadStorybook] resolves exactly when a request was submitted,
    the service accepted it (a success status and a body whose [success] is
    truthy) and the archive could be unlinked: every other run rejects. *)
Theorem resolves_only_when_accepted :
  forall (w : World) (opts : UploadStorybookOpts) (fs : gmap string string),
    fst (fst (exec (uploadStorybook w opts) fs)) = Normal tt
    <-> exists url req,
         In (EFetch url req) (snd (exec (uploadStorybook w opts) fs))
         /\ accepts (fetch w url req) = true
         /\ unlink_fault w (tarballName w) = None.
Proof.
  intros w opts fs.
  destruct (exec (uploadStorybook w opts) fs) as [[o fs'] evs] eqn:Hrun. cbn [fst snd].
  split.
  - intros ->. exact (resolved_run w opts fs fs' evs Hrun).
  - intros (url & req & Hin & Hacc & Hunlink).
    exact (accepted_run w opts fs o fs' evs url req Hrun Hin Hacc Hunlink).
Qed.

(** X10, on the fixture: the service accepts and the run resolves; it
    answers [success: false] and the run does not. *)
Lemma resolves_only_when_accepted_witness :
  let accepting := Fixture.world (FetchResolves Fixture.accepted) None in
  let refusing := Fixture.world (FetchResolves Fixture.refused) None in
  fst (fst (exec (uploadStorybook accepting Fixture.baseCommitOnly) Fixture.build)) = Normal tt
  /\ fst (fst (exec (uploadStorybook refusing Fixture.baseCommitOnly) Fixture.build))
     <> Normal tt.
Proof.
  intros accepting refusing. split.
  - apply (proj2 (resolves_only_when_accepted accepting Fixture.baseCommitOnly Fixture.build)).
    exists Fixture.upload_url, Fixture.baseCommitOnly_request.
    split; [vm_compute; do 9 right; left; reflexivity |]. split; reflexivity.
  - intros Hres.
    apply (proj1 (resolves_only_when_accepted refusing Fixture.baseCommitOnly Fixture.build))
      in Hres.
    destruct Hres as (url & req & _ & Hacc & _). discriminate Hacc.
Defined.

(** X11. [uploadStorybook] touches no file but the archive: every other
    path holds after the run what it held before, whatever the outcome.
    When [tar] has written the archive, the unlink is not refused and no file
    had the name of the archive, the files are after the run exactly what
    they were before. When [tar] fails, the path of the archive holds after
    the run what the failed call left there: no unlink follows. *)
Theorem only_the_archive_changes :
  forall (w : World) (opts : UploadStorybookOpts) (fs : gmap string string),
    let fs' := snd (fst (exec (uploadStorybook w opts) fs)) in
    let zip := zip_tar w (storybookDir opts) (tarballName w) medium in
    (forall q, q <> tarballName w -> fs' !! q = fs !! q)
    /\ (forall bytes, zip = inr bytes ->
        unlink_fault w (tarballName w) = None -> fs !! tarballName w = None -> fs' = fs)
    /\ (forall failure, zip = inl failure ->
        fs' = fs \/ (tar_left failure <> None /\ fs' !! tarballName w = tar_left failure)).
Proof.
  intros w opts fs fs' zip. subst fs' zip.
  destruct (exec (uploadStorybook w opts) fs) as [[o fs'] evs] eqn:Hrun. cbn [fst snd].
  destruct (upload_shapes w opts fs o fs' evs Hrun)
    as [(e & _ & [-> | (failure & Hzip & ->)] & _)
       | (bytes & o1 & mid & Hzip & _ & _ & _ & _ & Hend)].
  - split; [reflexivity |]. split; [reflexivity |]. intros failure _. left. reflexivity.
  - rewrite Hzip. split; [| split].
    + intros q Hq. destruct (tar_left failure); [now apply lookup_insert_ne | reflexivity].
    + intros bytes [=].
    + intros f [= <-]. destruct (tar_left failure) as [part |]; [right | left; reflexivity].
      split; [discriminate | apply lookup_insert_eq].
  - rewrite Hzip.
    destruct (unlink_fault w (tarballName w)); destruct Hend as (_ & -> & _).
    + split; [| split; [intros b _ [=] | intros f [=]]].
      intros q Hq. now apply lookup_insert_ne.
    + split; [| split; [| intros f [=]]].
      * intros q Hq. rewrite lookup_delete_ne by congruence. now apply lookup_insert_ne.
      * intros b _ _ Hfresh. apply delete_insert_id. exact Hfresh.
Qed.

(** X11, on the fixture with a disk that is full: the part of the archive
    that [tar] wrote is still there after the run. *)
Lemma only_the_archive_changes_witness :
  let w := Scenario.world (inl Scenario.tar_rejecting) (FetchResolves Fixture.accepted) in
  let fs' := snd (fst (exec (uploadStorybook w Fixture.validOpts) Fixture.build)) in
  zip_tar w "/path/to/storybook" (tarballName w) medium = inl Scenario.tar_rejecting
  /\ fs' !! tarballName w = Some "mock tar"
  /\ fs' !! Scenario.project_path = Fixture.build !! Scenario.project_path.
Proof.
  intros w fs'.
  assert (Hzip : zip_tar w "/path/to/storybook" (tarballName w) medium
                 = inl Scenario.tar_rejecting) by reflexivity.
  split; [exact Hzip |].
  destruct (only_the_archive_changes w Fixture.validOpts Fixture.build)
    as (Hother & _ & Hfail).
  split.
  - destruct (Hfail Scenario.tar_rejecting Hzip) as [Hsame | [_ Hleft]]; [| exact Hleft].
    exfalso. assert (Hno : Fixture.build !! tarballName w = None) by (vm_compute; reflexivity).
    fold fs' in Hsame.
    assert (Hyes : fs' !! tarballName w = Some "mock tar") by (vm_compute; reflexivity).
    rewrite Hsame, Hno in Hyes. discriminate Hyes.
  - apply Hother. discriminate.
Defined.

(* ===================================================================== *)
(** * The address of the service and the name of the archive *)
(* ===================================================================== *)

Lemma class_slash (c : ascii) :
  Regex.class_matches false [("/"%char, "/"%char)] c = is_slash c.
Proof. destruct c as [[] [] [] [] [] [] [] []]; vm_compute; reflexivity. Qed.

Lemma run_AtLeast ic r lo s :
  Regex.run ic (Regex.AtLeast r lo) s
  = Regex.repeat_run (Regex.run ic r) lo (lo + length s) s.
Proof. reflexivity. Qed.

(** [/\/+$/] matches the whole of an input exactly when it is one slash or
    more. *)
Lemma slashes_match (s : list ascii) :
  Regex.matches_all false (Regex.AtLeast (Regex.Class [("/"%char, "/"%char)]) 1) s
  = negb (Regex.is_nil s) && forallb is_slash s.
Proof.
  unfold Regex.matches_all. rewrite run_AtLeast, repeat_class_all.
  rewrite (forallb_pointwise _ _ s class_slash).
  destruct s as [| c t]; [reflexivity |].
  cbn [length Regex.is_nil negb andb].
  replace (1 <=? S (length t)) with true by reflexivity.
  replace (S (length t) <=? 1 + S (length t)) with true
    by (symmetry; apply Nat.leb_le; lia).
  reflexivity.
Qed.

Lemma strip_slashes_chars (s : list ascii) :
  exists k,
    s = Regex.strip_at_end false (Regex.AtLeast (Regex.Class [("/"%char, "/"%char)]) 1) s
        ++ repeat "/"%char k
    /\ last (Regex.strip_at_end false (Regex.AtLeast (Regex.Class [("/"%char, "/"%char)]) 1) s)
       <> Some "/"%char.
Proof.
  induction s as [| c s (k & Hs & Hlast)].
  - exists 0. split; [reflexivity | discriminate].
  - cbn [Regex.strip_at_end]. rewrite slashes_match.
    cbn [Regex.is_nil negb andb].
    destruct (forallb is_slash (c :: s)) eqn:Hall.
    + exists (S (length s)). split; [| discriminate].
      cbn [app]. clear -Hall. revert c Hall.
      induction s as [| d s IH]; intros c Hall; cbn [forallb] in Hall;
        apply andb_true_iff in Hall; destruct Hall as [Hc Hs];
        apply Ascii.eqb_eq in Hc; subst c; [reflexivity |].
      cbn [length repeat]. f_equal. exact (IH d Hs).
    + exists k. split; [cbn [app]; f_equal; exact Hs |].
      set (t := Regex.strip_at_end false _ s) in *.
      destruct t as [| d t'] eqn:Ht.
      * cbn [app] in Hs. cbn [forallb] in Hall.
        assert (Hrep : forallb is_slash s = true).
        { rewrite Hs. clear. induction k; [reflexivity | exact IHk]. }
        rewrite Hrep, andb_true_r in Hall.
        cbn. intros [= ->]. discriminate Hall.
      * rewrite last_cons. destruct (last (d :: t')) eqn:Hl; [exact Hlast |].
        apply last_None in Hl. discriminate Hl.
Qed.

(** X12. [baseUrl.replace(/\/+$/, "")] removes the slashes at the end of the
    configured address and nothing else: the address is the result followed
    by slashes only, and the result does not end with a slash. *)
Theorem trailing_slashes_stripped :
  forall s : string,
    exists k,
      s = strip_trailing_slashes s +:+ string_of_list_ascii (repeat "/"%char k)
      /\ last (list_ascii_of_string (strip_trailing_slashes s)) <> Some "/"%char.
Proof.
  intros s. unfold strip_trailing_slashes.
  destruct (strip_slashes_chars (list_ascii_of_string s)) as (k & Hs & Hlast).
  exists k. split.
  - rewrite <- (string_of_list_ascii_of_string s) at 1.
    rewrite Hs at 1. clear.
    generalize (Regex.strip_at_end false (Regex.AtLeast (Regex.Class [("/"%char, "/"%char)]) 1)
                  (list_ascii_of_string s)).
    intros l. induction l as [| c l IH]; [reflexivity |].
    cbn [app string_of_list_ascii]. rewrite IH. reflexivity.
  - rewrite list_ascii_of_string_of_list_ascii. exact Hlast.
Qed.

Lemma hex_digit_lower (n : nat) :
  exists c, Js.hex_digit n = String c EmptyString /\ lower_hex c = true.
Proof.
  do 15 (destruct n as [| n]; [eexists; split; reflexivity |]).
  eexists; split; reflexivity.
Qed.

Lemma join_digits (f : nat -> string) (l : list nat) :
  (forall n, exists c, f n = String c EmptyString /\ lower_hex c = true) ->
  String.length (Js.join (map f l)) = length l
  /\ forallb lower_hex (list_ascii_of_string (Js.join (map f l))) = true.
Proof.
  intros Hf. induction l as [| n l [IHl IHh]]; [split; reflexivity |].
  destruct (Hf n) as (c & Hc & Hlow).
  change (Js.join (map f (n :: l))) with (f n +:+ Js.join (map f l)). rewrite Hc.
  change (String c EmptyString +:+ Js.join (map f l)) with (String c (Js.join (map f l))).
  cbn [String.length list_ascii_of_string forallb length].
  rewrite IHl, Hlow, IHh. split; reflexivity.
Qed.

(** X13. The archive is written in the directory of temporary files under a
    name of eight lowercase hexadecimal digits followed by [.tar.gz]. *)
Theorem archive_named_by_eight_hex_digits :
  forall w : World,
    exists h,
      tarballName w = path_join w (tmpdir w) (h +:+ ".tar.gz")
      /\ String.length h = 8
      /\ forallb lower_hex (list_ascii_of_string h) = true.
Proof.
  intros w. exists (randHexString w 8). split; [reflexivity |].
  unfold randHexString.
  destruct (join_digits (fun k => Js.hex_digit (random16 w k)) (seq 0 8)) as [Hl Hh];
    [intros n; apply hex_digit_lower |].
  split; assumption.
Qed.

(* ===================================================================== *)
(** * The search for the repository finds the nearest one *)
(* ===================================================================== *)

Lemma nth_parent_root (dir : string) (n : nat) : dirname dir = dir -> nth_parent n dir = dir.
Proof.
  intros Hroot. induction n as [| n IH]; [reflexivity |].
  cbn [nth_parent]. rewrite Hroot. exact IH.
Qed.

Lemma findGitRoot_fuel_nearest w :
  forall fuel dir st,
    rank dir < fuel ->
    exists r evs,
      findGitRoot_fuel w fuel dir st
      = (Normal (Some r), {| files := files st; trace := trace st ++ evs |})
      /\ Forall repository_event evs
      /\ match r with
         | Some d =>
             exists n, d = nth_parent n dir
                       /\ has_git w (files st) d = true
                       /\ forall m, m < n -> has_git w (files st) (nth_parent m dir) = false
         | None => forall n, has_git w (files st) (nth_parent n dir) = false
         end.
Proof.
  induction fuel as [| fuel IH]; intros dir st Hf; [lia |].
  destruct st as [fs tr]. cbn [findGitRoot_fuel].
  cbv beta iota zeta delta [bind fs_existsSync emit get_files ret fst snd files trace].
  destruct (fs !! path_join w dir ".git") as [x |] eqn:Hgit.
  - exists (Some dir), [EExistsSync (path_join w dir ".git")].
    split; [reflexivity |]. split; [repeat constructor |].
    exists 0. split; [reflexivity |]. split; [unfold has_git; now rewrite Hgit | lia].
  - assert (Hno : has_git w fs dir = false) by (unfold has_git; now rewrite Hgit).
    destruct (String.eqb_spec (dirname dir) dir) as [Heq | Hne].
    + exists None, [EExistsSync (path_join w dir ".git")].
      split; [reflexivity |]. split; [repeat constructor |].
      intros n. rewrite nth_parent_root by exact Heq. exact Hno.
    + pose proof (rank_parent dir Hne) as Hrank.
      destruct (IH (dirname dir)
                   {| files := fs; trace := tr ++ [EExistsSync (path_join w dir ".git")] |})
        as (r & evs & Hrun & Hevs & Hr); [lia |].
      cbn [files trace] in Hrun, Hr.
      exists r, (EExistsSync (path_join w dir ".git") :: evs).
      split; [rewrite Hrun, <- app_assoc; reflexivity |].
      split; [constructor; [exact I | exact Hevs] |].
      destruct r as [d |].
      * destruct Hr as (n & Hd & Hhas & Hnear). exists (S n).
        split; [exact Hd |]. split; [exact Hhas |].
        intros [| m] Hm; [exact Hno | apply Hnear; lia].
      * intros [| n]; [exact Hno | apply Hr].
Qed.

(** The search from any state: it returns, having looked for [.git] only;
    what it returns is the nearest directory that has one. *)
Lemma findGitRoot_run w dir st :
  exists r evs,
    findGitRoot w dir st = (Normal r, {| files := files st; trace := trace st ++ evs |})
    /\ Forall repository_event evs
    /\ match r with
       | Some d =>
           exists n, d = nth_parent n dir
                     /\ has_git w (files st) d = true
                     /\ forall m, m < n -> has_git w (files st) (nth_parent m dir) = false
       | None => forall n, has_git w (files st) (nth_parent n dir) = false
       end.
Proof.
  destruct (findGitRoot_fuel_nearest w (findGitRoot_depth dir) dir st (rank_depth dir))
    as (r & evs & Hrun & Hevs & Hr).
  exists r, evs. split; [| split; assumption].
  unfold findGitRoot, bind. rewrite Hrun. reflexivity.
Qed.

Lemma findGitRoot_nowhere w dir st :
  (forall n, has_git w (files st) (nth_parent n dir) = false) ->
  exists evs,
    findGitRoot w dir st = (Normal None, {| files := files st; trace := trace st ++ evs |})
    /\ Forall repository_event evs.
Proof.
  intros Hno. destruct (findGitRoot_run w dir st) as (r & evs & Hrun & Hevs & Hr).
  exists evs. split; [| exact Hevs].
  destruct r as [d |]; [| exact Hrun].
  destruct Hr as (n & -> & Hhas & _). rewrite Hno in Hhas. discriminate Hhas.
Qed.



(* ===================================================================== *)
(** * The metadata of the command line *)
(* ===================================================================== *)

(** X16. Where there is no repository (no [.git] entry in the directory or
    in any parent), a commit that is not given and a branch that is not
    given are errors: [getCommitSha] and [getBranch] throw [Could not find a
    git repository for the storybook directory.], having only looked for
    the repository; git is not asked. *)
Theorem commit_and_branch_need_a_repository :
  forall (w : World) (dir : string) (options : CommandArgs) (fs : gmap string string),
    (forall n, has_git w fs (nth_parent n dir) = false) ->
    (truthy_string (commit options) = false ->
     exists evs, exec (getCommitSha w dir options) fs = (Throw no_repository, fs, evs)
                 /\ Forall repository_event evs)
    /\ (truthy_string (branch_arg options) = false ->
        exists evs, exec (getBranch w dir options) fs = (Throw no_repository, fs, evs)
                    /\ Forall repository_event evs).
Proof.
  intros w dir options fs Hno.
  destruct (findGitRoot_nowhere w dir {| files := fs; trace := [] |} Hno) as (evs & Hrun & Hevs).
  split; intros Hopt; exists evs; (split; [| exact Hevs]).
  - unfold exec, getCommitSha. rewrite Hopt. unfold bind. rewrite Hrun. reflexivity.
  - unfold exec, getBranch. rewrite Hopt. unfold bind. rewrite Hrun. reflexivity.
Qed.

(** X16, on the fixture without files. *)
Lemma commit_and_branch_need_a_repository_witness :
  let w := Fixture.world (FetchResolves Fixture.accepted) None in
  let dir := "/path/to/storybook" in
  let fs : gmap string string := ∅ in
  (forall n, has_git w fs (nth_parent n dir) = false)
  /\ (exists evs, exec (getCommitSha w dir Scenario.tokenOnly) fs
                  = (Throw no_repository, fs, evs)
                  /\ Forall repository_event evs)
  /\ (exists evs, exec (getBranch w dir Scenario.tokenOnly) fs
                  = (Throw no_repository, fs, evs)
                  /\ Forall repository_event evs).
Proof.
  intros w dir fs.
  assert (Hno : forall n, has_git w fs (nth_parent n dir) = false) by (intros n; reflexivity).
  split; [exact Hno |].
  destruct (commit_and_branch_need_a_repository w dir Scenario.tokenOnly fs Hno) as [Hc Hb].
  exact (conj (Hc eq_refl) (Hb eq_refl)).
Defined.

(** X17. [getBranch] returns the branch given with [--branch] when that is
    not empty, without a step. Otherwise, in a repository, it asks git for
    the status: it returns the current branch when the status names one,
    throws [Could not find the current branch in the git status] when it
    names none, and rejects with the error of git when the query rejects.
    It never returns an empty name. *)
Theorem getBranch_never_empty :
  forall (w : World) (dir : string) (options : CommandArgs) (fs : gmap string string),
    let run := exec (getBranch w dir options) fs in
    let no_branch := Js.new_Error "Could not find the current branch in the git status" in
    (forall b, branch_arg options = Some b -> b <> "" -> run = (Normal b, fs, []))
    /\ (forall gitDir,
          truthy_string (branch_arg options) = false ->
          fst (fst (exec (findGitRoot w dir) fs)) = Normal (Some gitDir) ->
          gitDir <> "" ->
          fst (fst run)
          = match git_status w gitDir with
            | inl e => Throw e
            | inr (Some current) =>
                if String.eqb current "" then Throw no_branch else Normal current
            | inr None => Throw no_branch
            end
          /\ In (EGitStatus gitDir) (snd run))
    /\ fst (fst run) <> Normal "".
Proof.
  intros w dir options fs run no_branch. subst run no_branch.
  destruct (findGitRoot_run w dir {| files := fs; trace := [] |}) as (r & evs & Hrun & _).
  cbn [files trace app] in Hrun.
  assert (Hgit : truthy_string (branch_arg options) = false ->
                 getBranch w dir options {| files := fs; trace := [] |}
                 = match r with
                   | Some gitDir =>
                       if String.eqb gitDir ""
                       then (Throw no_repository, {| files := fs; trace := evs |})
                       else
                         (match git_status w gitDir with
                          | inl e => Throw e
                          | inr (Some current) =>
                              if String.eqb current ""
                              then Throw (Js.new_Error
                                     "Could not find the current branch in the git status")
                              else Normal current
                          | inr None =>
                              Throw (Js.new_Error
                                "Could not find the current branch in the git status")
                          end, {| files := fs; trace := evs ++ [EGitStatus gitDir] |})
                   | None => (Throw no_repository, {| files := fs; trace := evs |})
                   end).
  { intros Hopt. unfold getBranch. rewrite Hopt.
    unfold bind at 1. rewrite Hrun.
    destruct r as [gitDir |]; [| reflexivity].
    cbn [truthy_string negb nullish_or].
    destruct (String.eqb gitDir ""); cbn [negb]; [reflexivity |].
    unfold_git.
    destruct (git_status w gitDir) as [e | [current |]]; try reflexivity.
    cbn [negb]. destruct (String.eqb current ""); reflexivity. }
  split; [| split].
  - intros b Hb Hne. apply String.eqb_neq in Hne.
    unfold exec, getBranch. rewrite Hb. cbn [truthy_string nullish_or]. rewrite Hne.
    reflexivity.
  - intros gitDir Hopt Hroot Hne. apply String.eqb_neq in Hne.
    unfold exec in Hroot. rewrite Hrun in Hroot. cbn [fst] in Hroot.
    injection Hroot as ->.
    unfold exec. rewrite (Hgit Hopt), Hne. cbn [fst snd trace].
    split; [reflexivity | apply in_or_app; right; left; reflexivity].
  - destruct (truthy_string (branch_arg options)) eqn:Hopt.
    + unfold exec, getBranch. rewrite Hopt. cbn [fst ret].
      destruct (branch_arg options) as [b |]; [| discriminate Hopt].
      cbn [truthy_string nullish_or] in *.
      intros [= ->]. discriminate Hopt.
    + unfold exec. rewrite (Hgit eq_refl).
      destruct r as [gitDir |]; [| discriminate].
      destruct (String.eqb gitDir ""); [discriminate |]. cbn [fst].
      destruct (git_status w gitDir) as [e | [current |]]; try discriminate.
      destruct (String.eqb current "") eqn:Hcur; [discriminate |].
      intros [= ->]. discriminate Hcur.
Qed.

(** X17, on the fixture: no branch is given and the repository is on
    [feature]. *)
Lemma getBranch_never_empty_witness :
  let w := Fixture.world (FetchResolves Fixture.accepted) None in
  let run := exec (getBranch w "/path/to/storybook" Scenario.tokenOnly) Fixture.build in
  (truthy_string (branch_arg Scenario.tokenOnly) = false
   /\ fst (fst (exec (findGitRoot w "/path/to/storybook") Fixture.build))
      = Normal (Some "/path/to")
   /\ "/path/to" <> "")
  /\ fst (fst run) = Normal "feature"
  /\ In (EGitStatus "/path/to") (snd run).
Proof.
  intros w run.
  assert (Hopt : truthy_string (branch_arg Scenario.tokenOnly) = false) by reflexivity.
  assert (Hroot : fst (fst (exec (findGitRoot w "/path/to/storybook") Fixture.build))
                  = Normal (Some "/path/to")) by (vm_compute; reflexivity).
  assert (Hne : "/path/to" <> "") by discriminate.
  split; [exact (conj Hopt (conj Hroot Hne)) |].
  exact (proj1 (proj2 (getBranch_never_empty w "/path/to/storybook" Scenario.tokenOnly
                         Fixture.build)) "/path/to" Hopt Hroot Hne).
Defined.

Lemma find_no_origin (remotes : list string) :
  find (String.eqb "origin") remotes = None <-> ~ In "origin" remotes.
Proof.
  induction remotes as [| r remotes IH]; [cbn; tauto |].
  cbn [find In]. destruct (String.eqb_spec "origin" r) as [<- | Hne].
  - split; [discriminate | intros H; exfalso; apply H; left; reflexivity].
  - rewrite IH. split; [intros H [Heq | Hin]; [congruence | exact (H Hin)] | tauto].
Qed.

Lemma find_origin_found (remotes : list string) (o : string) :
  find (String.eqb "origin") remotes = Some o -> In "origin" remotes.
Proof.
  intros H. apply find_some in H. destruct H as [Hin Heq].
  apply String.eqb_eq in Heq. subst o. exact Hin.
Qed.

(** X19. [getBaseCommitShaAndBranch] returns [(undefined, undefined)]
    exactly when no repository is found above the directory, or [git.log()]
    resolves to a log without a latest entry, or [git.getRemotes()] resolves
    to remotes none of which is named origin. It then asks for no revision
    and no merge base, and leaves the files alone. A query that rejects is
    no such case: when [git.log()] rejects, as it does in a repository
    without a commit, the call rejects with that error. *)
Theorem base_resolution_gives_up_quietly :
  forall (w : World) (dir commitSha branch : string) (baseBranch : option string)
         (fs : gmap string string),
    let run := exec (getBaseCommitShaAndBranch w dir commitSha branch baseBranch) fs in
    (fst (fst run) = Normal (None, None) <-> no_base w dir fs)
    /\ (no_base w dir fs ->
        snd (fst run) = fs /\ forall e, In e (snd run) -> ~ branch_query e)
    /\ (forall gitDir e,
          fst (fst (exec (findGitRoot w dir) fs)) = Normal (Some gitDir) ->
          gitDir <> "" ->
          git_log w gitDir = inl e ->
          fst (fst run) = Throw e).
Proof.
  intros w dir commitSha branch baseBranch fs run. subst run.
  apply and_assoc. split.
  2: { intros gitDir e Hroot Hne Hlog. apply String.eqb_neq in Hne.
       destruct (findGitRoot_run w dir {| files := fs; trace := [] |}) as (r & evs & Hrun & _).
       unfold exec in Hroot |- *. rewrite Hrun in Hroot. cbn [fst] in Hroot |- *.
       injection Hroot as ->.
       unfold getBaseCommitShaAndBranch. unfold bind at 1. rewrite Hrun.
       cbn [truthy_string nullish_or]. rewrite Hne. cbn [negb].
       unfold_git. rewrite Hlog. reflexivity. }
  unfold no_base, exec. cbn [fst snd].
  destruct (findGitRoot_run w dir {| files := fs; trace := [] |}) as (r & evs & Hrun & Hevs & _).
  destruct (getBaseCommitShaAndBranch w dir commitSha branch baseBranch
              {| files := fs; trace := [] |}) as [o [fs1 tr1]] eqn:Hbase.
  unfold getBaseCommitShaAndBranch in Hbase. unfold bind at 1 in Hbase.
  rewrite Hrun in *. cbn [fst snd files trace app] in *.
  assert (Hq : forall e, In e evs -> ~ branch_query e).
  { intros e Hin. rewrite Stdlib.Lists.List.Forall_forall in Hevs.
    specialize (Hevs e Hin). destruct e; cbn in *; tauto. }
  assert (Hq1 : forall x e, ~ branch_query x -> In e (evs ++ [x]) -> ~ branch_query e).
  { intros x e Hx Hin. apply in_app_or in Hin. destruct Hin as [Hin | [<- | []]]; auto. }
  destruct r as [d |]; cbn [truthy_string negb] in Hbase.
  2: { injection Hbase as <- <- <-.
       split; [split; [exact (fun _ => I) | reflexivity]
              | intros _; split; [reflexivity | exact Hq]]. }
  destruct (String.eqb_spec d "") as [-> | Hd]; cbn [negb] in Hbase.
  { injection Hbase as <- <- <-.
    split; [split; [left; reflexivity | reflexivity]
           | intros _; split; [reflexivity | exact Hq]]. }
  revert Hbase. unfold_git.
  destruct (git_log w d) as [e | [latest |]] eqn:Hlog.
  - intros [= <- <- <-].
    split; [split; [discriminate | intros [? | [? | (? & ? & ? & _)]]; congruence] |].
    intros [? | [? | (? & ? & ? & _)]]; congruence.
  - unfold_git.
    destruct (git_getRemotes w d) as [e | remotes] eqn:Hrem.
    + intros [= <- <- <-].
      split; [split; [discriminate | intros [? | [? | (? & ? & ? & ? & _)]]; congruence] |].
      intros [? | [? | (? & ? & ? & ? & _)]]; congruence.
    + destruct (find (String.eqb "origin") remotes) as [origin |] eqn:Hfind.
      * pose proof (find_origin_found _ _ Hfind) as Hin.
        assert (Hyes : ~ (d = "" \/ inr (Some latest) = inr None (A:=Js.Error)
                          \/ exists l rs, inr (Some latest) = inr (Some l) (A:=Js.Error)
                                          /\ inr remotes = inr rs (A:=Js.Error)
                                          /\ ~ In "origin" rs)).
        { intros [? | [? | (? & ? & ? & [= <-] & Hn)]];
            [congruence | discriminate | exact (Hn Hin)]. }
        intros Hbase.
        split; [split; [| intros H; destruct (Hyes H)] | intros H; destruct (Hyes H)].
        revert Hbase. git_cases; intros [= <- <- <-]; discriminate.
      * apply find_no_origin in Hfind.
        intros [= <- <- <-].
        split; [split; [intros _; right; right; eauto | reflexivity] |].
        intros _. split; [reflexivity |].
        intros e Hin. rewrite <- app_assoc in Hin. apply in_app_or in Hin.
        destruct Hin as [Hin | [<- | [<- | []]]]; [now apply Hq | |]; intros [].
  - intros [= <- <- <-].
    split; [split; [intros _; right; left; reflexivity | reflexivity] |].
    intros _. split; [reflexivity |].
    intros e Hin. apply (Hq1 (EGitLog d) e); [intros [] | exact Hin].
Qed.

(** X19, on the fixture: without files there is no repository, and no base
    either; in a repository without a commit the call rejects with the
    error of git. *)
Lemma base_resolution_gives_up_quietly_witness :
  let w := Fixture.world (FetchResolves Fixture.accepted) None in
  let fs : gmap string string := ∅ in
  let run := exec (getBaseCommitShaAndBranch w "/path/to/storybook" Fixture.sha_a "feature"
                                             None) fs in
  let unborn := exec (getBaseCommitShaAndBranch Scenario.unborn "/path/to/storybook"
                                                Fixture.sha_a "main" None) Fixture.build in
  (no_base w "/path/to/storybook" fs
   /\ fst (fst run) = Normal (None, None)
   /\ snd (fst run) = fs
   /\ forall e, In e (snd run) -> ~ branch_query e)
  /\ (git_log Scenario.unborn "/path/to" = inl Scenario.no_commits
      /\ fst (fst unborn) = Throw Scenario.no_commits).
Proof.
  intros w fs run unborn.
  assert (Hno : no_base w "/path/to/storybook" fs) by (vm_compute; exact I).
  destruct (base_resolution_gives_up_quietly w "/path/to/storybook" Fixture.sha_a "feature"
              None fs) as (Hiff & Hquiet & _).
  split.
  - split; [exact Hno |]. split; [exact (proj2 Hiff Hno) | exact (Hquiet Hno)].
  - assert (Hlog : git_log Scenario.unborn "/path/to" = inl Scenario.no_commits)
      by reflexivity.
    split; [exact Hlog |].
    assert (Hroot : fst (fst (exec (findGitRoot Scenario.unborn "/path/to/storybook")
                                   Fixture.build)) = Normal (Some "/path/to"))
      by (vm_compute; reflexivity).
    assert (Hne : "/path/to" <> "") by discriminate.
    exact (proj2 (proj2 (base_resolution_gives_up_quietly Scenario.unborn
                           "/path/to/storybook" Fixture.sha_a "main" None Fixture.build))
                 "/path/to" Scenario.no_commits Hroot Hne Hlog).
Defined.

(* ===================================================================== *)
(** * The command: what vizdiff makes of the metadata and of the upload *)
(* ===================================================================== *)

(** [getToken] returns a token that [checkToken] accepts, without a step,
    or prints an error and ends the process. *)
Lemma getToken_cases w options st :
  (exists t, getToken w options st = (Normal t, st) /\ checkToken t = true)
  \/ (exists msg, getToken w options st
                  = (Exit, {| files := files st;
                              trace := trace st
                                       ++ [EError (errorPrefix w +:+ msg); EExit 1] |})).
Proof.
  unfold getToken. cbv zeta.
  set (resolved := nullish (nullish (token options) (env w "VIZDIFF_PROJECT_TOKEN"))
                           (env w "VIZDIFF_TOKEN")).
  destruct (truthy_string resolved) eqn:Ht; cbn [negb].
  - destruct (checkToken (nullish_or resolved "")) eqn:Hc.
    + left. exists (nullish_or resolved ""). split; [| exact Hc]. reflexivity.
    + right. eexists. cbn [negb]. unfold bind at 1 2. cbn [ret]. apply fatal_run.
  - right. eexists. unfold bind at 1. apply fatal_run.
Qed.

(** The [catch] block of [vizdiff]: one line of error, by the status code
    and the message of the error, and the end of the process. *)
Lemma report_exits w (err : Js.Error) (st : State) :
  exists msg,
    match Js.statusCode err with
    | Some 401%Z =>
        fatal w "Invalid project token. Please check that the token is correct."
    | Some 402%Z => fatal w (Js.message err)
    | _ =>
        if String.eqb (Js.message err) "fetch failed" then fatal w "Storybook upload failed"
        else fatal w ("Storybook upload failed: " +:+ Js.message err)
    end st
    = (Exit (A := unit),
       {| files := files st;
          trace := trace st ++ [EError (errorPrefix w +:+ msg); EExit 1] |})
    /\ (Js.statusCode err = Some 401%Z ->
        msg = "Invalid project token. Please check that the token is correct.")
    /\ (Js.statusCode err = Some 402%Z -> msg = Js.message err)
    /\ (Js.statusCode err <> Some 401%Z -> Js.statusCode err <> Some 402%Z ->
        msg = if String.eqb (Js.message err) "fetch failed" then "Storybook upload failed"
              else "Storybook upload failed: " +:+ Js.message err).
Proof.
  destruct (Js.statusCode err) as [z |].
  - destruct (Z.eq_dec z 401%Z) as [-> | H1].
    { eexists. split; [apply fatal_run |]. repeat split; congruence. }
    destruct (Z.eq_dec z 402%Z) as [-> | H2].
    { eexists. split; [apply fatal_run |]. repeat split; congruence. }
    exists (if String.eqb (Js.message err) "fetch failed" then "Storybook upload failed"
            else "Storybook upload failed: " +:+ Js.message err).
    split; [| repeat split; congruence].
    destruct (String.eqb (Js.message err) "fetch failed");
      repeat (match goal with
              | |- context [match ?p with _ => _ end] => is_var p; destruct p
              end; try apply fatal_run); congruence.
  - exists (if String.eqb (Js.message err) "fetch failed" then "Storybook upload failed"
            else "Storybook upload failed: " +:+ Js.message err).
    split; [| repeat split; congruence].
    destruct (String.eqb (Js.message err) "fetch failed"); apply fatal_run.
Qed.

Lemma getCommitSha_pure w dir options : tame metadata_step true (getCommitSha w dir options).
Proof.
  unfold getCommitSha. destruct (truthy_string (commit options)); [apply tame_ret |].
  apply tame_bind; [apply findGitRoot_tame; intros p; exact I | intros gitDir].
  repeat mstep; exact I.
Qed.

Lemma getBranch_pure w dir options : tame metadata_step true (getBranch w dir options).
Proof.
  unfold getBranch. destruct (truthy_string (branch_arg options)); [apply tame_ret |].
  apply tame_bind; [apply findGitRoot_tame; intros p; exact I | intros gitDir].
  repeat mstep; exact I.
Qed.

Lemma getBaseCommitShaAndBranch_pure w dir commitSha branch baseBranch :
  tame metadata_step true (getBaseCommitShaAndBranch w dir commitSha branch baseBranch).
Proof.
  unfold getBaseCommitShaAndBranch.
  apply tame_bind; [apply findGitRoot_tame; intros p; exact I | intros gitDir].
  repeat mstep; exact I.
Qed.

(** A step of the resolution, then the rest: the step threw, or the rest
    runs on the same files after steps of the resolution only. *)
Lemma bind_metadata {A B} (m : M A) (k : A -> M B) fs st o st' :
  tame metadata_step true m ->
  only_metadata fs st ->
  bind m k st = (o, st') ->
  (exists e, o = Throw e /\ only_metadata fs st')
  \/ (exists a st1, only_metadata fs st1 /\ k a st1 = (o, st')).
Proof.
  intros Hm [Hfs Htr] Hrun.
  destruct (tame_sound _ _ _ Hm) as [Hemits Hpure].
  destruct (Hpure eq_refl) as [Hkeeps Hlives].
  destruct (Hemits st) as (evs & Hevs & Hall).
  specialize (Hkeeps st). specialize (Hlives st).
  unfold bind in Hrun.
  destruct (m st) as [[a | e |] st1]; cbn [fst snd] in *.
  - right. exists a, st1. split; [| exact Hrun].
    split; [congruence | rewrite Hevs; apply Forall_app; split; assumption].
  - left. injection Hrun as <- <-. exists e. split; [reflexivity |].
    split; [congruence | rewrite Hevs; apply Forall_app; split; assumption].
  - congruence.
Qed.

Lemma metadata_fetch_nothing (evs : list Event) :
  Forall metadata_step evs -> fetched evs = [].
Proof.
  induction 1 as [| e evs He _ IH]; [reflexivity |].
  destruct e; cbn [fetched metadata_step] in *; try contradiction; assumption.
Qed.

(** A computation none of whose events is the end of the process does not
    end it. *)
Lemma tame_alive P pure {A} (m : M A) :
  tame P pure m -> (forall code, ~ P (EExit code)) -> never_exits m.
Proof.
  intros Hm HP.
  induction Hm as [A a | A e | A r | e He | | fs Hpure | A code Hpure He
                   | A B m k Hm IHm Hk IHk | A body handler Hb IHb Hh IHh
                   | A body cleanup Hb IHb Hc IHc].
  - apply lives_ret.
  - apply lives_throw.
  - apply lives_lift.
  - apply lives_emit.
  - apply lives_get_files.
  - intros st. discriminate.
  - destruct (HP code He).
  - apply lives_bind; assumption.
  - apply lives_try_catch; assumption.
  - apply lives_try_finally; assumption.
Qed.

(** [uploadStorybook] rejects or resolves: it never ends the process. *)
Lemma uploadStorybook_never_exits w opts : never_exits (uploadStorybook w opts).
Proof.
  apply (tame_alive _ _ _ (uploadStorybook_steps w opts)). intros code [[] _].
Qed.

(** X20. [vizdiff] rejects only while it resolves the commit, the branch and
    the base: when it rejects, nothing was read of the build, packed, sent
    or unlinked, the steps taken are looks for the repository and queries of
    git, and the files are untouched. An error of [uploadStorybook] never
    comes out of [vizdiff] as a rejection. The action of the [upload]
    command gives the rejection to [fatal]: the command prints the error, as
    [`${err}`] after the prefix, and exits with status 1. *)
Theorem vizdiff_rejects_before_uploading_only :
  forall (w : World) (dir : string) (options : CommandArgs) (fs : gmap string string)
         (e : Js.Error),
    let run := exec (vizdiff w dir options) fs in
    fst (fst run) = Throw e ->
    (snd (fst run) = fs /\ Forall metadata_step (snd run))
    /\ exec (upload_action w dir options) fs
       = (Exit, fs, snd run ++ [EError (errorPrefix w +:+ Js.Error_toString e); EExit 1]).
Proof.
  intros w dir options fs e run Hrun. subst run. unfold exec in *.
  unfold upload_action, try_catch.
  destruct (vizdiff w dir options {| files := fs; trace := [] |}) as [o st'] eqn:Hviz.
  cbn [fst snd] in *. subst o.
  assert (Hmeta : only_metadata fs st').
  { assert (H0 : only_metadata fs {| files := fs; trace := [] |})
      by (split; [reflexivity | constructor]).
    revert Hviz. generalize dependent {| files := fs; trace := [] |}. intros st0 H0.
    unfold vizdiff. unfold bind at 1.
    destruct (getToken_cases w options st0) as [(t & -> & _) | (msg & ->)]; [| discriminate].
    intros Hviz.
    apply (bind_metadata _ _ fs) in Hviz; [| apply getCommitSha_pure | exact H0].
    destruct Hviz as [(e' & [= <-] & Hst) | (c & st1 & H1 & Hviz)]; [exact Hst |].
    apply (bind_metadata _ _ fs) in Hviz; [| apply getBranch_pure | exact H1].
    destruct Hviz as [(e' & [= <-] & Hst) | (b & st2 & H2 & Hviz)]; [exact Hst |].
    apply (bind_metadata _ _ fs) in Hviz; [| | exact H2].
    2: { destruct (truthy_string (baseCommit options) && truthy_string (baseBranch_arg options));
         [apply tame_ret | apply getBaseCommitShaAndBranch_pure]. }
    destruct Hviz as [(e' & [= <-] & Hst) | (base & st3 & H3 & Hviz)]; [exact Hst |].
    exfalso. revert Hviz. cbv zeta. unfold try_catch.
    match goal with |- context [uploadStorybook w ?opts st3] =>
      destruct (uploadStorybook w opts st3) as [[[] | err |] st4] end; try discriminate.
    destruct (report_exits w err st4) as (msg & -> & _). discriminate. }
  destruct Hmeta as [Hfs Htr]. split; [split; assumption |].
  rewrite fatal_run. cbn [fst snd files trace]. rewrite Hfs. reflexivity.
Qed.

(** X20, on the fixture without files: no commit is given and there is no
    repository. *)
Lemma vizdiff_rejects_before_uploading_only_witness :
  let w := Fixture.world (FetchResolves Fixture.accepted) None in
  let fs : gmap string string := ∅ in
  let run := exec (vizdiff w "/path/to/storybook" Scenario.tokenOnly) fs in
  fst (fst run) = Throw no_repository
  /\ (snd (fst run) = fs /\ Forall metadata_step (snd run))
  /\ exec (upload_action w "/path/to/storybook" Scenario.tokenOnly) fs
     = (Exit, fs,
        snd run
        ++ [EError ("[ERROR] Error: "
                    +:+ "Could not find a git repository for the storybook directory.");
            EExit 1]).
Proof.
  intros w fs run.
  assert (Hrun : fst (fst run) = Throw no_repository) by (vm_compute; reflexivity).
  split; [exact Hrun |].
  exact (vizdiff_rejects_before_uploading_only w "/path/to/storybook" Scenario.tokenOnly fs
           no_repository Hrun).
Defined.

(** X21. With a valid token and the commit, the branch and the base given on
    the command line, an error thrown by [uploadStorybook] is reported with
    one call of [fatal] after the steps of the upload: one line on the
    standard error, then the process exits with status 1. The line is, after
    the prefix: for a status code 401 the invalid-project-token message,
    whatever the error says; for 402 the message of the error as it is;
    otherwise [Storybook upload failed] when the message is [fetch failed],
    and [Storybook upload failed: <message>] in every other case. *)
Theorem upload_failure_ends_the_process :
  forall (w : World) (dir t c b bc bb : string) (p : option string_or_number)
         (fs : gmap string string) (err : Js.Error),
    let options := {| token := Some t; commit := Some c; branch_arg := Some b;
                      baseBranch_arg := Some bb; baseCommit := Some bc; pr := p |} in
    let opts := {| storybookDir := dir; commitSha := c; branch := b; projectToken := t;
                   baseCommitSha := Some bc; baseBranch := Some bb;
                   prNumber := getPrNumber w options |} in
    let upload := exec (uploadStorybook w opts) fs in
    checkToken t = true -> c <> "" -> b <> "" -> bc <> "" -> bb <> "" ->
    fst (fst upload) = Throw err ->
    exists msg,
      exec (vizdiff w dir options) fs
      = (Exit, snd (fst upload),
         snd upload ++ [EError (errorPrefix w +:+ msg); EExit 1])
      /\ (Js.statusCode err = Some 401%Z ->
          msg = "Invalid project token. Please check that the token is correct.")
      /\ (Js.statusCode err = Some 402%Z -> msg = Js.message err)
      /\ (Js.statusCode err <> Some 401%Z -> Js.statusCode err <> Some 402%Z ->
          msg = if String.eqb (Js.message err) "fetch failed" then "Storybook upload failed"
                else "Storybook upload failed: " +:+ Js.message err).
Proof.
  intros w dir t c b bc bb p fs err options opts upload Ht Hc Hb Hbc Hbb Hrun.
  apply String.eqb_neq in Hc, Hb, Hbc, Hbb.
  subst upload. unfold exec in *.
  destruct (uploadStorybook w opts {| files := fs; trace := [] |}) as [o [fs1 tr1]] eqn:Hup.
  cbn [fst snd files trace] in *. subst o.
  destruct (report_exits w err {| files := fs1; trace := tr1 |}) as (msg & Hrep & Hmsg).
  exists msg. split; [| exact Hmsg].
  unfold vizdiff, getToken, getCommitSha, getBranch.
  cbn [token commit branch_arg baseCommit baseBranch_arg options nullish nullish_or truthy_string].
  rewrite Hc, Hb, Hbc, Hbb, Ht.
  assert (Hne : String.eqb t "" = false).
  { destruct (String.eqb_spec t "") as [-> | _]; [discriminate Ht | reflexivity]. }
  rewrite Hne. cbn [negb andb].
  cbv beta iota zeta delta [bind ret try_catch fst snd].
  fold options. fold opts. rewrite Hup.
  cbn [files trace] in Hrep. rewrite Hrep. reflexivity.
Qed.

(** X21, on the fixture with every option given and a service that answers
    403. *)
Lemma upload_failure_ends_the_process_witness :
  let w := Scenario.world (inr "mock tarball content") (FetchResolves Fixture.forbidden) in
  let options := Scenario.allGiven in
  let opts := {| storybookDir := "/path/to/storybook"; commitSha := Fixture.sha_a;
                 branch := "main"; projectToken := "0123456789abcdef";
                 baseCommitSha := Some Fixture.sha_b; baseBranch := Some "develop";
                 prNumber := getPrNumber w options |} in
  let upload := exec (uploadStorybook w opts) Fixture.build in
  fst (fst upload) = Throw Scenario.forbidden_error
  /\ exec (vizdiff w "/path/to/storybook" options) Fixture.build
     = (Exit, snd (fst upload),
        snd upload
        ++ [EError ("[ERROR] Storybook upload failed: "
                    +:+ Js.message Scenario.forbidden_error);
            EExit 1]).
Proof.
  intros w options opts upload.
  assert (Hrun : fst (fst upload) = Throw Scenario.forbidden_error) by (vm_compute; reflexivity).
  split; [exact Hrun |].
  assert (Ht : checkToken "0123456789abcdef" = true) by (vm_compute; reflexivity).
  assert (Hc : Fixture.sha_a <> "") by discriminate.
  assert (Hb : "main" <> "") by discriminate.
  assert (Hbc : Fixture.sha_b <> "") by discriminate.
  assert (Hbb : "develop" <> "") by discriminate.
  destruct (upload_failure_ends_the_process w "/path/to/storybook" "0123456789abcdef"
              Fixture.sha_a "main" Fixture.sha_b "develop" (Some (IsString "42"))
              Fixture.build Scenario.forbidden_error Ht Hc Hb Hbc Hbb Hrun)
    as (msg & Hviz & _ & _ & Hother).
  rewrite (Hother ltac:(discriminate) ltac:(discriminate)) in Hviz. exact Hviz.
Defined.






(** The shape of every run of [vizdiff]: it ends the process on the token,
    or rejects while it resolves the metadata, or it runs [uploadStorybook]
    on the files of the start, after steps of the resolution only, and
    reports its error. *)
Lemma vizdiff_shapes w dir options fs o st' :
  vizdiff w dir options {| files := fs; trace := [] |} = (o, st') ->
  (exists msg, o = Exit /\ trace st' = [EError (errorPrefix w +:+ msg); EExit 1])
  \/ (exists e, o = Throw e /\ Forall metadata_step (trace st'))
  \/ exists opts pre,
      Forall metadata_step pre
      /\ match exec (uploadStorybook w opts) fs with
         | (Normal _, _, evs) => o = Normal tt /\ trace st' = pre ++ evs
         | (Throw _, _, evs) =>
             o = Exit
             /\ exists msg, trace st' = pre ++ evs ++ [EError (errorPrefix w +:+ msg); EExit 1]
         | (Exit, _, _) => False
         end.
Proof.
  assert (H0 : only_metadata fs {| files := fs; trace := [] |})
    by (split; [reflexivity | constructor]).
  unfold vizdiff. unfold bind at 1.
  destruct (getToken_cases w options {| files := fs; trace := [] |})
    as [(t & -> & _) | (msg & ->)].
  2: { intros [= <- <-]. left. exists msg. split; reflexivity. }
  intros Hviz. right.
  apply (bind_metadata _ _ fs) in Hviz; [| apply getCommitSha_pure | exact H0].
  destruct Hviz as [(e' & -> & Hst) | (c & st1 & H1 & Hviz)];
    [left; exists e'; split; [reflexivity | exact (proj2 Hst)] |].
  apply (bind_metadata _ _ fs) in Hviz; [| apply getBranch_pure | exact H1].
  destruct Hviz as [(e' & -> & Hst) | (b & st2 & H2 & Hviz)];
    [left; exists e'; split; [reflexivity | exact (proj2 Hst)] |].
  apply (bind_metadata _ _ fs) in Hviz; [| | exact H2].
  2: { destruct (truthy_string (baseCommit options) && truthy_string (baseBranch_arg options));
       [apply tame_ret | apply getBaseCommitShaAndBranch_pure]. }
  destruct Hviz as [(e' & -> & Hst) | (base & st3 & [Hfs3 Htr3] & Hviz)];
    [left; exists e'; split; [reflexivity | exact (proj2 Hst)] |].
  right. cbv zeta in Hviz. unfold try_catch in Hviz.
  match type of Hviz with context [uploadStorybook w ?o st3] => set (opts := o) in * end.
  exists opts, (trace st3). split; [exact Htr3 |].
  destruct st3 as [fs3 tr3]. cbn [files trace] in *. subst fs3.
  rewrite (tame_frame _ _ _ (uploadStorybook_any w opts) fs tr3) in Hviz.
  unfold exec.
  pose proof (uploadStorybook_never_exits w opts {| files := fs; trace := [] |}) as Hlive.
  destruct (uploadStorybook w opts {| files := fs; trace := [] |}) as [[[] | err |] [fs4 tr4]];
    cbn [fst snd files trace] in *.
  - injection Hviz as <- <-. split; reflexivity.
  - destruct (report_exits w err {| files := fs4; trace := tr3 ++ tr4 |}) as (msg & Hrep & _).
    rewrite Hrep in Hviz. injection Hviz as <- <-.
    split; [reflexivity |]. exists msg. cbn [trace].
    rewrite <- app_assoc. reflexivity.
  - exact (Hlive eq_refl).
Qed.

(** X28. The command succeeds only through an accepted upload: [vizdiff]
    completes (without a rejection and without the end of the process)
    exactly when a request was submitted, the service accepted it (a success
    status and a body whose [success] is truthy) and the archive could be
    unlinked. *)
Theorem vizdiff_completes_only_when_accepted :
  forall (w : World) (dir : string) (options : CommandArgs) (fs : gmap string string),
    fst (fst (exec (vizdiff w dir options) fs)) = Normal tt
    <-> exists url req,
         In (EFetch url req) (snd (exec (vizdiff w dir options) fs))
         /\ accepts (fetch w url req) = true
         /\ unlink_fault w (tarballName w) = None.
Proof.
  intros w dir options fs. unfold exec at 1 2.
  destruct (vizdiff w dir options {| files := fs; trace := [] |}) as [o st'] eqn:Hviz.
  cbn [fst snd].
  destruct (vizdiff_shapes w dir options fs o st' Hviz)
    as [(msg & -> & Htr) | [(e & -> & Hmeta) | (opts & pre & Hpre & Hup)]].
  - split; [discriminate |].
    intros (url & req & Hin & _). rewrite Htr in Hin.
    destruct Hin as [H | [H | []]]; discriminate H.
  - split; [discriminate |].
    intros (url & req & Hin & _). apply fetched_In in Hin.
    rewrite (metadata_fetch_nothing _ Hmeta) in Hin. destruct Hin.
  - destruct (exec (uploadStorybook w opts) fs) as [[ou fs'] evs] eqn:Hrun.
    assert (Hfetch : forall tail url req,
               In (EFetch url req) (pre ++ evs ++ tail) -> fetched tail = [] ->
               In (EFetch url req) evs).
    { intros tail url req Hin Htail. apply fetched_In in Hin.
      rewrite !fetched_app, (metadata_fetch_nothing _ Hpre), Htail, app_nil_r in Hin.
      now apply fetched_In. }
    destruct ou as [[] | err |]; [| | destruct Hup].
    + destruct Hup as [-> Htr]. split; [intros _ | reflexivity].
      destruct (resolved_run w opts fs fs' evs Hrun) as (url & req & Hin & Hacc & Hunlink).
      exists url, req. split; [| split; assumption].
      rewrite Htr. apply in_or_app. right. exact Hin.
    + destruct Hup as [-> [msg Htr]]. split; [discriminate |].
      intros (url & req & Hin & Hacc & Hunlink). rewrite Htr in Hin.
      apply Hfetch in Hin; [| reflexivity].
      pose proof (accepted_run w opts fs _ fs' evs url req Hrun Hin Hacc Hunlink) as Habs.
      discriminate Habs.
Qed.

(** X28, on the fixture with every option given: the service accepts and
    the command completes. *)
Lemma vizdiff_completes_only_when_accepted_witness :
  let w := Scenario.world (inr "mock tarball content") (FetchResolves Fixture.accepted) in
  fst (fst (exec (vizdiff w "/path/to/storybook" Scenario.allGiven) Fixture.build))
  = Normal tt.
Proof.
  intros w.
  apply (proj2 (vizdiff_completes_only_when_accepted w "/path/to/storybook"
                  Scenario.allGiven Fixture.build)).
  exists Scenario.allGiven_url, Scenario.allGiven_request.
  split; [vm_compute; do 9 right; left; reflexivity |]. split; reflexivity.
Defined.

(** With both base options given and the token, the commit and the branch
    resolved, the run of [vizdiff] is the resolution of the commit, that of
    the branch and then the run of [uploadStorybook] with the pair as it was
    given; an error of the upload is reported and ends the process. *)
Lemma vizdiff_uploads_the_pair w dir options fs c b t sha br :
  baseCommit options = Some c -> c <> "" ->
  baseBranch_arg options = Some b -> b <> "" ->
  fst (fst (exec (getToken w options) fs)) = Normal t ->
  fst (fst (exec (getCommitSha w dir options) fs)) = Normal sha ->
  fst (fst (exec (getBranch w dir options) fs)) = Normal br ->
  let run := exec (vizdiff w dir options) fs in
  let upload :=
    exec (uploadStorybook w {| storybookDir := dir;
                               commitSha := sha;
                               branch := br;
                               projectToken := t;
                               baseCommitSha := Some c;
                               baseBranch := Some b;
                               prNumber := getPrNumber w options |}) fs in
  exists tail,
    snd run = snd (exec (getCommitSha w dir options) fs)
              ++ snd (exec (getBranch w dir options) fs)
              ++ snd upload ++ tail
    /\ snd (fst run) = snd (fst upload)
    /\ match fst (fst upload) with
       | Normal _ => fst (fst run) = Normal tt /\ tail = []
       | Throw err =>
           fst (fst run) = Exit
           /\ exists msg, tail = [EError (errorPrefix w +:+ msg); EExit 1]
       | Exit => False
       end.
Proof.
  intros Hc Hcne Hb Hbne Htok Hsha Hbr run upload. subst run upload.
  apply String.eqb_neq in Hcne, Hbne.
  unfold exec in *. cbn [fst snd] in *.
  set (st0 := {| files := fs; trace := [] |}) in *.
  destruct (getToken_cases w options st0) as [(t' & Ht' & _) | (msg & Hex)];
    [| rewrite Hex in Htok; discriminate Htok].
  rewrite Ht' in Htok. injection Htok as ->.
  destruct (tame_sound _ _ _ (getCommitSha_pure w dir options)) as [_ Hp1].
  destruct (Hp1 eq_refl) as [Hk1 _]. specialize (Hk1 st0).
  destruct (getCommitSha w dir options st0) as [o1 [fs1 tr1]] eqn:E1.
  cbn [fst snd files trace] in Hsha, Hk1 |- *. subst o1 fs1.
  destruct (tame_sound _ _ _ (getBranch_pure w dir options)) as [_ Hp2].
  destruct (Hp2 eq_refl) as [Hk2 _]. specialize (Hk2 st0).
  pose proof (tame_frame _ _ _ (getBranch_pure w dir options) fs tr1) as F2.
  fold st0 in F2.
  destruct (getBranch w dir options st0) as [o2 [fs2 tr2]] eqn:E2.
  cbn [fst snd files trace] in Hbr, Hk2, F2 |- *. subst o2 fs2.
  assert (Hviz : vizdiff w dir options st0
                 = try_catch
                     (uploadStorybook w {| storybookDir := dir;
                                           commitSha := sha;
                                           branch := br;
                                           projectToken := t;
                                           baseCommitSha := Some c;
                                           baseBranch := Some b;
                                           prNumber := getPrNumber w options |})
                     (fun err =>
                        match Js.statusCode err with
                        | Some 401%Z =>
                            fatal w "Invalid project token. Please check that the token is correct."
                        | Some 402%Z => fatal w (Js.message err)
                        | _ =>
                            if String.eqb (Js.message err) "fetch failed"
                            then fatal w "Storybook upload failed"
                            else fatal w ("Storybook upload failed: " +:+ Js.message err)
                        end)
                     {| files := fs; trace := tr1 ++ tr2 |}).
  { unfold vizdiff.
    rewrite (bind_normal _ _ _ _ _ Ht'), (bind_normal _ _ _ _ _ E1), (bind_normal _ _ _ _ _ F2).
    rewrite Hc, Hb. cbn [truthy_string]. rewrite Hcne, Hbne. cbn [negb andb].
    rewrite bind_ret_l. reflexivity. }
  rewrite Hviz. clear Hviz. unfold try_catch.
  match goal with |- context [uploadStorybook w ?o _] => set (opts := o) end.
  rewrite (tame_frame _ _ _ (uploadStorybook_any w opts) fs (tr1 ++ tr2)).
  fold st0.
  pose proof (uploadStorybook_never_exits w opts st0) as Hlive.
  destruct (uploadStorybook w opts st0) as [[[] | err |] [fs4 tr4]];
    cbn [fst snd files trace] in *.
  - exists []. rewrite app_nil_r, <- app_assoc. auto.
  - destruct (report_exits w err {| files := fs4; trace := (tr1 ++ tr2) ++ tr4 |})
      as (msg & Hrep & _).
    rewrite Hrep. cbn [fst snd files trace].
    exists [EError (errorPrefix w +:+ msg); EExit 1].
    split; [rewrite <- !app_assoc; reflexivity |].
    split; [reflexivity |]. split; [reflexivity | exists msg; reflexivity].
  - destruct (Hlive eq_refl).
Qed.

(** C9. When both [--base-commit] and [--base-branch] are given (non-empty),
    [vizdiff] does not resolve the base. No query for remotes, revisions or
    a merge base is issued, the log is read only to find the commit and the
    status only to find the branch, the repository is searched only for
    those. The pair is used as it was given: once the token, the commit and
    the branch are resolved, the steps of the command are those of the
    resolution of the commit, those of the resolution of the branch, and then
    those of [uploadStorybook] called with the given base commit and base
    branch, whose result is the result of the command (an error of the
    upload being reported, which ends the process); and every request
    carries the given pair in its base headers. *)
Theorem explicit_base_skips_resolution :
  forall (w : World) (dir : string) (options : CommandArgs) (fs : gmap string string)
         (c b : string),
    baseCommit options = Some c -> c <> "" ->
    baseBranch_arg options = Some b -> b <> "" ->
    let run := exec (vizdiff w dir options) fs in
    (forall e, In e (snd run) -> ~ base_query options e)
    /\ (forall t sha br,
          fst (fst (exec (getToken w options) fs)) = Normal t ->
          fst (fst (exec (getCommitSha w dir options) fs)) = Normal sha ->
          fst (fst (exec (getBranch w dir options) fs)) = Normal br ->
          let upload :=
            exec (uploadStorybook w {| storybookDir := dir;
                                       commitSha := sha;
                                       branch := br;
                                       projectToken := t;
                                       baseCommitSha := Some c;
                                       baseBranch := Some b;
                                       prNumber := getPrNumber w options |}) fs in
          exists tail,
            snd run = snd (exec (getCommitSha w dir options) fs)
                      ++ snd (exec (getBranch w dir options) fs)
                      ++ snd upload ++ tail
            /\ snd (fst run) = snd (fst upload)
            /\ match fst (fst upload) with
               | Normal _ => fst (fst run) = Normal tt /\ tail = []
               | Throw err =>
                   fst (fst run) = Exit
                   /\ exists msg, tail = [EError (errorPrefix w +:+ msg); EExit 1]
               | Exit => False
               end)
    /\ (forall url req,
           In (EFetch url req) (snd run) ->
           header_of "X-Vizdiff-Base-Commit-Sha" (headers req) = Some c
           /\ header_of "X-Vizdiff-Base-Branch" (headers req) = Some b).
Proof.
  intros w dir options fs c b Hc Hcne Hb Hbne run.
  destruct (explicit_base_events w dir options fs c b Hc Hcne Hb Hbne) as [Hquiet Hpair].
  split; [exact Hquiet |]. split; [| exact Hpair].
  intros t sha br Htok Hsha Hbr.
  exact (vizdiff_uploads_the_pair w dir options fs c b t sha br
           Hc Hcne Hb Hbne Htok Hsha Hbr).
Qed.

(** C9, on the fixture with [--base-commit] and [--base-branch] given: the
    commit and the branch come from the repository, the base from the
    command line, and the request of the run carries it. *)
Lemma explicit_base_skips_resolution_witness :
  let w := Fixture.world (FetchResolves Fixture.accepted) None in
  let options := Fixture.explicitBase in
  let run := exec (vizdiff w "/path/to/storybook" options) Fixture.build in
  (baseCommit options = Some Fixture.sha_b /\ Fixture.sha_b <> ""
   /\ baseBranch_arg options = Some "develop" /\ "develop" <> "")
  /\ fst (fst run) = Normal tt
  /\ fetched (snd run) = [(Scenario.allGiven_url, Scenario.explicitBase_request)]
  /\ header_of "X-Vizdiff-Base-Commit-Sha" (headers Scenario.explicitBase_request)
     = Some Fixture.sha_b
  /\ header_of "X-Vizdiff-Base-Branch" (headers Scenario.explicitBase_request)
     = Some "develop"
  /\ (forall e, In e (snd run) -> ~ base_query options e).
Proof.
  intros w options run.
  assert (Hc : baseCommit options = Some Fixture.sha_b) by reflexivity.
  assert (Hcne : Fixture.sha_b <> "") by discriminate.
  assert (Hb : baseBranch_arg options = Some "develop") by reflexivity.
  assert (Hbne : "develop" <> "") by discriminate.
  split; [exact (conj Hc (conj Hcne (conj Hb Hbne))) |].
  destruct (explicit_base_skips_resolution w "/path/to/storybook" options Fixture.build
              Fixture.sha_b "develop" Hc Hcne Hb Hbne) as (Hquiet & Hupload & Hpair).
  assert (Hfetched : fetched (snd run)
                     = [(Scenario.allGiven_url, Scenario.explicitBase_request)])
    by (vm_compute; reflexivity).
  assert (Hin : In (EFetch Scenario.allGiven_url Scenario.explicitBase_request) (snd run)).
  { apply fetched_In. rewrite Hfetched. left. reflexivity. }
  destruct (Hupload "0123456789abcdef" Fixture.sha_a "feature") as (tail & _ & _ & Hend);
    try (vm_compute; reflexivity).
  destruct (Hpair _ _ Hin) as [Hbc Hbb].
  split.
  - assert (Hok : fst (fst (exec (uploadStorybook w
                     {| storybookDir := "/path/to/storybook";
                        commitSha := Fixture.sha_a;
                        branch := "feature";
                        projectToken := "0123456789abcdef";
                        baseCommitSha := Some Fixture.sha_b;
                        baseBranch := Some "develop";
                        prNumber := getPrNumber w options |}) Fixture.build))
                  = Normal tt) by (vm_compute; reflexivity).
    rewrite Hok in Hend. exact (proj1 Hend).
  - exact (conj Hfetched (conj Hbc (conj Hbb Hquiet))).
Defined.

(** C6, at the failing input. When the current branch shares no commit with
    the base branch, the merge-base query prints nothing and [git.raw]
    resolves: base resolution returns an empty base commit with the base
    branch, without the error that the [catch] block of lines 183-187 words,
    and the command uploads with the header of the base branch and none for
    the base commit. *)
Lemma no_common_ancestor_is_no_error :
  let w := Fixture.world (FetchResolves Fixture.accepted) None in
  let resolution :=
    exec (getBaseCommitShaAndBranch w "/path/to/storybook" Fixture.sha_a "orphan" None)
         Fixture.build in
  let run := exec (vizdiff w "/path/to/storybook" Scenario.fromOrphan) Fixture.build in
  merge_base_of w "/path/to" "orphan" "main" = inr ""
  /\ fst (fst resolution) = Normal (Some "", Some "main")
  /\ fst (fst run) = Normal tt
  /\ fetched (snd run) = [(Scenario.allGiven_url, Scenario.fromOrphan_request)]
  /\ header_of "X-Vizdiff-Base-Branch" (headers Scenario.fromOrphan_request) = Some "main"
  /\ header_of "X-Vizdiff-Base-Commit-Sha" (headers Scenario.fromOrphan_request) = None.
Proof.
  intros w resolution run.
  split; [reflexivity |]. split; [vm_compute; reflexivity |].
  split; [vm_compute; reflexivity |]. split; [vm_compute; reflexivity |].
  split; reflexivity.
Qed.

(* ===================================================================== *)
(** * Color support *)
(* ===================================================================== *)

(** The two searches of [hasFlag] come to one: a search before the
    terminator. *)
Lemma indexOf_before_terminator (x : string) (argv : list string) :
  match Color.indexOf x argv, Color.indexOf "--" argv with
  | None, _ => false
  | Some _, None => true
  | Some p, Some t => p <? t
  end
  = existsb (fun a => String.eqb a x) (Color.before_terminator argv).
Proof.
  induction argv as [| a rest IH]; [reflexivity |].
  cbn [Color.indexOf Color.before_terminator].
  destruct (String.eqb_spec a "--") as [-> | Hterm].
  - cbn [existsb]. destruct (String.eqb "--" x); [reflexivity |].
    destruct (Color.indexOf x rest); reflexivity.
  - cbn [existsb]. destruct (String.eqb a x); cbn [orb].
    + destruct (Color.indexOf "--" rest); reflexivity.
    + rewrite <- IH.
      destruct (Color.indexOf x rest), (Color.indexOf "--" rest); reflexivity.
Qed.

Lemma hasFlag_long (flag : string) (argv : list string) :
  Js.starts_with ["-"%char] (list_ascii_of_string flag) = false ->
  2 <= String.length flag ->
  Color.hasFlag flag argv = existsb (fun a => String.eqb a ("--" +:+ flag))
                                    (Color.before_terminator argv).
Proof.
  intros Hdash Hlen. unfold Color.hasFlag. rewrite Hdash.
  destruct (Nat.eqb_spec (String.length flag) 1) as [Hone | _]; [lia |].
  cbv zeta. apply indexOf_before_terminator.
Qed.

(** X23. For a flag of two code units or more that does not start with a
    dash, [hasFlag] holds exactly when [--flag] is among the arguments that
    come before the terminator [--]: an argument after the terminator is
    never taken for a flag. *)
Theorem hasFlag_before_terminator :
  forall (flag : string) (argv : list string),
    Js.starts_with ["-"%char] (list_ascii_of_string flag) = false ->
    2 <= String.length flag ->
    (Color.hasFlag flag argv = true <-> In ("--" +:+ flag) (Color.before_terminator argv)).
Proof.
  intros flag argv Hdash Hlen. rewrite (hasFlag_long flag argv Hdash Hlen).
  rewrite existsb_exists. split.
  - intros (a & Hin & Ha). apply String.eqb_eq in Ha. now subst a.
  - intros Hin. exists ("--" +:+ flag). split; [exact Hin | apply String.eqb_refl].
Qed.

(** X23, on a command line with [--color] before the terminator and
    [--no-color] after it. *)
Lemma hasFlag_before_terminator_witness :
  let argv := ["node"; "vizdiff"; "--color"; "--"; "--no-color"] in
  (Js.starts_with ["-"%char] (list_ascii_of_string "no-color") = false
   /\ 2 <= String.length "no-color")
  /\ (Color.hasFlag "no-color" argv = true
      <-> In "--no-color" (Color.before_terminator argv))
  /\ Color.hasFlag "no-color" argv = false
  /\ Color.hasFlag "color" argv = true.
Proof.
  intros argv.
  assert (Hdash : Js.starts_with ["-"%char] (list_ascii_of_string "no-color") = false)
    by reflexivity.
  assert (Hlen : 2 <= String.length "no-color") by (vm_compute; lia).
  split; [exact (conj Hdash Hlen) |].
  split; [exact (hasFlag_before_terminator "no-color" argv Hdash Hlen) |].
  split; reflexivity.
Defined.

Lemma hasFlag_color_flag (flag : string) (argv : list string) :
  In flag Color.color_flags ->
  Color.hasFlag flag argv = existsb (fun a => String.eqb a ("--" +:+ flag))
                                    (Color.before_terminator argv).
Proof.
  intros Hin. apply hasFlag_long;
    cbn in Hin; repeat (destruct Hin as [<- | Hin]; [vm_compute; first [reflexivity | lia] |]);
    destruct Hin.
Qed.

Lemma hasFlag_absent (flag : string) (argv : list string) :
  In flag Color.color_flags ->
  ~ In ("--" +:+ flag) (Color.before_terminator argv) ->
  Color.hasFlag flag argv = false.
Proof.
  intros Hin Hno. rewrite hasFlag_color_flag by exact Hin.
  apply not_true_is_false. intros H. apply existsb_exists in H.
  destruct H as (a & Ha & Heq). apply String.eqb_eq in Heq. subst a. exact (Hno Ha).
Qed.

Lemma hasFlag_present (flag : string) (argv : list string) :
  In flag Color.color_flags ->
  In ("--" +:+ flag) (Color.before_terminator argv) ->
  Color.hasFlag flag argv = true.
Proof.
  intros Hin Hyes. rewrite hasFlag_color_flag by exact Hin.
  apply existsb_exists. exists ("--" +:+ flag). split; [exact Hyes | apply String.eqb_refl].
Qed.

Lemma envForceColor_range (h : Color.Host) (n : Z) :
  Color.envForceColor h = Some n -> (0 <= n <= 3)%Z.
Proof.
  unfold Color.envForceColor.
  destruct (Color.env h "FORCE_COLOR") as [v |]; [| discriminate].
  destruct (String.eqb v "true"); [intros [= <-]; lia |].
  destruct (String.eqb v "false"); [intros [= <-]; lia |].
  destruct (String.length v =? 0); [intros [= <-]; lia |].
  destruct (Color.parseInt10 v) as [k |]; [| discriminate].
  destruct (Z.leb_spec 0 k); [| discriminate].
  destruct (Z.leb_spec k 3); [| discriminate].
  intros [= <-]. lia.
Qed.

Lemma flagForceColor_range (h : Color.Host) (n : Z) :
  Color.flagForceColor h = Some n -> (0 <= n <= 3)%Z.
Proof.
  unfold Color.flagForceColor. cbv zeta.
  destruct (_ || _ || _ || _); [intros [= <-]; lia |].
  destruct (_ || _ || _ || _); [intros [= <-]; lia | discriminate].
Qed.

(** Whatever the flags, the environment and the system, the level is one of
    0, 1, 2 and 3. *)
Lemma supportsColorLevel_range (h : Color.Host) stream options :
  (0 <= Color.supportsColorLevel h stream options <= 3)%Z.
Proof.
  unfold Color.supportsColorLevel. cbv zeta.
  set (forceColor := nullish (Color.envForceColor h)
                       (if nullish_or (Color.sniffFlags options) true
                        then Color.flagForceColor h else None)).
  assert (Hmin : (0 <= nullish_or forceColor 0 <= 3)%Z).
  { subst forceColor. unfold nullish, nullish_or.
    destruct (Color.envForceColor h) as [n |] eqn:He.
    - exact (envForceColor_range h n He).
    - destruct (match Color.sniffFlags options with Some a => a | None => true end);
        [| cbn; lia].
      destruct (Color.flagForceColor h) as [n |] eqn:Hf; [| cbn; lia].
      exact (flagForceColor_range h n Hf). }
  generalize dependent (nullish_or forceColor 0%Z). intros min Hmin.
  color_cases; lia.
Qed.

Lemma translateLevel_none (l : Z) : Color.translateLevel l = None <-> l = 0%Z.
Proof.
  unfold Color.translateLevel. destruct (Z.eqb_spec l 0); split; congruence.
Qed.

(** X24. Whatever the flags, the environment, the system and the stream,
    [supportsColorLevel] gives a level from 0 to 3, and what
    [createSupportsColor] makes of it is consistent: [false], or a level
    from 1 to 3 with basic colors, with 256 colors exactly from level 2 and
    with 16 million colors exactly at level 3. *)
Theorem color_support_is_consistent :
  forall (h : Color.Host) (stream : option Color.StreamLike)
         (options : Color.SupportsColorOptions),
    (0 <= Color.supportsColorLevel h stream options <= 3)%Z
    /\ match Color.createSupportsColor h stream options with
       | None => True
       | Some c =>
           (1 <= Color.level c <= 3)%Z
           /\ Color.hasBasic c = true
           /\ (Color.has256 c = true <-> (2 <= Color.level c)%Z)
           /\ (Color.has16m c = true <-> Color.level c = 3%Z)
       end.
Proof.
  intros h stream options. split; [apply supportsColorLevel_range |].
  unfold Color.createSupportsColor. cbv zeta.
  match goal with
  | |- context [Color.supportsColorLevel h stream ?o] =>
      pose proof (supportsColorLevel_range h stream o) as Hr;
      generalize dependent (Color.supportsColorLevel h stream o)
  end.
  intros l Hr. unfold Color.translateLevel.
  destruct (Z.eqb_spec l 0) as [-> | Hne]; [exact I |].
  cbn [Color.level Color.hasBasic Color.has256 Color.has16m].
  split; [lia |]. split; [reflexivity |].
  split; [apply Z.leb_le |]. rewrite Z.leb_le. lia.
Qed.

Lemma forced_zero (h : Color.Host) stream options :
  nullish (Color.envForceColor h)
          (if nullish_or (Color.sniffFlags options) true
           then Color.flagForceColor h else None) = Some 0%Z ->
  Color.supportsColorLevel h stream options = 0%Z.
Proof.
  intros H. unfold Color.supportsColorLevel. cbv zeta. rewrite H. reflexivity.
Qed.

(** X25. Color can always be turned off. With FORCE_COLOR set to [false], or
    to a text that [parseInt] reads as 0, [createSupportsColor] gives
    [false] whatever the flags, the stream and the rest of the environment;
    without FORCE_COLOR, so does any of the flags [--no-color],
    [--no-colors], [--color=false] and [--color=never] before the
    terminator, unless the caller asked not to look at the flags. *)
Theorem color_forced_off :
  forall (h : Color.Host) (stream : option Color.StreamLike)
         (options : Color.SupportsColorOptions),
    (exists v, Color.env h "FORCE_COLOR" = Some v
               /\ (v = "false" \/ Color.parseInt10 v = Some 0%Z))
    \/ (Color.env h "FORCE_COLOR" = None
        /\ Color.sniffFlags options <> Some false
        /\ exists flag,
            In flag ["no-color"; "no-colors"; "color=false"; "color=never"]
            /\ In ("--" +:+ flag) (Color.before_terminator (Color.argv h))) ->
    Color.createSupportsColor h stream options = None.
Proof.
  intros h stream options H.
  unfold Color.createSupportsColor. cbv zeta.
  apply translateLevel_none, forced_zero. cbn [Color.sniffFlags].
  destruct H as [(v & Hv & Hoff) | (Hnone & Hsniff & flag & Hflag & Hin)].
  - assert (He : Color.envForceColor h = Some 0%Z).
    { unfold Color.envForceColor. rewrite Hv.
      destruct Hoff as [-> | Hparse]; [reflexivity |].
      destruct (String.eqb_spec v "true") as [-> | _]; [discriminate Hparse |].
      destruct (String.eqb_spec v "false") as [-> | _]; [reflexivity |].
      destruct (Nat.eqb_spec (String.length v) 0) as [Hlen | _].
      { destruct v; [discriminate Hparse | discriminate Hlen]. }
      rewrite Hparse. reflexivity. }
    rewrite He. reflexivity.
  - assert (He : Color.envForceColor h = None).
    { unfold Color.envForceColor. rewrite Hnone. reflexivity. }
    rewrite He. cbn [nullish].
    assert (Hs : nullish_or (Color.sniffFlags options) true = true).
    { destruct (Color.sniffFlags options) as [[] |]; [reflexivity | congruence | reflexivity]. }
    rewrite Hs. unfold Color.flagForceColor. cbv zeta.
    assert (Hhas : Color.hasFlag flag (Color.argv h) = true).
    { apply hasFlag_present; [| exact Hin].
      cbn in Hflag |- *. tauto. }
    cbn in Hflag.
    destruct Hflag as [<- | [<- | [<- | [<- | []]]]]; rewrite Hhas;
      rewrite ?orb_true_r; reflexivity.
Qed.

(** X25, on a terminal with FORCE_COLOR=0. *)
Lemma color_forced_off_witness :
  let h := Color.process [] (Some "0") true in
  let stream := Some {| Color.isTTY := Some true |} in
  let options := {| Color.streamIsTTY := None; Color.sniffFlags := None |} in
  (Color.env h "FORCE_COLOR" = Some "0" /\ Color.parseInt10 "0" = Some 0%Z)
  /\ Color.createSupportsColor h stream options = None.
Proof.
  intros h stream options.
  assert (Hv : Color.env h "FORCE_COLOR" = Some "0") by reflexivity.
  assert (Hp : Color.parseInt10 "0" = Some 0%Z) by reflexivity.
  split; [exact (conj Hv Hp) |].
  exact (color_forced_off h stream options
           (or_introl (ex_intro _ "0" (conj Hv (or_intror Hp))))).
Defined.

Lemma no_flags (h : Color.Host) :
  (forall flag, In flag Color.color_flags ->
                ~ In ("--" +:+ flag) (Color.before_terminator (Color.argv h))) ->
  forall flag, In flag Color.color_flags -> Color.hasFlag flag (Color.argv h) = false.
Proof. intros Hno flag Hin. apply hasFlag_absent; [exact Hin | exact (Hno flag Hin)]. Qed.

(** Without FORCE_COLOR, without a flag for colors and outside Azure
    DevOps, a stream that is missing or is no terminal has level 0. *)
Lemma unforced_without_terminal (h : Color.Host) stream options :
  Color.env h "FORCE_COLOR" = None ->
  (forall flag, In flag Color.color_flags ->
                ~ In ("--" +:+ flag) (Color.before_terminator (Color.argv h))) ->
  truthy_string (Color.env h "TF_BUILD") && truthy_string (Color.env h "AGENT_NAME") = false ->
  match stream with
  | None => True
  | Some _ => match Color.streamIsTTY options with
              | Some (Some true) => False
              | _ => True
              end
  end ->
  Color.supportsColorLevel h stream options = 0%Z.
Proof.
  intros Henv Hflags Hazure Htty.
  pose proof (no_flags h Hflags) as Hno.
  unfold Color.supportsColorLevel. cbv zeta.
  assert (He : Color.envForceColor h = None).
  { unfold Color.envForceColor. rewrite Henv. reflexivity. }
  assert (Hf : Color.flagForceColor h = None).
  { unfold Color.flagForceColor. cbv zeta.
    rewrite !Hno by (cbn; tauto). reflexivity. }
  rewrite He, Hf, Hazure. cbn [nullish].
  rewrite !Hno by (cbn; tauto). cbn [orb].
  replace (if nullish_or (Color.sniffFlags options) true then None else None)
    with (@None Z) by (destruct (nullish_or (Color.sniffFlags options) true); reflexivity).
  replace (if nullish_or (Color.sniffFlags options) true then None else None)
    with (@None Z) by (destruct (nullish_or (Color.sniffFlags options) true); reflexivity).
  destruct stream as [s |]; [| reflexivity].
  destruct (Color.streamIsTTY options) as [[[] |] |]; [destruct Htty | | |]; reflexivity.
Qed.

(** X26. Output that is no terminal gets no color unless color is asked for:
    without FORCE_COLOR, without a flag for colors before the terminator and
    outside Azure DevOps (TF_BUILD with AGENT_NAME), [supportsColor.stdout]
    is [false] when the standard output is no terminal, and
    [supportsColor.stderr] is when the standard error is none, whatever TERM
    and the rest of the environment say. *)
Theorem piped_output_has_no_color :
  forall h : Color.Host,
    Color.env h "FORCE_COLOR" = None ->
    (forall flag, In flag Color.color_flags ->
                  ~ In ("--" +:+ flag) (Color.before_terminator (Color.argv h))) ->
    truthy_string (Color.env h "TF_BUILD") && truthy_string (Color.env h "AGENT_NAME") = false ->
    (Color.isatty h 1 = false -> fst (Color.supportsColor h) = None)
    /\ (Color.isatty h 2 = false -> snd (Color.supportsColor h) = None).
Proof.
  intros h Henv Hflags Hazure.
  split; intros Htty; unfold Color.supportsColor, Color.createSupportsColor; cbn [fst snd];
    cbv zeta; apply translateLevel_none;
    apply unforced_without_terminal; try assumption;
    cbn [Color.streamIsTTY]; rewrite Htty; exact I.
Qed.

(** X26, on a process whose output is piped; the same process on a terminal
    has 256 colors. *)
Lemma piped_output_has_no_color_witness :
  let h := Color.process [] None false in
  (Color.env h "FORCE_COLOR" = None
   /\ (forall flag, In flag Color.color_flags ->
                    ~ In ("--" +:+ flag) (Color.before_terminator (Color.argv h)))
   /\ truthy_string (Color.env h "TF_BUILD") && truthy_string (Color.env h "AGENT_NAME") = false
   /\ Color.isatty h 1 = false)
  /\ fst (Color.supportsColor h) = None
  /\ fst (Color.supportsColor (Color.process [] None true)) = Color.translateLevel 2.
Proof.
  intros h.
  assert (Henv : Color.env h "FORCE_COLOR" = None) by reflexivity.
  assert (Hflags : forall flag, In flag Color.color_flags ->
                     ~ In ("--" +:+ flag) (Color.before_terminator (Color.argv h))).
  { intros flag Hin Hyes. cbn in Hin.
    repeat (destruct Hin as [<- | Hin];
            [vm_compute in Hyes; intuition discriminate |]).
    destruct Hin. }
  assert (Hazure : truthy_string (Color.env h "TF_BUILD")
                   && truthy_string (Color.env h "AGENT_NAME") = false) by reflexivity.
  assert (Htty : Color.isatty h 1 = false) by reflexivity.
  split; [exact (conj Henv (conj Hflags (conj Hazure Htty))) |].
  split; [| vm_compute; reflexivity].
  exact (proj1 (piped_output_has_no_color h Henv Hflags Hazure) Htty).
Defined.

(** X27. FORCE_COLOR turns color on: when it is read as a level other than
    0 ([true], the empty text, 1, 2 or 3) and TEAMCITY_VERSION is not set,
    the level is 1 or more and [createSupportsColor] does not give [false],
    whether or not there is a stream, whether or not it is a terminal, and
    whatever the flags. *)
Theorem forced_color_is_on :
  forall (h : Color.Host) (stream : option Color.StreamLike)
         (options : Color.SupportsColorOptions) (n : Z),
    Color.envForceColor h = Some n ->
    n <> 0%Z ->
    truthy_string (Color.env h "TEAMCITY_VERSION") = false ->
    (1 <= Color.supportsColorLevel h stream options)%Z
    /\ Color.createSupportsColor h stream options <> None.
Proof.
  intros h stream options n He Hn Hteam.
  assert (Hpos : (1 <= n <= 3)%Z) by (pose proof (envForceColor_range h n He); lia).
  assert (Hlevel : forall o, (1 <= Color.supportsColorLevel h stream o)%Z).
  { intros o. unfold Color.supportsColorLevel. cbv zeta.
    rewrite He, Hteam. cbn [nullish nullish_or].
    destruct n as [| p | p]; [lia | | lia].
    rewrite andb_false_r.
    color_cases; lia. }
  split; [apply Hlevel |].
  unfold Color.createSupportsColor. cbv zeta. rewrite translateLevel_none.
  match goal with |- ?l <> _ => assert (1 <= l)%Z by apply Hlevel end. lia.
Qed.

(** X27, on a process whose output is piped, with FORCE_COLOR=1 and
    [--no-color]. *)
Lemma forced_color_is_on_witness :
  let h := Color.process ["--no-color"] (Some "1") false in
  let options := {| Color.streamIsTTY := None; Color.sniffFlags := None |} in
  (Color.envForceColor h = Some 1%Z
   /\ 1%Z <> 0%Z
   /\ truthy_string (Color.env h "TEAMCITY_VERSION") = false)
  /\ (1 <= Color.supportsColorLevel h None options)%Z
  /\ Color.createSupportsColor h None options <> None.
Proof.
  intros h options.
  assert (He : Color.envForceColor h = Some 1%Z) by reflexivity.
  assert (Hn : 1%Z <> 0%Z) by discriminate.
  assert (Hteam : truthy_string (Color.env h "TEAMCITY_VERSION") = false) by reflexivity.
  split; [exact (conj He (conj Hn Hteam)) |].
  exact (forced_color_is_on h None options 1%Z He Hn Hteam).
Defined.

(* ===================================================================== *)
(** * The error line of the command *)
(* ===================================================================== *)

(** X29. What [fatal] prints. The process ends with status 1 after one line
    on the standard error, and nothing else: the message after the prefix
    [[ERROR] ], which is plain when [supportsColor.stderr] is [false] and
    has ERROR in red otherwise. Without FORCE_COLOR, without a flag for
    colors before the terminator and outside Azure DevOps, a standard error
    that is no terminal gets the plain prefix. *)
Theorem fatal_prints_one_line :
  forall (w : World) (message : string) (st : State),
    exists prefix,
      fatal (A := unit) w message st
      = (Exit, {| files := files st;
                  trace := trace st ++ [EError (prefix +:+ message); EExit 1] |})
      /\ (snd (Color.supportsColor (host w)) = None -> prefix = "[ERROR] ")
      /\ (snd (Color.supportsColor (host w)) <> None ->
          prefix = "[" +:+ esc +:+ "[31mERROR" +:+ esc +:+ "[39m] ")
      /\ (env w "FORCE_COLOR" = None ->
          (forall flag, In flag Color.color_flags ->
                        ~ In ("--" +:+ flag) (Color.before_terminator (argv w))) ->
          truthy_string (env w "TF_BUILD") && truthy_string (env w "AGENT_NAME") = false ->
          isatty w 2 = false ->
          prefix = "[ERROR] ").
Proof.
  intros w message st. exists (errorPrefix w).
  split; [apply fatal_run |].
  assert (Hplain : snd (Color.supportsColor (host w)) = None -> errorPrefix w = "[ERROR] ").
  { intros Hnone. unfold errorPrefix. rewrite Hnone. reflexivity. }
  split; [exact Hplain |]. split.
  - intros Hsome. unfold errorPrefix.
    destruct (snd (Color.supportsColor (host w))); [reflexivity | destruct (Hsome eq_refl)].
  - intros Henv Hflags Hazure Htty. apply Hplain.
    unfold Color.supportsColor, Color.createSupportsColor. cbn [snd]. cbv zeta.
    apply translateLevel_none. apply unforced_without_terminal; try assumption.
    cbn [Color.streamIsTTY]. change (Color.isatty (host w) 2) with (isatty w 2).
    rewrite Htty. exact I.
Qed.

(** X29, on the process of the fixture, whose standard error is no terminal,
    and on the same process with FORCE_COLOR=1. *)
Lemma fatal_prints_one_line_witness :
  let w := Fixture.world (FetchResolves Fixture.accepted) None in
  let forced := Scenario.forcing_color in
  fst (fatal (A := unit) w "Storybook upload failed" {| files := ∅; trace := [] |}) = Exit
  /\ trace (snd (fatal (A := unit) w "Storybook upload failed" {| files := ∅; trace := [] |}))
     = [EError "[ERROR] Storybook upload failed"; EExit 1]
  /\ trace (snd (fatal (A := unit) forced "Storybook upload failed"
                       {| files := ∅; trace := [] |}))
     = [EError ("[" +:+ esc +:+ "[31mERROR" +:+ esc +:+ "[39m] Storybook upload failed");
        EExit 1].
Proof.
  intros w forced.
  destruct (fatal_prints_one_line w "Storybook upload failed" {| files := ∅; trace := [] |})
    as (prefix & Hrun & Hplain & _).
  destruct (fatal_prints_one_line forced "Storybook upload failed" {| files := ∅; trace := [] |})
    as (prefix' & Hrun' & _ & Hred & _).
  rewrite Hrun, Hrun'. cbn [fst snd trace app].
  rewrite (Hplain ltac:(vm_compute; reflexivity)).
  rewrite (Hred ltac:(vm_compute; discriminate)).
  split; [reflexivity |]. split; reflexivity.
Defined.

(** The steps of the resolution and those of the upload are quiet. *)
Lemma metadata_quiet (evs : list Event) : Forall metadata_step evs -> Forall quiet evs.
Proof.
  intros Hall. eapply Stdlib.Lists.List.Forall_impl; [| exact Hall].
  intros e He. destruct e; try exact I; destruct He.
Qed.

Lemma uploadStorybook_quiet w opts fs : Forall quiet (snd (exec (uploadStorybook w opts) fs)).
Proof.
  apply (tame_exec _ false). eapply tame_weaken; [| apply uploadStorybook_steps].
  intros e [He _]. destruct e; try exact I; destruct He.
Qed.

(** X30. The [upload] command leaves no rejection unhandled. Its action
    completes, having printed nothing on the standard error, exactly when
    [vizdiff] completes; in every other case (a token that is missing or
    invalid, a commit or a branch that cannot be resolved, an upload that
    fails) the process exits with status 1, and the last thing it does
    before is to print one line on the standard error, the only one of the
    run. *)
Theorem command_completes_or_exits :
  forall (w : World) (dir : string) (options : CommandArgs) (fs : gmap string string),
    let run := exec (upload_action w dir options) fs in
    (fst (fst run) = Normal tt
     /\ fst (fst (exec (vizdiff w dir options) fs)) = Normal tt
     /\ Forall quiet (snd run))
    \/ (fst (fst run) = Exit
        /\ fst (fst (exec (vizdiff w dir options) fs)) <> Normal tt
        /\ exists pre text,
            snd run = pre ++ [EError (errorPrefix w +:+ text); EExit 1]
            /\ Forall quiet pre).
Proof.
  intros w dir options fs run. subst run.
  unfold exec, upload_action, try_catch.
  destruct (vizdiff w dir options {| files := fs; trace := [] |}) as [o st'] eqn:Hviz.
  destruct (vizdiff_shapes w dir options fs o st' Hviz)
    as [(msg & -> & Htr) | [(e & -> & Hmeta) | (opts & pre & Hpre & Hup)]].
  - right. cbn [fst snd]. split; [reflexivity |]. split; [discriminate |].
    exists [], msg. split; [exact Htr | constructor].
  - right. rewrite fatal_run. cbn [fst snd files trace].
    split; [reflexivity |]. split; [discriminate |].
    exists (trace st'), (Js.Error_toString e).
    split; [reflexivity | exact (metadata_quiet _ Hmeta)].
  - pose proof (uploadStorybook_quiet w opts fs) as Hquiet.
    destruct (exec (uploadStorybook w opts) fs) as [[[[] | err |] fs'] evs];
      cbn [snd] in Hquiet; [| | destruct Hup].
    + destruct Hup as [-> Htr]. left. cbn [fst snd].
      split; [reflexivity |]. split; [reflexivity |]. rewrite Htr.
      apply Forall_app. split; [exact (metadata_quiet _ Hpre) | exact Hquiet].
    + destruct Hup as [-> [msg Htr]]. right. cbn [fst snd].
      split; [reflexivity |]. split; [discriminate |].
      exists (pre ++ evs), msg. split; [rewrite Htr, <- app_assoc; reflexivity |].
      apply Forall_app. split; [exact (metadata_quiet _ Hpre) | exact Hquiet].
Qed.
